(** * Export/download pipeline and progress tracking: a shallow embedding

    The development follows [api/src/controllers/DownloadController.ts],
    [api/src/config/main.ts] and the [ProgressController].  A JavaScript
    string is a [string] with one [ascii] for each UTF-16 code unit (the
    code units below 256 are covered: the letter e with an acute accent is
    the one code unit 233; names with other code units are outside the
    development).  The POSIX flavour of Node's [path] module
    is embedded in [Module Path]; the controllers run in a small monad of
    state and errors over a world made of the database, the file system
    with its folders and files, the clock and an event log. *)

From Stdlib Require Import ZArith QArith Lia String Ascii.
From stdpp Require Import base gmap strings list fin_maps pretty.

Local Open Scope string_scope.
Local Open Scope list_scope.

(** ** Node's [path] module (POSIX) *)

Module Path.

Definition isPosixPathSeparator (c : ascii) : bool := Ascii.eqb c "/".

(** [s.split('/')] *)
Fixpoint split (s : string) : list string :=
  match s with
  | EmptyString => [EmptyString]
  | String c r =>
      if isPosixPathSeparator c then EmptyString :: split r
      else match split r with
           | h :: t => String c h :: t
           | [] => [String c EmptyString]
           end
  end.

(** [segs.join('/')] *)
Fixpoint joinWith (segs : list string) : string :=
  match segs with
  | [] => ""
  | [s] => s
  | s :: rest => s +:+ "/" +:+ joinWith rest
  end.

(** One segment of [normalizeString]; [res] is the result so far, last
    segment first. *)
Definition normalizeStep (allowAboveRoot : bool) (res : list string)
    (seg : string) : list string :=
  if decide (seg = "") then res
  else if decide (seg = ".") then res
  else if decide (seg = "..") then
    match res with
    | top :: rest =>
        if decide (top = "..")
        then (if allowAboveRoot then ".." :: res else res)
        else rest
    | [] => if allowAboveRoot then [".."] else []
    end
  else seg :: res.

Definition normalizeString (path : string) (allowAboveRoot : bool) : string :=
  joinWith (rev (foldl (normalizeStep allowAboveRoot) [] (split path))).

Definition isAbsolute (p : string) : bool :=
  match p with
  | String c _ => isPosixPathSeparator c
  | EmptyString => false
  end.

Fixpoint trailingSeparator (p : string) : bool :=
  match p with
  | EmptyString => false
  | String c EmptyString => isPosixPathSeparator c
  | String _ r => trailingSeparator r
  end.

Definition normalize (path : string) : string :=
  if decide (path = "") then "."
  else
    let abs := isAbsolute path in
    let trailing := trailingSeparator path in
    let p := normalizeString path (negb abs) in
    if decide (p = "") then
      (if abs then "/" else if trailing then "./" else ".")
    else
      let p := if trailing then p +:+ "/" else p in
      if abs then "/" +:+ p else p.

(** [path.join(a, b)] *)
Definition join (a b : string) : string :=
  match decide (a = ""), decide (b = "") with
  | left _, left _ => "."
  | left _, right _ => normalize b
  | right _, left _ => normalize a
  | right _, right _ => normalize (a +:+ "/" +:+ b)
  end.

(** [path.resolve(p)] in a process whose working directory is [cwd] *)
Definition resolve (cwd p : string) : string :=
  let step (acc : string * bool) (path : string) : string * bool :=
    if snd acc then acc
    else if decide (path = "") then acc
    else (path +:+ "/" +:+ fst acc, isAbsolute path) in
  let '(resolvedPath, resolvedAbsolute) := step (step ("", false) p) cwd in
  let r := normalizeString resolvedPath (negb resolvedAbsolute) in
  if resolvedAbsolute then "/" +:+ r
  else if decide (r = "") then "." else r.

(** The backwards scan of [path.dirname]: [revTail] holds the characters at
    the indices [length - 1] down to [1]; the result is what lies between
    index [1] and the separator that ends the directory part. *)
Fixpoint dirnameScan (revTail : list ascii) (matchedSlash : bool)
    : option (list ascii) :=
  match revTail with
  | [] => None
  | c :: r =>
      if isPosixPathSeparator c
      then (if matchedSlash then dirnameScan r true else Some r)
      else dirnameScan r false
  end.

Definition dirname (path : string) : string :=
  match list_ascii_of_string path with
  | [] => "."
  | c0 :: tail =>
      let hasRoot := isPosixPathSeparator c0 in
      match dirnameScan (rev tail) true with
      | None => if hasRoot then "/" else "."
      | Some r =>
          if hasRoot && bool_decide (r = []) then "//"
          else string_of_list_ascii (c0 :: rev r)
      end
  end.

End Path.

(** ** Data model *)

(** A value of the request's [files] arrays as JSON delivers it. *)
Inductive JsValue :=
| JsNumber (n : Z)
| JsString (s : string).

Global Instance JsValue_eq_dec : EqDecision JsValue.
Proof. solve_decision. Defined.

(** [File] documents of the media manager *)
Record IFile := { f_name : string; f_link : string; f_size : Z }.

(** [Unit] documents; [u_t] is the discriminator [__t], [u_course] the
    reference [_course], [u_deadline] is [None] when the field is absent. *)
Record Unit := {
  u_t : string;
  u_name : string;
  u_files : list IFile;
  u_course : string;
  u_deadline : option string
}.

Record Lecture := { l_name : string }.

Record ICourse := {
  c_name : string;
  c_courseAdmin : string;
  c_students : list string;
  c_teachers : list string
}.

Record IUser := { usr_id : string; usr_role : string }.

(** [IDownload] *)
Record IDownloadUnit := { unitId : string; files : list JsValue }.
Record IDownloadLecture := { lectureId : string; units : list IDownloadUnit }.
Record IDownload := { courseName : string; lectures : list IDownloadLecture }.

(** [Progress] documents, and the body of a progress request.  [p_answers]
    stands for the fields the controller only passes on. *)
Record Progress := {
  p_user : string;
  p_course : string;
  p_unit : string;
  p_answers : string
}.

Record ProgressData := { d_unit : string; d_answers : string }.

Record Database := {
  Courses : gmap string ICourse;
  Lectures : gmap string Lecture;
  Units : gmap string Unit;
  Files : JsValue -> option IFile;
  Progresses : list Progress
}.

Definition Buffer := string.

Record CreateOptions := {
  o_format : string;
  o_border : list (string * string);
  o_footer : string;
  o_header : option (string * string)
}.

Inductive ArchiveEntry :=
| EntryFile (source : string) (name : string)
| EntryBuffer (data : Buffer) (name : string).

(** A node of the file system, a folder or a regular file: what
    [fs.statSync] tells of it and, for an archive, the entries a reader
    finds in it.  These are the entries of the archive finalized into the
    file; what was streamed into a file whose archive was never finalized
    gives a reader no entry. *)
Record Stats := {
  isDirectory : bool;
  ctimeMs : Z;
  content : list ArchiveEntry
}.

Inductive Event :=
| EvFindCourse (id : string)
| EvFindLecture (id : string)
| EvFindUnit (id : string)
| EvFindFile (ref : JsValue)
| EvFindProgress (user unit : string)
| EvAuthCheck
| EvRandomBytes (n : nat)
| EvExistsSync (p : string)
| EvCreateWriteStream (p : string)
| EvReaddirSync (p : string)
| EvStatSync (p : string)
| EvUnlinkSync (p : string)
| EvCreatePdf
| EvArchiveFinalize
| EvDownload (p : string).

Record World := {
  db : Database;
  fs : gmap string Stats;
  clock : Z;
  drawn : nat;
  log : list Event
}.

Inductive Error :=
| BadRequestError
| ForbiddenError
| NotFoundError
| TypeError
| ENOENT
| ENOTDIR
| EISDIR
| PdfError.

(** How a call ends: with a value, with an error thrown, or not at all (a
    promise that never settles). *)
Inductive Result (A : Type) :=
| Ok (a : A)
| Throw (e : Error)
| Pending.
Arguments Ok {A} a.
Arguments Throw {A} e.
Arguments Pending {A}.

(** ** The monad of controller code: a world is threaded; a throw stops the
    run, and so does a promise that never settles. *)

Definition M (A : Type) : Type := World -> Result A * World.

Definition ret {A} (a : A) : M A := fun w => (Ok a, w).
Definition throw {A} (e : Error) : M A := fun w => (Throw e, w).
Definition pending {A} : M A := fun w => (Pending, w).
Definition bind {A B} (m : M A) (k : A -> M B) : M B :=
  fun w => match m w with
           | (Ok a, w') => k a w'
           | (Throw e, w') => (Throw e, w')
           | (Pending, w') => (Pending, w')
           end.

Declare Scope ctrl_scope.
Delimit Scope ctrl_scope with ctrl.
Notation "x <- m ;; k" := (bind m (fun x => k))
  (at level 100, m at next level, right associativity) : ctrl_scope.
Notation "m ;; k" := (bind m (fun _ => k))
  (at level 100, right associativity) : ctrl_scope.
Local Open Scope ctrl_scope.

Definition emit (e : Event) : M unit :=
  fun w => (Ok tt, {| db := db w; fs := fs w; clock := clock w;
                       drawn := drawn w; log := log w ++ [e] |}).

Definition setFs (f : gmap string Stats -> gmap string Stats) : M unit :=
  fun w => (Ok tt, {| db := db w; fs := f (fs w); clock := clock w;
                       drawn := drawn w; log := log w |}).

Definition setProgresses (f : list Progress -> list Progress) : M unit :=
  fun w => (Ok tt,
            {| db := {| Courses := Courses (db w); Lectures := Lectures (db w);
                        Units := Units (db w); Files := Files (db w);
                        Progresses := f (Progresses (db w)) |};
               fs := fs w; clock := clock w; drawn := drawn w; log := log w |}).

Definition gets {A} (f : World -> A) : M A := fun w => (Ok (f w), w).

(** [for (const x of xs) body(x)] over a loop state *)
Fixpoint forOf {A St} (xs : list A) (body : St -> A -> M St) (s : St) : M St :=
  match xs with
  | [] => ret s
  | x :: rest => s' <- body s x ;; forOf rest body s'
  end.

(** ** The environment: configuration and what lies outside the repository

    [htmlToPdf] is the renderer, [None] when it fails.  [archiver files
    entries] is what the archiver library makes of the entries handed to
    it, on the files it finds: the entries a reader of the finished zip
    gets.  The library is free to leave out an entry whose source file is
    not there and to rewrite names; the development assumes nothing of
    it. *)

Record Env := {
  cwd : string;
  appRoot : string;
  UPLOADFOLDER : option string;
  markdownCss : string;
  entropy : nat -> Byte.byte;
  toHtmlForIndividualPDF : Unit -> string;
  toHtmlForSinglePDF : Unit -> string;
  toHtmlForSinglePDFSolutions : Unit -> string;
  htmlToPdf : string -> CreateOptions -> option Buffer;
  archiver : gmap string Stats -> list ArchiveEntry -> list ArchiveEntry;
  userCanViewCourse : ICourse -> IUser -> bool;
  momentValue : string -> option Z
}.

(** ** [api/src/config/main.ts] *)

Module config.
Definition timeToLiveCacheValue : Z := 3600.
Definition tmpFileCacheFolder (E : Env) : string := appRoot E +:+ "/tmp/".
Definition maxFileSize : Q := 51200 # 1.
Definition maxZipSize : Q := 204800 # 1.
Definition uploadFolder (E : Env) : string :=
  match UPLOADFOLDER E with
  | Some s => if decide (s = "") then appRoot E +:+ "/uploads/" else s
  | None => appRoot E +:+ "/uploads/"
  end.
End config.

(** ** JavaScript helpers *)

(** [xs.indexOf(x)], strict equality *)
Fixpoint indexOf {A} `{EqDecision A} (xs : list A) (x : A) : Z :=
  match xs with
  | [] => -1
  | y :: rest =>
      if decide (y = x) then 0
      else let i := indexOf rest x in if (i <? 0)%Z then -1 else (i + 1)%Z
  end.

(** [a > b] on numbers.  Sizes are exact rationals: a file size is an
    integer number of bytes and [size / 1024] loses nothing. *)
Definition Qgt_bool (a b : Q) : bool := negb (Qle_bool a b).

Definition dq : string := String "034" "".
Definition nl : string := String "010" "".

Definition charCode (c : ascii) : nat := nat_of_ascii c.

Definition between (lo hi n : nat) : bool := (lo <=? n)%nat && (n <=? hi)%nat.

Definition isAlnum (c : ascii) : bool :=
  between 48 57 (charCode c) || between 65 90 (charCode c)
  || between 97 122 (charCode c).

(** [\w] *)
Definition isWordChar (c : ascii) : bool :=
  isAlnum c || (charCode c =? 95)%nat.

(** what [.] refuses; it takes any other code unit *)
Definition isLineTerminator (c : ascii) : bool :=
  (charCode c =? 10)%nat || (charCode c =? 13)%nat.

Fixpoint stripPrefix (pre s : string) : option string :=
  match pre, s with
  | EmptyString, _ => Some s
  | String a pre', String b s' =>
      if Ascii.eqb a b then stripPrefix pre' s' else None
  | String _ _, EmptyString => None
  end.

Definition startsWith (pre s : string) : bool :=
  match stripPrefix pre s with Some _ => true | None => false end.

(** The regular expression [/download_(\w+).zip/]: [matchDotZip] is [.zip] at
    the head of a string, [matchWordsDotZip] is [\w+.zip] there,
    [matchHere] the whole pattern there, and [regexTest] tries every start. *)
Definition matchDotZip (s : string) : bool :=
  match s with
  | String d r => negb (isLineTerminator d) && startsWith "zip" r
  | EmptyString => false
  end.

Fixpoint matchWordsDotZip (s : string) : bool :=
  match s with
  | String c r => isWordChar c && (matchDotZip r || matchWordsDotZip r)
  | EmptyString => false
  end.

Definition matchHere (s : string) : bool :=
  match stripPrefix "download_" s with
  | Some r => matchWordsDotZip r
  | None => false
  end.

Fixpoint regexTest (s : string) : bool :=
  matchHere s ||
  match s with
  | String _ r => regexTest r
  | EmptyString => false
  end.

(** [buf.toString('hex')] *)
Definition hexDigit (n : N) : ascii :=
  match String.get (N.to_nat n) "0123456789abcdef" with
  | Some c => c
  | None => "0"%char
  end.

Definition byteToHex (b : Byte.byte) : string :=
  let n := Byte.to_N b in
  String (hexDigit (n / 16)) (String (hexDigit (n mod 16)) "").

Definition toHex (bs : list Byte.byte) : string :=
  foldr (fun b acc => byteToHex b +:+ acc) "" bs.

Definition isHexChar (c : ascii) : bool :=
  between 48 57 (charCode c) || between 97 102 (charCode c).

Fixpoint allChars (P : ascii -> bool) (s : string) : bool :=
  match s with
  | EmptyString => true
  | String c r => P c && allChars P r
  end.

(** ** The world's primitives: file system, database, clock, randomness *)

Section Primitives.
Context (E : Env).

(** Every file-system call resolves its path against the working
    directory; the file system is keyed by the resolved path. *)
Definition realpath (p : string) : string := Path.resolve (cwd E) p.

Definition basename (p : string) : string := List.last (Path.split p) "".

Definition child (dir name : string) : string :=
  if decide (dir = "/") then "/" +:+ name else dir +:+ "/" +:+ name.

Definition isEntryName (n : string) : bool :=
  bool_decide (n <> "") && bool_decide (n <> ".") && bool_decide (n <> "..").

(** The name under which [p] is an entry of the directory [dir], if it is. *)
Definition entryOf (dir p : string) : option string :=
  let n := basename p in
  if isEntryName n && bool_decide (p = child dir n) then Some n else None.

Definition Date_now : M Z := gets clock.

(** [p] is a folder among [files]. *)
Definition isDir (files : gmap string Stats) (p : string) : bool :=
  match files !! p with
  | Some st => isDirectory st
  | None => false
  end.

(** A write stream on [p] opens: the folder of [p] is there and [p] itself
    is no folder. *)
Definition opens (files : gmap string Stats) (p : string) : bool :=
  isDir files (Path.dirname p) && negb (isDir files p).

Definition existsSync (p : string) : M bool :=
  emit (EvExistsSync p) ;;
  gets (fun w => bool_decide (is_Some (fs w !! realpath p))).

(** The names of the entries of the folder [dir], files and folders alike,
    in the order in which the map holds them (Node gives them in the order
    of the directory, which is left open); an error when [dir] is not
    there or is no folder. *)
Definition readdirSync (dir : string) : M (list string) :=
  emit (EvReaddirSync dir) ;;
  st <- gets (fun w => fs w !! realpath dir) ;;
  match st with
  | Some s =>
      if isDirectory s
      then gets (fun w => omap (entryOf (realpath dir)) (fst <$> map_to_list (fs w)))
      else throw ENOTDIR
  | None => throw ENOENT
  end.

Definition statSync (p : string) : M Stats :=
  emit (EvStatSync p) ;;
  st <- gets (fun w => fs w !! realpath p) ;;
  match st with
  | Some s => ret s
  | None => throw ENOENT
  end.

(** [fs.unlinkSync(p)] removes a regular file and refuses a folder. *)
Definition unlinkSync (p : string) : M unit :=
  emit (EvUnlinkSync p) ;;
  st <- gets (fun w => fs w !! realpath p) ;;
  match st with
  | Some s => if isDirectory s then throw EISDIR
              else setFs (delete (realpath p))
  | None => throw ENOENT
  end.

(** [fs.createWriteStream(p)]: when the stream opens, the file is created,
    or emptied; when it does not (the folder of [p] is missing, or [p] is
    a folder), nothing is created and the stream tells so by an event the
    controller does not listen to.  The answer is the stream, of which
    the run needs to know only whether it opened. *)
Definition createWriteStream (p : string) : M bool :=
  emit (EvCreateWriteStream p) ;;
  now <- Date_now ;;
  opened <- gets (fun w => opens (fs w) (realpath p)) ;;
  if opened
  then setFs (insert (realpath p)
                {| isDirectory := false; ctimeMs := now; content := [] |}) ;;
       ret true
  else ret false.

(** [new Promise((resolve) => { output.on('close', ...); archive.finalize(); })]:
    on a stream that opened, what the archiver makes of the entries handed
    to it becomes the content of the piped file and the promise resolves;
    on a stream that did not open, the [close] awaited never comes and the
    promise never settles. *)
Definition archive_finalize (output : bool) (p : string)
    (archive : list ArchiveEntry) : M unit :=
  emit EvArchiveFinalize ;;
  if output
  then setFs (fun files =>
                alter (fun s => {| isDirectory := isDirectory s;
                                   ctimeMs := ctimeMs s;
                                   content := archiver E files archive |})
                      (realpath p) files)
  else pending.

Definition randomBytes (n : nat) : M (list Byte.byte) :=
  emit (EvRandomBytes n) ;;
  fun w => (Ok (map (entropy E) (seq (drawn w) n)),
            {| db := db w; fs := fs w; clock := clock w;
               drawn := drawn w + n; log := log w |}).

Definition orFail {A} (e : Error) (o : option A) : M A :=
  match o with
  | Some a => ret a
  | None => throw e
  end.

Definition Course_findOne (id : string) : M (option ICourse) :=
  emit (EvFindCourse id) ;; gets (fun w => Courses (db w) !! id).

Definition Lecture_findOne (id : string) : M (option Lecture) :=
  emit (EvFindLecture id) ;; gets (fun w => Lectures (db w) !! id).

Definition Unit_findOne (id : string) : M (option Unit) :=
  emit (EvFindUnit id) ;; gets (fun w => Units (db w) !! id).

Definition File_findById (id : JsValue) : M (option IFile) :=
  emit (EvFindFile id) ;; gets (fun w => Files (db w) id).

(** Reading a property of [null] *)
Definition deref {A} (o : option A) : M A := orFail TypeError o.

Definition createPdf (html : string) (options : CreateOptions) : M Buffer :=
  emit EvCreatePdf ;; orFail PdfError (htmlToPdf E html options).

End Primitives.

(** ** [DownloadController] *)

Record PackageSize := { totalSize : Q; tooLargeFiles : list string }.

Record Response := {
  r_headers : list (string * string);
  r_file : string;
  r_body : list ArchiveEntry
}.

Section DownloadController.
Context (E : Env).

Definition cleanupCache : M unit :=
  now <- Date_now ;;
  let expire := (now - 3600 * 1000)%Z in
  files <- readdirSync E (config.tmpFileCacheFolder E) ;;
  forOf files (fun _ fileName =>
    if negb (regexTest fileName) then ret tt
    else
      let filePath := Path.join (config.tmpFileCacheFolder E) fileName in
      fileStat <- statSync E filePath ;;
      if (ctimeMs fileStat >=? expire)%Z then ret tt
      else unlinkSync E filePath) tt.

Fixpoint removeSpecial (s : string) : string :=
  match s with
  | EmptyString => EmptyString
  | String c r =>
      if isAlnum c || Ascii.eqb c " " || Ascii.eqb c "-"
      then String c (removeSpecial r) else removeSpecial r
  end.

Fixpoint spacesToDashes (s : string) : string :=
  match s with
  | EmptyString => EmptyString
  | String c r =>
      String (if Ascii.eqb c " " then "-"%char else c) (spacesToDashes r)
  end.

Fixpoint collapseDashes (s : string) : string :=
  match s with
  | EmptyString => EmptyString
  | String c r =>
      if Ascii.eqb c "-" && startsWith "-" r then collapseDashes r
      else String c (collapseDashes r)
  end.

Definition replaceCharInFilename (filename : string) : string :=
  collapseDashes (spacesToDashes (removeSpecial filename)).

(** The body of [fileUnit.files.forEach((file, index) => ...)] *)
Definition calcFile (sel : list JsValue) (acc : PackageSize) (index : nat)
    (file : IFile) : PackageSize :=
  if (indexOf sel (JsNumber (Z.of_nat index)) >? -1)%Z then
    let kb := (inject_Z (f_size file) / (1024 # 1))%Q in
    {| totalSize := (totalSize acc + kb)%Q;
       tooLargeFiles :=
         if Qgt_bool kb config.maxFileSize
         then tooLargeFiles acc ++ [f_link file] else tooLargeFiles acc |}
  else acc.

Fixpoint forEachIndexed {A St} (f : St -> nat -> A -> St) (xs : list A)
    (index : nat) (s : St) : St :=
  match xs with
  | [] => s
  | x :: rest => forEachIndexed f rest (S index) (f s index x)
  end.

Definition calcPackage (pack : IDownload) : M PackageSize :=
  forOf (lectures pack) (fun acc lec =>
    forOf (units lec) (fun acc unit =>
      found <- Unit_findOne (unitId unit) ;;
      localUnit <- orFail NotFoundError found ;;
      if decide (u_t localUnit = "file")
      then ret (forEachIndexed (calcFile (files unit)) (u_files localUnit) 0 acc)
      else ret acc) acc)
    {| totalSize := 0; tooLargeFiles := [] |}.

Definition setHeader (k v : string) (r : Response) : Response :=
  {| r_headers := r_headers r ++ [(k, v)]; r_file := r_file r;
     r_body := r_body r |}.

(** [response.download(filePath)]: a regular file is sent, a folder is an
    error. *)
Definition download (filePath : string) (r : Response) : M Response :=
  emit (EvDownload filePath) ;;
  st <- gets (fun w => fs w !! realpath E filePath) ;;
  s <- orFail ENOENT st ;;
  if isDirectory s then throw EISDIR
  else ret {| r_headers := r_headers r; r_file := filePath;
              r_body := content s |}.

Definition getArchivedFile (id : string) (response : Response) : M Response :=
  let tmpFileCacheFolder := Path.resolve (cwd E) (config.tmpFileCacheFolder E) in
  let filePath := Path.join tmpFileCacheFolder ("download_" +:+ id +:+ ".zip") in
  if negb (bool_decide (Path.dirname filePath = tmpFileCacheFolder))
  then throw ForbiddenError
  else
    ex <- existsSync E filePath ;;
    if negb ex then throw NotFoundError
    else
      let response := setHeader "Connection" "keep-alive" response in
      let response :=
        setHeader "Access-Control-Expose-Headers" "Content-Disposition" response in
      download filePath response.

Definition createFileHash : M string :=
  bytes <- randomBytes E 16 ;; ret (toHex bytes).

Definition userCanExportCourse (course : ICourse) (user : IUser) : M bool :=
  emit EvAuthCheck ;;
  if decide (usr_role user = "admin") then ret true
  else if decide (usr_id user = c_courseAdmin course) then ret true
  else if negb (indexOf (c_students course) (usr_id user) =? -1)%Z then ret true
  else if negb (indexOf (c_teachers course) (usr_id user) =? -1)%Z then ret true
  else throw ForbiddenError.

Definition pageFooter : string :=
  "<div id=" +:+ dq +:+ "pageFooter" +:+ dq +:+ ">{{page}}/{{pages}}</div>".

Definition optionsIndividual : CreateOptions :=
  {| o_format := "A4";
     o_border := [("left", "1cm"); ("right", "1cm")];
     o_footer := pageFooter;
     o_header := None |}.

Definition optionsSingle (course : ICourse) : CreateOptions :=
  {| o_format := "A4";
     o_border := [("left", "1cm"); ("right", "1cm"); ("top", "0"); ("bottom", "0")];
     o_footer := pageFooter;
     o_header :=
       Some ("<div id=" +:+ dq +:+ "pageHeader" +:+ dq +:+ ">" +:+ c_name course
             +:+ "</div>", "20mm") |}.

Definition headIndividual : string :=
  "<!DOCTYPE html>" +:+ nl +:+
  "<html>" +:+ nl +:+
  "  <head>" +:+
  "     <style>" +:+
  "       #pageHeader {text-align: center;border-bottom: 1px solid;padding-bottom: 5px;}" +:+
  "       #pageFooter {text-align: center;border-top: 1px solid;padding-top: 5px;}" +:+
  "       html,body {font-family: 'Helvetica', 'Arial', sans-serif; font-size: 12px; line-height: 1.5;}" +:+
  "       .codeBox {border: 1px solid grey; font-family: Monaco,Menlo,source-code-pro,monospace; padding: 10px}" +:+
  "       #firstPage {page-break-after: always;}" +:+
  "       .bottomBoxWrapper {height:800px; position: relative}" +:+
  "       .bottomBox {position: absolute; bottom: 0;}" +:+ markdownCss E +:+
  "     </style>" +:+
  "  </head>".

Definition headSingle : string :=
  "<!DOCTYPE html>" +:+ nl +:+
  "<html>" +:+ nl +:+
  "  <head>" +:+
  "     <style>" +:+
  "       #pageHeader {text-align: center;border-bottom: 1px solid;padding-bottom: 5px;}" +:+
  "       #pageFooter {text-align: center;border-top: 1px solid;padding-top: 5px;}" +:+
  "       html, body {font-family: 'Helvetica', 'Arial', sans-serif; font-size: 12px; line-height: 1.5;}" +:+
  "       .codeBox {border: 1px solid grey; font-family: Monaco,Menlo,source-code-pro,monospace; padding: 10px}" +:+
  "       #firstPage {page-break-after: always;}" +:+
  "       #nextPage {page-break-before: always;}" +:+
  "       .bottomBoxWrapper {height:800px; position: relative}" +:+
  "       .bottomBox {position: absolute; bottom: 0;}" +:+ markdownCss E +:+
  "     </style>" +:+
  "  </head>" +:+
  "  <body>" +:+
  "  ".

Definition divNextPage : string :=
  "<div id=" +:+ dq +:+ "nextPage" +:+ dq +:+ " >".

Definition solutionsTitle : string :=
  "<div id=" +:+ dq +:+ "nextPage" +:+ dq +:+ "><h2><u>Solutions</u></h2>".

(** [name] of an attachment or a rendered unit inside the archive *)
Definition entryName (lecCounter : nat) (lcName : string) (unitCounter : nat)
    (base : string) : string :=
  pretty lecCounter +:+ "_" +:+ lcName +:+ "/" +:+ pretty unitCounter +:+ "_"
  +:+ base.

(** [path.join(path.resolve(config.tmpFileCacheFolder), 'download_' + hash + '.zip')] *)
Definition cacheFilePath (hash : string) : string :=
  Path.join (Path.resolve (cwd E) (config.tmpFileCacheFolder E))
            ("download_" +:+ hash +:+ ".zip").

(** The unit loop of [postDownloadRequestPDFIndividual]; the loop state is
    [(unitCounter, archive)]. *)
Definition individualUnit (lecCounter : nat) (lcName : string)
    (st : nat * list ArchiveEntry) (unit : IDownloadUnit)
    : M (nat * list ArchiveEntry) :=
  let unitCounter := fst st in
  let archive := snd st in
  found <- Unit_findOne (unitId unit) ;;
  localUnit <- orFail NotFoundError found ;;
  archive <-
    (if decide (u_t localUnit = "file") then
       forOf (files unit) (fun archive fileId =>
         o <- File_findById fileId ;;
         file <- deref o ;;
         ret (archive ++ [EntryFile ("uploads/" +:+ f_link file)
                (entryName lecCounter lcName unitCounter (f_name file))]))
         archive
     else
       let html := headIndividual +:+ toHtmlForIndividualPDF E localUnit
                   +:+ "</html>" in
       let name := entryName lecCounter lcName unitCounter
                     (replaceCharInFilename (u_name localUnit) +:+ ".pdf") in
       buffer <- createPdf E html optionsIndividual ;;
       ret (archive ++ [EntryBuffer buffer name])) ;;
  ret (S unitCounter, archive).

(** The lecture loop; the loop state is [(lecCounter, archive)]. *)
Definition individualLecture (st : nat * list ArchiveEntry)
    (lec : IDownloadLecture) : M (nat * list ArchiveEntry) :=
  let lecCounter := fst st in
  let archive := snd st in
  o <- Lecture_findOne (lectureId lec) ;;
  localLecture <- deref o ;;
  let lcName := replaceCharInFilename (l_name localLecture) in
  st' <- forOf (units lec) (individualUnit lecCounter lcName) (1%nat, archive) ;;
  ret (S lecCounter, snd st').

Definition postDownloadRequestPDFIndividual (data : IDownload) (user : IUser)
    : M string :=
  if (length (lectures data) =? 0)%nat then throw BadRequestError
  else
    found <- Course_findOne (courseName data) ;;
    course <- orFail NotFoundError found ;;
    userCanExportCourse course user ;;
    size <- calcPackage data ;;
    if Qgt_bool (totalSize size) config.maxZipSize
       || negb (length (tooLargeFiles size) =? 0)%nat
    then throw BadRequestError
    else
      hash <- createFileHash ;;
      let filePath := cacheFilePath hash in
      output <- createWriteStream E filePath ;;
      st <- forOf (lectures data) individualLecture (1%nat, []) ;;
      archive_finalize E output filePath (snd st) ;;
      ret hash.

(** The variables the loops of [postDownloadRequestPDFSingle] assign *)
Record SingleVars := {
  html : string;
  solutions : string;
  firstSol : bool;
  archive : list ArchiveEntry;
  unitCounter : nat;
  solCounter : nat
}.

Definition addHtml (s : string) (v : SingleVars) : SingleVars :=
  {| html := html v +:+ s; solutions := solutions v; firstSol := firstSol v;
     archive := archive v; unitCounter := unitCounter v;
     solCounter := solCounter v |}.

Definition addSolutions (s : string) (v : SingleVars) : SingleVars :=
  {| html := html v; solutions := solutions v +:+ s; firstSol := firstSol v;
     archive := archive v; unitCounter := unitCounter v;
     solCounter := solCounter v |}.

Definition setFirstSol (v : SingleVars) : SingleVars :=
  {| html := html v; solutions := solutions v; firstSol := true;
     archive := archive v; unitCounter := unitCounter v;
     solCounter := solCounter v |}.

Definition addEntry (e : ArchiveEntry) (v : SingleVars) : SingleVars :=
  {| html := html v; solutions := solutions v; firstSol := firstSol v;
     archive := archive v ++ [e]; unitCounter := unitCounter v;
     solCounter := solCounter v |}.

Definition incUnitCounter (v : SingleVars) : SingleVars :=
  {| html := html v; solutions := solutions v; firstSol := firstSol v;
     archive := archive v; unitCounter := S (unitCounter v);
     solCounter := solCounter v |}.

Definition incSolCounter (v : SingleVars) : SingleVars :=
  {| html := html v; solutions := solutions v; firstSol := firstSol v;
     archive := archive v; unitCounter := unitCounter v;
     solCounter := S (solCounter v) |}.

Definition startLecture (v : SingleVars) : SingleVars :=
  {| html := html v; solutions := solutions v; firstSol := firstSol v;
     archive := archive v; unitCounter := 1; solCounter := 1 |}.

Definition isKataOrTask (u : Unit) : bool :=
  bool_decide (u_t u = "code-kata") || bool_decide (u_t u = "task").

Definition lectureHeading (localLecture : Lecture) : string :=
  "<h2>Lecture: " +:+ l_name localLecture +:+ "</h2>".

(** What one unit adds to [solutions] *)
Definition singleSolutions (localLecture : Lecture) (localUnit : Unit)
    (v : SingleVars) : SingleVars :=
  if isKataOrTask localUnit then
    let v :=
      if negb (firstSol v) && (solCounter v =? 1)%nat then
        setFirstSol (addSolutions ("<div>" +:+ lectureHeading localLecture) v)
      else if (solCounter v =? 1)%nat then
        addSolutions (divNextPage +:+ lectureHeading localLecture) v
      else addSolutions divNextPage v in
    incSolCounter
      (addSolutions (toHtmlForSinglePDFSolutions E localUnit +:+ "</div>") v)
  else if negb (bool_decide (u_t localUnit = "file")) then
    addSolutions (toHtmlForSinglePDFSolutions E localUnit) v
  else v.

Definition singleUnit (lecCounter : nat) (localLecture : Lecture)
    (lcName : string) (v : SingleVars) (unit : IDownloadUnit) : M SingleVars :=
  found <- Unit_findOne (unitId unit) ;;
  localUnit <- orFail NotFoundError found ;;
  v <-
    (if decide (u_t localUnit = "file") then
       forOf (files unit) (fun v fileId =>
         o <- File_findById fileId ;;
         file <- deref o ;;
         ret (addEntry
                (EntryFile (Path.join (config.uploadFolder E) (f_link file))
                   (entryName lecCounter lcName (unitCounter v) (f_name file)))
                v)) v
     else if isKataOrTask localUnit && (1 <? lecCounter)%nat
             && (1 <? unitCounter v)%nat then
       ret (addHtml (divNextPage +:+ toHtmlForSinglePDF E localUnit +:+ "</div>") v)
     else ret (addHtml (toHtmlForSinglePDF E localUnit) v)) ;;
  ret (incUnitCounter (singleSolutions localLecture localUnit v)).

(** The lecture loop; the loop state is [(lecCounter, variables)]. *)
Definition singleLecture (st : nat * SingleVars) (lec : IDownloadLecture)
    : M (nat * SingleVars) :=
  let lecCounter := fst st in
  o <- Lecture_findOne (lectureId lec) ;;
  localLecture <- deref o ;;
  let lcName := replaceCharInFilename (l_name localLecture) in
  let v := startLecture (snd st) in
  let v :=
    if (1 <? lecCounter)%nat
    then addHtml (divNextPage +:+ lectureHeading localLecture) v
    else addHtml ("<div>" +:+ lectureHeading localLecture) v in
  v <- forOf (units lec) (singleUnit lecCounter localLecture lcName) v ;;
  ret (S lecCounter, addHtml "</div>" v).

Definition postDownloadRequestPDFSingle (data : IDownload) (user : IUser)
    : M string :=
  if (length (lectures data) =? 0)%nat then throw BadRequestError
  else
    found <- Course_findOne (courseName data) ;;
    course <- orFail NotFoundError found ;;
    userCanExportCourse course user ;;
    size <- calcPackage data ;;
    if Qgt_bool (totalSize size) config.maxZipSize
       || negb (length (tooLargeFiles size) =? 0)%nat
    then throw BadRequestError
    else
      let data := {| courseName := courseName data +:+ "Single";
                     lectures := lectures data |} in
      hash <- createFileHash ;;
      let filePath := cacheFilePath hash in
      output <- createWriteStream E filePath ;;
      let options := optionsSingle course in
      st <- forOf (lectures data) singleLecture
              (1%nat, {| html := headSingle; solutions := solutionsTitle;
                         firstSol := false; archive := [];
                         unitCounter := 1; solCounter := 1 |}) ;;
      let v := snd st in
      let v := addHtml (solutions v) v in
      let v := addHtml ("</div></body>" +:+ "</html>") v in
      let name := replaceCharInFilename (c_name course) +:+ ".pdf" in
      buffer <- createPdf E (html v) options ;;
      let v := addEntry (EntryBuffer buffer name) v in
      archive_finalize E output filePath (archive v) ;;
      ret hash.

(** [deleteCache], the admin's route to the sweep *)
Definition deleteCache : M unit := cleanupCache.

End DownloadController.

(** ** [ProgressController] *)

Section ProgressController.
Context (E : Env).

Definition Unit_findById (id : string) : M (option Unit) :=
  emit (EvFindUnit id) ;; gets (fun w => Units (db w) !! id).

Definition Course_findById (id : string) : M (option ICourse) :=
  emit (EvFindCourse id) ;; gets (fun w => Courses (db w) !! id).

Definition matchesProgress (user unit : string) (p : Progress) : bool :=
  bool_decide (p_user p = user) && bool_decide (p_unit p = unit).

(** [Progress.findOne({user, unit})]: the position of the first match *)
Fixpoint findIndex {A} (f : A -> bool) (xs : list A) : option nat :=
  match xs with
  | [] => None
  | x :: rest => if f x then Some 0%nat else S <$> findIndex f rest
  end.

Definition Progress_findOne (user unit : string) : M (option nat) :=
  emit (EvFindProgress user unit) ;;
  gets (fun w => findIndex (matchesProgress user unit) (Progresses (db w))).

(** [moment(d).isBefore()]: an unreadable date is before nothing. *)
Definition isBeforeNow (d : string) : M bool :=
  now <- Date_now ;;
  ret (match momentValue E d with
       | Some t => (t <? now)%Z
       | None => false
       end).

Definition checkDeadline : Unit -> M unit := fun unit =>
  match u_deadline unit with
  | Some d =>
      if decide (d = "") then ret tt
      else
        past <- isBeforeNow d ;;
        if past then throw BadRequestError else ret tt
  | None => ret tt
  end.

Definition updateProgress (data : ProgressData) (currentUser : IUser)
    : M Progress :=
  o <- Unit_findById (d_unit data) ;;
  unit <- deref o ;;
  o <- Course_findById (u_course unit) ;;
  course <- deref o ;;
  if negb (userCanViewCourse E course currentUser) then throw ForbiddenError
  else
    checkDeadline unit ;;
    let doc := {| p_user := usr_id currentUser; p_course := u_course unit;
                  p_unit := d_unit data; p_answers := d_answers data |} in
    found <- Progress_findOne (usr_id currentUser) (d_unit data) ;;
    match found with
    | None => setProgresses (fun ps => ps ++ [doc]) ;; ret doc
    | Some i => setProgresses (fun ps => <[i := doc]> ps) ;; ret doc
    end.

(** [getUnitProgress]; the empty object of the answer, given when there is
    no progress yet, is [None]. *)
Definition getUnitProgress (id : string) (currentUser : IUser)
    : M (option Progress) :=
  o <- Unit_findById id ;;
  unit <- deref o ;;
  o <- Course_findById (u_course unit) ;;
  course <- deref o ;;
  if negb (userCanViewCourse E course currentUser) then throw ForbiddenError
  else
    found <- Progress_findOne (usr_id currentUser) id ;;
    match found with
    | Some i => gets (fun w => Progresses (db w) !! i)
    | None => ret None
    end.

End ProgressController.

(** ** Notions the statements use *)

Definition noSlash (s : string) : bool :=
  allChars (fun c => negb (Path.isPosixPathSeparator c)) s.

(** A segment that can name a directory entry *)
Definition isPlain (s : string) : bool := isEntryName s && noSlash s.

(** An absolute path in normal form, by its segments *)
Definition absPath (segs : list string) : string := "/" +:+ Path.joinWith segs.

(** [p] names an entry of the directory [dir] itself, not of a directory
    above, beside or below it. *)
Definition directlyInside (dir p : string) : Prop :=
  exists name, isPlain name = true /\ p = child dir name.

(** *** The package of a request, in the words of the specification *)

Definition requestedUnits (pack : IDownload) : list IDownloadUnit :=
  flat_map units (lectures pack).

(** The files of a unit whose index appears in the request's [files] list *)
Definition chosenFiles (sel : list JsValue) (fs : list IFile) : list IFile :=
  map snd (filter (fun p => JsNumber (Z.of_nat (fst p)) ∈ sel) (imap pair fs)).

(** The selected files of one requested unit: those of a unit of type
    ['file'], nothing for any other type. *)
Definition selectedOf (d : Database) (unit : IDownloadUnit) : list IFile :=
  match Units d !! unitId unit with
  | Some u => if decide (u_t u = "file") then chosenFiles (files unit) (u_files u)
              else []
  | None => []
  end.

Definition selectedFiles (d : Database) (pack : IDownload) : list IFile :=
  flat_map (selectedOf d) (requestedUnits pack).

Definition kilobytes (f : IFile) : Q := (inject_Z (f_size f) / (1024 # 1))%Q.

Definition sumQ (xs : list Q) : Q := fold_right Qplus 0%Q xs.

Definition isTooLarge (f : IFile) : bool := Qgt_bool (kilobytes f) config.maxFileSize.

Definition specTotalSize (d : Database) (pack : IDownload) : Q :=
  sumQ (map kilobytes (selectedFiles d pack)).

Definition specTooLargeFiles (d : Database) (pack : IDownload) : list string :=
  map f_link (filter (fun f => isTooLarge f = true) (selectedFiles d pack)).

Definition allUnitsExist (d : Database) (pack : IDownload) : Prop :=
  Forall (fun unit => is_Some (Units d !! unitId unit)) (requestedUnits pack).

(** Adding files to a package size, and equality of package sizes up to the
    equality of rationals *)
Definition addFiles (acc : PackageSize) (fs : list IFile) : PackageSize :=
  {| totalSize := (totalSize acc + sumQ (map kilobytes fs))%Q;
     tooLargeFiles :=
       tooLargeFiles acc ++ map f_link (filter (fun f => isTooLarge f = true) fs) |}.

Definition sizeEq (a b : PackageSize) : Prop :=
  (totalSize a == totalSize b)%Q /\ tooLargeFiles a = tooLargeFiles b.

(** The files with a chosen index, indices counted from [i] *)
Definition chosenFrom (i : nat) (sel : list JsValue) (fs : list IFile) : list IFile :=
  map snd (filter (fun p => JsNumber (Z.of_nat (fst p)) ∈ sel)
                  (imap (fun j => pair (i + j)%nat) fs)).

(** *** What a run may do to the world *)

(** Events that only read the database *)
Definition isLookup (e : Event) : bool :=
  match e with
  | EvFindCourse _ | EvFindLecture _ | EvFindUnit _ | EvFindFile _
  | EvFindProgress _ _ | EvAuthCheck => true
  | _ => false
  end.

(** From [w] to [w'] nothing happened but database lookups. *)
Definition onlyLookups (w w' : World) : Prop :=
  db w' = db w /\ fs w' = fs w /\ clock w' = clock w /\ drawn w' = drawn w
  /\ exists evs, log w' = log w ++ evs /\ forallb isLookup evs = true.

(** *** The guards of the export endpoints, for the statements *)

(** Who may export a course *)
Definition mayExport (course : ICourse) (user : IUser) : bool :=
  bool_decide (usr_role user = "admin")
  || bool_decide (usr_id user = c_courseAdmin course)
  || bool_decide (usr_id user ∈ c_students course)
  || bool_decide (usr_id user ∈ c_teachers course).

(** The package of a request is beyond the limits of the configuration. *)
Definition sizeExceeded (d : Database) (pack : IDownload) : Prop :=
  (config.maxZipSize < specTotalSize d pack)%Q
  \/ exists f, f ∈ selectedFiles d pack /\ (config.maxFileSize < kilobytes f)%Q.

Definition unitExists (d : Database) (unit : IDownloadUnit) : Prop :=
  is_Some (Units d !! unitId unit).

(** The body of the loop of [calcPackage] over the units of a lecture *)
Definition calcUnit (acc : PackageSize) (unit : IDownloadUnit) : M PackageSize :=
  found <- Unit_findOne (unitId unit) ;;
  localUnit <- orFail NotFoundError found ;;
  if decide (u_t localUnit = "file")
  then ret (forEachIndexed (calcFile (files unit)) (u_files localUnit) 0 acc)
  else ret acc.

(** What both export endpoints do before they create a file, with what they
    do afterwards as [k] *)
Definition withGuards {A} (data : IDownload) (user : IUser) (k : ICourse -> M A)
    : M A :=
  if (length (lectures data) =? 0)%nat then throw BadRequestError
  else
    found <- Course_findOne (courseName data) ;;
    course <- orFail NotFoundError found ;;
    userCanExportCourse course user ;;
    size <- calcPackage data ;;
    if Qgt_bool (totalSize size) config.maxZipSize
       || negb (length (tooLargeFiles size) =? 0)%nat
    then throw BadRequestError
    else k course.

(** What [postDownloadRequestPDFIndividual] does once the guards are passed *)
Definition individualBody (E : Env) (data : IDownload) (course : ICourse) : M string :=
  hash <- createFileHash E ;;
  let filePath := cacheFilePath E hash in
  output <- createWriteStream E filePath ;;
  st <- forOf (lectures data) (individualLecture E) (1%nat, []) ;;
  archive_finalize E output filePath (snd st) ;;
  ret hash.

(** What [postDownloadRequestPDFSingle] does once the guards are passed *)
Definition singleBody (E : Env) (data : IDownload) (course : ICourse) : M string :=
  let data := {| courseName := courseName data +:+ "Single";
                 lectures := lectures data |} in
  hash <- createFileHash E ;;
  let filePath := cacheFilePath E hash in
  output <- createWriteStream E filePath ;;
  let options := optionsSingle course in
  st <- forOf (lectures data) (singleLecture E)
          (1%nat, {| html := headSingle E; solutions := solutionsTitle;
                     firstSol := false; archive := [];
                     unitCounter := 1; solCounter := 1 |}) ;;
  let v := snd st in
  let v := addHtml (solutions v) v in
  let v := addHtml ("</div></body>" +:+ "</html>") v in
  let name := replaceCharInFilename (c_name course) +:+ ".pdf" in
  buffer <- createPdf E (html v) options ;;
  let v := addEntry (EntryBuffer buffer name) v in
  archive_finalize E output filePath (archive v) ;;
  ret hash.

(** The errors the work after the guards can end in *)
Definition isWorkError (e : Error) : Prop :=
  e = NotFoundError \/ e = TypeError \/ e = PdfError.

(** The user is none of those who may export the course. *)
Definition notAuthorized (course : ICourse) (user : IUser) : Prop :=
  usr_role user <> "admin" /\ usr_id user <> c_courseAdmin course
  /\ (usr_id user ∉ c_students course) /\ (usr_id user ∉ c_teachers course).

(** From [w] to [w'] the database, the files, the clock and the randomness
    drawn are the same. *)
Definition sameStore (w w' : World) : Prop :=
  db w' = db w /\ fs w' = fs w /\ clock w' = clock w /\ drawn w' = drawn w.

(** *** The file an export leaves *)

(** The file a write stream leaves when it opens at the time [now] *)
Definition emptyFile (now : Z) : Stats :=
  {| isDirectory := false; ctimeMs := now; content := [] |}.

(** The files of [w] once a write stream opened on [p] *)
Definition streamed (w : World) (p : string) : gmap string Stats :=
  <[p := emptyFile (clock w)]> (fs w).

(** The archive at [p] of an export begun in [w]: the file the stream
    created, holding what the archiver made of the entries handed to it,
    the files being those it found. *)
Definition zipped (E : Env) (w : World) (p : string)
    (entries : list ArchiveEntry) : Stats :=
  {| isDirectory := false; ctimeMs := clock w;
     content := archiver E (streamed w p) entries |}.

(** *** Names and headings, in the words of the specification *)

(** [<lectureCounter>_<sanitizedLectureName>/<unitCounter>_<name>] *)
Definition specEntryName (lectureCounter : nat) (sanitizedLectureName : string)
    (unitCounter : nat) (name : string) : string :=
  pretty lectureCounter +:+ "_" +:+ sanitizedLectureName +:+ "/"
  +:+ pretty unitCounter +:+ "_" +:+ name.

(** The title of the one section of the solutions, which begins a page *)
Definition specSolutionsTitle : string :=
  "<div id=" +:+ dq +:+ "nextPage" +:+ dq +:+ "><h2><u>Solutions</u></h2>".

(** The heading of a lecture *)
Definition specHeading (l : Lecture) : string :=
  "<h2>Lecture: " +:+ l_name l +:+ "</h2>".

(** The opening of a block that begins a page, and of one that does not *)
Definition specPageBlock : string :=
  "<div id=" +:+ dq +:+ "nextPage" +:+ dq +:+ " >".
Definition specBlock : string := "<div>".

Fixpoint allSome {A} (xs : list (option A)) : option (list A) :=
  match xs with
  | [] => Some []
  | Some x :: rest =>
      match allSome rest with
      | Some r => Some (x :: r)
      | None => None
      end
  | None :: _ => None
  end.

(** *** The archive of [postDownloadRequestPDFIndividual], entry by entry *)

Section IndividualLayout.
Context (E : Env).

(** An attachment goes in as it is, under
    [<lecture counter>_<lecture name>/<unit counter>_<file name>]. *)
Definition fileEntry (d : Database) (i : nat) (lcName : string) (j : nat)
    (fileId : JsValue) : option ArchiveEntry :=
  match Files d fileId with
  | Some f => Some (EntryFile ("uploads/" +:+ f_link f)
                              (specEntryName i lcName j (f_name f)))
  | None => None
  end.

(** A unit of type ['file'] gives its selected attachments; any other unit
    gives one PDF under
    [<lecture counter>_<lecture name>/<unit counter>_<unit name>.pdf]. *)
Definition unitEntries (d : Database) (i : nat) (lcName : string) (j : nat)
    (unit : IDownloadUnit) : option (list ArchiveEntry) :=
  match Units d !! unitId unit with
  | Some u =>
      if decide (u_t u = "file")
      then allSome (map (fileEntry d i lcName j) (files unit))
      else
        match htmlToPdf E (headIndividual E +:+ toHtmlForIndividualPDF E u
                           +:+ "</html>") optionsIndividual with
        | Some buffer =>
            Some [EntryBuffer buffer
                    (specEntryName i lcName j
                       (replaceCharInFilename (u_name u) +:+ ".pdf"))]
        | None => None
        end
  | None => None
  end.

(** The units of the lecture with counter [i], counted from [1] *)
Definition lectureEntries (d : Database) (i : nat) (lec : IDownloadLecture)
    : option (list ArchiveEntry) :=
  match Lectures d !! lectureId lec with
  | Some l =>
      @concat ArchiveEntry <$>
        allSome (imap (fun j unit =>
                         unitEntries d i (replaceCharInFilename (l_name l))
                                     (S j) unit)
                      (units lec))
  | None => None
  end.

(** The lectures of the request, counted from [1] *)
Definition archiveEntries (d : Database) (data : IDownload)
    : option (list ArchiveEntry) :=
  @concat ArchiveEntry <$> allSome (imap (fun i lec => lectureEntries d (S i) lec)
                           (lectures data)).

(** The loop of [individualUnit] over the selected files *)
Definition individualFile (lecCounter : nat) (lcName : string)
    (unitCounter : nat) (archive : list ArchiveEntry) (fileId : JsValue)
    : M (list ArchiveEntry) :=
  o <- File_findById fileId ;;
  file <- deref o ;;
  ret (archive ++ [EntryFile ("uploads/" +:+ f_link file)
         (entryName lecCounter lcName unitCounter (f_name file))]).

End IndividualLayout.

(** *** The one PDF of [postDownloadRequestPDFSingle], piece by piece *)

Definition concatStr (xs : list string) : string := foldr String.append "" xs.

Definition isFileEntry (e : ArchiveEntry) : Prop :=
  match e with
  | EntryFile _ _ => True
  | EntryBuffer _ _ => False
  end.

Section SingleLayout.
Context (E : Env).

(** The request with its lectures and units looked up *)
Definition resolveUnits (d : Database) (us : list IDownloadUnit)
    : option (list Unit) :=
  allSome (map (fun unit => Units d !! unitId unit) us).

Definition resolveLecture (d : Database) (lec : IDownloadLecture)
    : option (Lecture * list Unit) :=
  match Lectures d !! lectureId lec with
  | Some l =>
      match resolveUnits d (units lec) with
      | Some us => Some (l, us)
      | None => None
      end
  | None => None
  end.

Definition resolveRequest (d : Database) (data : IDownload)
    : option (list (Lecture * list Unit)) :=
  allSome (map (resolveLecture d) (lectures data)).

Definition countKata (us : list Unit) : nat :=
  length (filter (fun u => isKataOrTask u = true) us).

Definition hasKata (lu : Lecture * list Unit) : bool :=
  existsb isKataOrTask (snd lu).

(** What the unit with counter [j] of the lecture with counter [i] adds to
    the content *)
Definition unitHtml (i j : nat) (u : Unit) : string :=
  if decide (u_t u = "file") then ""
  else if isKataOrTask u && (1 <? i)%nat && (1 <? j)%nat
  then specPageBlock +:+ toHtmlForSinglePDF E u +:+ "</div>"
  else toHtmlForSinglePDF E u.

(** What a unit adds to the solutions: a code-kata or task unit its
    solutions in a block of their own, headed by the lecture when it is the
    lecture's first ([before] such units precede it in the lecture;
    [earlier] tells whether an earlier lecture has solutions); a file unit
    nothing. *)
Definition solutionPiece (l : Lecture) (earlier : bool) (before : nat)
    (u : Unit) : string :=
  if isKataOrTask u then
    (if (before =? 0)%nat
     then (if earlier then specPageBlock else specBlock) +:+ specHeading l
     else specPageBlock)
    +:+ toHtmlForSinglePDFSolutions E u +:+ "</div>"
  else if decide (u_t u = "file") then ""
  else toHtmlForSinglePDFSolutions E u.

Definition lectureContent (i : nat) (lu : Lecture * list Unit) : string :=
  (if (1 <? i)%nat then specPageBlock else specBlock) +:+ specHeading (fst lu)
  +:+ concatStr (imap (fun j u => unitHtml i (S j) u) (snd lu))
  +:+ "</div>".

Definition lectureSolutions (earlier : bool) (lu : Lecture * list Unit) : string :=
  concatStr (imap (fun j u =>
                     solutionPiece (fst lu) earlier
                                   (countKata (take j (snd lu))) u)
                  (snd lu)).

(** The content of all lectures, in request order *)
Definition allContent (ls : list (Lecture * list Unit)) : string :=
  concatStr (imap (fun i lu => lectureContent (S i) lu) ls).

(** The section of the solutions, lecture by lecture in request order *)
Definition solutionsSection (ls : list (Lecture * list Unit)) : string :=
  specSolutionsTitle
  +:+ concatStr (imap (fun i lu =>
                         lectureSolutions (existsb hasKata (take i ls)) lu)
                      ls).

Definition singleHtml (ls : list (Lecture * list Unit)) : string :=
  headSingle E +:+ allContent ls +:+ solutionsSection ls
  +:+ "</div></body></html>".

Definition setArchive (a : list ArchiveEntry) (v : SingleVars) : SingleVars :=
  {| html := html v; solutions := solutions v; firstSol := firstSol v;
     archive := a; unitCounter := unitCounter v; solCounter := solCounter v |}.

(** The loop of [singleUnit] over the selected files *)
Definition singleFile (lecCounter : nat) (lcName : string) (v : SingleVars)
    (fileId : JsValue) : M SingleVars :=
  o <- File_findById fileId ;;
  file <- deref o ;;
  ret (addEntry
         (EntryFile (Path.join (config.uploadFolder E) (f_link file))
            (entryName lecCounter lcName (unitCounter v) (f_name file)))
         v).

(** The variables after the unit [u], whose files gave the entries [es] *)
Definition unitStep (i : nat) (l : Lecture) (u : Unit) (es : list ArchiveEntry)
    (v : SingleVars) : SingleVars :=
  incUnitCounter
    (singleSolutions E l u
       (if decide (u_t u = "file") then setArchive (archive v ++ es) v
        else if isKataOrTask u && (1 <? i)%nat && (1 <? unitCounter v)%nat
        then addHtml (divNextPage +:+ toHtmlForSinglePDF E u +:+ "</div>") v
        else addHtml (toHtmlForSinglePDF E u) v)).

End SingleLayout.

(** *** The sweep of the cache, for the statements *)

(** The body of the loop of [cleanupCache] *)
Definition sweepFile (E : Env) (expire : Z) (_ : unit) (fileName : string) : M unit :=
  if negb (regexTest fileName) then ret tt
  else
    let filePath := Path.join (config.tmpFileCacheFolder E) fileName in
    fileStat <- statSync E filePath ;;
    if (ctimeMs fileStat >=? expire)%Z then ret tt
    else unlinkSync E filePath.

(** The file at [p] with the stats [st] is one the sweep made at [now] is to
    delete: an entry of the cache folder whose name matches the pattern and
    whose change time lies more than an hour back. *)
Definition expired (E : Env) (now : Z) (p : string) (st : Stats) : bool :=
  match entryOf (Path.resolve (cwd E) (config.tmpFileCacheFolder E)) p with
  | Some name => regexTest name && (ctimeMs st <? now - 3600 * 1000)%Z
  | None => false
  end.

(** The pattern [download_(\w+).zip], said without the matcher *)
Definition matchesPattern (s : string) : Prop :=
  exists pre w d post,
    s = pre +:+ "download_" +:+ w +:+ String d ("zip" +:+ post)
    /\ w <> "" /\ allChars isWordChar w = true /\ isLineTerminator d = false.

(** Some name of [ns] that matches the pattern names [p] in [dir]. *)
Definition sweptName (dir : string) (ns : list string) (p : string) : bool :=
  existsb (fun n => bool_decide (p = child dir n) && regexTest n) ns.

(** *** File names inside an archive *)

(** What [replaceCharInFilename] lets through, once spaces are dashes *)
Definition isFilenameChar (c : ascii) : bool := isAlnum c || Ascii.eqb c "-".

(** What [replaceCharInFilename] removes *)
Definition isSpecialChar (c : ascii) : bool :=
  negb (isAlnum c || Ascii.eqb c " " || Ascii.eqb c "-").

(** No dash is followed by a dash. *)
Fixpoint noDoubleDash (s : string) : bool :=
  match s with
  | EmptyString => true
  | String c r => negb (Ascii.eqb c "-" && startsWith "-" r) && noDoubleDash r
  end.

Definition isDigit (c : ascii) : bool := between 48 57 (charCode c).

(** *** Requests and what the loops of the export need of them *)

(** The request names its files by id only, never by position. *)
Definition onlyIds (pack : IDownload) : Prop :=
  Forall (fun unit => Forall (fun x => exists s, x = JsString s) (files unit))
         (requestedUnits pack).

(** Every selected file of [unit] is a [File] document. *)
Definition filesResolve (d : Database) (unit : IDownloadUnit) : Prop :=
  Forall (fun id => is_Some (Files d id)) (files unit).

(** What the loops of [postDownloadRequestPDFIndividual] need of a unit: it
    exists, and its files resolve when it is a file unit, it renders to a
    PDF when it is not. *)
Definition unitReady (E : Env) (d : Database) (unit : IDownloadUnit) : Prop :=
  match Units d !! unitId unit with
  | Some u =>
      if decide (u_t u = "file") then filesResolve d unit
      else is_Some (htmlToPdf E (headIndividual E +:+ toHtmlForIndividualPDF E u
                                 +:+ "</html>") optionsIndividual)
  | None => False
  end.

Definition individualReady (E : Env) (d : Database) (data : IDownload) : Prop :=
  Forall (fun lec => is_Some (Lectures d !! lectureId lec)
                     /\ Forall (unitReady E d) (units lec))
         (lectures data).

(** What the loops of [postDownloadRequestPDFSingle] need of a unit *)
Definition unitAttachable (d : Database) (unit : IDownloadUnit) : Prop :=
  match Units d !! unitId unit with
  | Some u => if decide (u_t u = "file") then filesResolve d unit else True
  | None => False
  end.

Definition attachmentsReady (d : Database) (data : IDownload) : Prop :=
  Forall (fun lec => is_Some (Lectures d !! lectureId lec)
                     /\ Forall (unitAttachable d) (units lec))
         (lectures data).

(** The errors the loops of the export end in once the units are known to
    exist: a property of [null] was read, or the renderer failed. *)
Definition isLoopError (e : Error) : Prop := e = TypeError \/ e = PdfError.

(** *** The attachments of [postDownloadRequestPDFSingle], entry by entry *)

Section SingleAttachments.
Context (E : Env).

(** An attachment is taken from the upload folder and named as in the
    archive of the other endpoint. *)
Definition singleFileEntry (d : Database) (i : nat) (lcName : string) (j : nat)
    (fileId : JsValue) : option ArchiveEntry :=
  match Files d fileId with
  | Some f => Some (EntryFile (Path.join (config.uploadFolder E) (f_link f))
                              (specEntryName i lcName j (f_name f)))
  | None => None
  end.

(** A unit of type ['file'] gives its selected attachments, any other unit
    none. *)
Definition singleUnitFiles (d : Database) (i : nat) (lcName : string) (j : nat)
    (unit : IDownloadUnit) : option (list ArchiveEntry) :=
  match Units d !! unitId unit with
  | Some u =>
      if decide (u_t u = "file")
      then allSome (map (singleFileEntry d i lcName j) (files unit))
      else Some []
  | None => None
  end.

Definition singleLectureFiles (d : Database) (i : nat) (lec : IDownloadLecture)
    : option (list ArchiveEntry) :=
  match Lectures d !! lectureId lec with
  | Some l =>
      @concat ArchiveEntry <$>
        allSome (imap (fun j unit =>
                         singleUnitFiles d i (replaceCharInFilename (l_name l))
                                         (S j) unit)
                      (units lec))
  | None => None
  end.

Definition singleAttachments (d : Database) (data : IDownload)
    : option (list ArchiveEntry) :=
  @concat ArchiveEntry <$>
    allSome (imap (fun i lec => singleLectureFiles d (S i) lec) (lectures data)).

End SingleAttachments.

(** *** Time and progress, for the statements *)

(** The world when the clock reads [t] *)
Definition atTime (t : Z) (w : World) : World :=
  {| db := db w; fs := fs w; clock := t; drawn := drawn w; log := log w |}.

(** The deadline of [unit] is set, readable and before [now]. *)
Definition deadlinePassed (E : Env) (unit : Unit) (now : Z) : bool :=
  match u_deadline unit with
  | Some d =>
      negb (bool_decide (d = ""))
      && match momentValue E d with
         | Some t => (t <? now)%Z
         | None => false
         end
  | None => false
  end.

(** The document [updateProgress] stores *)
Definition progressDoc (data : ProgressData) (currentUser : IUser) (unit : Unit)
    : Progress :=
  {| p_user := usr_id currentUser; p_course := u_course unit;
     p_unit := d_unit data; p_answers := d_answers data |}.

(** What [Progress.findOne({user, unit})] finds in [ps] *)
Definition progressOf (user unit : string) (ps : list Progress) : option Progress :=
  match findIndex (matchesProgress user unit) ps with
  | Some i => ps !! i
  | None => None
  end.

(** The records once [doc] is stored: in the place of the first record of
    its user and unit, at the end when there is none. *)
Definition stored (doc : Progress) (ps : list Progress) : list Progress :=
  match findIndex (matchesProgress (p_user doc) (p_unit doc)) ps with
  | Some i => <[i := doc]> ps
  | None => ps ++ [doc]
  end.

(** No two records of [ps] belong to the same user and unit. *)
Definition uniqueProgress (ps : list Progress) : Prop :=
  forall i j p q,
    ps !! i = Some p -> ps !! j = Some q ->
    p_user p = p_user q -> p_unit p = p_unit q -> i = j.

(** *** A small installation, for examples *)

Module Demo.

Definition env : Env :=
  {| cwd := "/srv/geli/api";
     appRoot := "/srv/geli/api";
     UPLOADFOLDER := None;
     markdownCss := "";
     entropy := fun n => if Nat.even n then Byte.x2a else Byte.xc7;
     toHtmlForIndividualPDF := fun u => "<body>" +:+ u_name u +:+ "</body>";
     toHtmlForSinglePDF := fun u => "<p>" +:+ u_name u +:+ "</p>";
     toHtmlForSinglePDFSolutions :=
       fun u => if isKataOrTask u then "<p>solved " +:+ u_name u +:+ "</p>"
                else "";
     htmlToPdf := fun html _ => Some ("%PDF " +:+ html);
     archiver :=
       fun files entries =>
         List.filter
           (fun e => match e with
                     | EntryFile source _ =>
                         bool_decide
                           (is_Some (files !! Path.resolve "/srv/geli/api" source))
                     | EntryBuffer _ _ => true
                     end)
           entries;
     userCanViewCourse := fun c u => bool_decide (usr_id u ∈ c_students c);
     momentValue :=
       fun d => if decide (d = "2019-01-01T00:00:00Z") then Some 1546300800000%Z
                else None |}.

Definition slides : IFile :=
  {| f_name := "slides.pdf"; f_link := "a1b2.pdf"; f_size := 2048 |}.
Definition video : IFile :=
  {| f_name := "video.mp4"; f_link := "c3d4.mp4"; f_size := 62914560 |}.

Definition course : ICourse :=
  {| c_name := "Intro to Proofs"; c_courseAdmin := "u-admin";
     c_students := ["u-stud"]; c_teachers := ["u-teach"] |}.

Definition fileUnit : Unit :=
  {| u_t := "file"; u_name := "Material"; u_files := [slides; video];
     u_course := "course1"; u_deadline := None |}.
Definition textUnit : Unit :=
  {| u_t := "free-text"; u_name := "Read me first"; u_files := [];
     u_course := "course1"; u_deadline := None |}.
Definition kataUnit : Unit :=
  {| u_t := "code-kata"; u_name := "Fizz Buzz"; u_files := [];
     u_course := "course1"; u_deadline := Some "2019-01-01T00:00:00Z" |}.
Definition taskUnit : Unit :=
  {| u_t := "task"; u_name := "Quiz"; u_files := [];
     u_course := "course1"; u_deadline := None |}.

Definition database : Database :=
  {| Courses := {[ "course1" := course ]};
     Lectures := {[ "lec1" := {| l_name := "Lecture One" |};
                    "lec2" := {| l_name := "Proofs & more" |} ]};
     Units := {[ "unit-file" := fileUnit; "unit-text" := textUnit;
                 "unit-kata" := kataUnit; "unit-task" := taskUnit ]};
     Files := fun id => if decide (id = JsString "f1") then Some slides
                        else if decide (id = JsString "f2") then Some video
                        else None;
     Progresses := [] |}.

Definition folder : Stats :=
  {| isDirectory := true; ctimeMs := 0; content := [] |}.

Definition file (ctime : Z) : Stats :=
  {| isDirectory := false; ctimeMs := ctime; content := [] |}.

(** The clock stands at 2019-06-01; in the cache folder one archive is two
    hours old, one a minute, and one old file is no archive; the slides are
    in the upload folder, the video is not. *)
Definition world : World :=
  {| db := database;
     fs := {[ "/srv/geli/api/tmp" := folder;
              "/srv/geli/api/tmp/download_0a1b.zip" :=
                file (1559347200000 - 7200000);
              "/srv/geli/api/tmp/download_ffee.zip" :=
                file (1559347200000 - 60000);
              "/srv/geli/api/tmp/notes.txt" := file 0;
              "/srv/geli/api/uploads" := folder;
              "/srv/geli/api/uploads/a1b2.pdf" := file 0 ]};
     clock := 1559347200000;
     drawn := 0;
     log := [] |}.

Definition student : IUser := {| usr_id := "u-stud"; usr_role := "student" |}.
Definition stranger : IUser := {| usr_id := "u-else"; usr_role := "student" |}.

(** Two lectures: a text and the slides, then a kata and a task. *)
Definition request : IDownload :=
  {| courseName := "course1";
     lectures :=
       [ {| lectureId := "lec1";
            units := [ {| unitId := "unit-text"; files := [] |};
                       {| unitId := "unit-file"; files := [JsString "f1"] |} ] |};
         {| lectureId := "lec2";
            units := [ {| unitId := "unit-kata"; files := [] |};
                       {| unitId := "unit-task"; files := [] |} ] |} ] |}.

(** The second file of the file unit, by its index: 60 MB *)
Definition bigRequest : IDownload :=
  {| courseName := "course1";
     lectures :=
       [ {| lectureId := "lec1";
            units := [ {| unitId := "unit-file"; files := [JsNumber 1] |} ] |} ] |}.

Definition emptyRequest : IDownload :=
  {| courseName := "course1"; lectures := [] |}.

Definition response : Response :=
  {| r_headers := []; r_file := ""; r_body := [] |}.

Definition hash : string := "2ac72ac72ac72ac72ac72ac72ac72ac7".

Definition progressData : ProgressData :=
  {| d_unit := "unit-kata"; d_answers := "{}" |}.

(** The request for a course that is not there, for a unit that is not
    there, and for a lecture that is not there *)
Definition lostRequest : IDownload :=
  {| courseName := "course9"; lectures := lectures request |}.

Definition staleRequest : IDownload :=
  {| courseName := "course1";
     lectures :=
       [ {| lectureId := "lec1";
            units := [ {| unitId := "unit-gone"; files := [] |} ] |} ] |}.

Definition orphanRequest : IDownload :=
  {| courseName := "course1";
     lectures :=
       [ {| lectureId := "lec9";
            units := [ {| unitId := "unit-text"; files := [] |} ] |} ] |}.

(** Answers to the quiz, which has no deadline *)
Definition quizProgress : ProgressData :=
  {| d_unit := "unit-task"; d_answers := "{q1: true}" |}.

(** A note on the text, which has no deadline either *)
Definition textProgress : ProgressData :=
  {| d_unit := "unit-text"; d_answers := "{read: true}" |}.

(** A cache folder in which, beside an expired archive, a folder is named
    like an archive and as old; the folder comes first, by its name and in
    the listing *)
Definition blockedWorld : World :=
  {| db := database;
     fs := {[ "/srv/geli/api/tmp" := folder;
              "/srv/geli/api/tmp/download_0a1a.zip" :=
                {| isDirectory := true; ctimeMs := 1559347200000 - 7200000;
                   content := [] |};
              "/srv/geli/api/tmp/download_0a1b.zip" :=
                file (1559347200000 - 7200000) ]};
     clock := 1559347200000;
     drawn := 0;
     log := [] |}.

(** An installation whose cache folder was never made *)
Definition bareWorld : World :=
  {| db := database;
     fs := {[ "/srv/geli/api/uploads" := folder;
              "/srv/geli/api/uploads/a1b2.pdf" := file 0 ]};
     clock := 1559347200000;
     drawn := 0;
     log := [] |}.

(** A unit left over from a course that is gone, its deadline past *)
Definition strayUnit : Unit :=
  {| u_t := "task"; u_name := "Left over"; u_files := [];
     u_course := "course9"; u_deadline := Some "2019-01-01T00:00:00Z" |}.

Definition strayWorld : World :=
  {| db := {| Courses := Courses database; Lectures := Lectures database;
              Units := <["unit-stray" := strayUnit]> (Units database);
              Files := Files database; Progresses := [] |};
     fs := fs world;
     clock := 1559347200000;
     drawn := 0;
     log := [] |}.

Definition strayProgress : ProgressData :=
  {| d_unit := "unit-stray"; d_answers := "{}" |}.

End Demo.

(** *** Auxiliary notions of the proofs *)

Definition noSlashL (l : list ascii) : Prop :=
  Forall (fun c => Path.isPosixPathSeparator c = false) l.

(** The segments [normalize] keeps of [dir/x] when [dir] is in normal form *)
Definition joinStack (segs : list string) (x : string) : list string :=
  foldl (Path.normalizeStep false) (rev segs) (Path.split x).

(** [path.resolve(config.tmpFileCacheFolder)] *)
Definition tmpDir (E : Env) : string :=
  Path.resolve (cwd E) (config.tmpFileCacheFolder E).

(** The hash a run beginning in [w] draws *)
Definition hashOf (E : Env) (w : World) : string :=
  toHex (map (entropy E) (seq (drawn w) 16)).

(** The world in which the loops of an export begin: the hash is drawn and
    the write stream made. *)
Definition loopStart (E : Env) (w : World) : World :=
  let p := cacheFilePath E (hashOf E w) in
  {| db := db w;
     fs := if opens (fs w) (realpath E p) then streamed w (realpath E p)
           else fs w;
     clock := clock w; drawn := drawn w + 16;
     log := (log w ++ [EvRandomBytes 16]) ++ [EvCreateWriteStream p] |}.

(** How an export begun in [w] ends once its loops are through, in [w4],
    with the entries [arch] at hand *)
Definition finish (E : Env) (w w4 : World) (arch : list ArchiveEntry)
    : Result string * World :=
  let p := realpath E (cacheFilePath E (hashOf E w)) in
  if opens (fs w) p
  then (Ok (hashOf E w),
        {| db := db w4;
           fs := alter (fun s => {| isDirectory := isDirectory s;
                                    ctimeMs := ctimeMs s;
                                    content := archiver E (fs w4) arch |})
                       p (fs w4);
           clock := clock w4; drawn := drawn w4;
           log := log w4 ++ [EvArchiveFinalize] |})
  else (Pending,
        {| db := db w4; fs := fs w4; clock := clock w4; drawn := drawn w4;
           log := log w4 ++ [EvArchiveFinalize] |}).

(** A computation that can throw only errors in [P] *)
Definition throwsOnly {A} (P : Error -> Prop) (m : M A) : Prop :=
  forall w e, fst (m w) = Throw e -> P e.


(** * Properties *)

(** ** Strings and paths *)

Module PathFacts.
Import Path.

#[local] Arguments isPosixPathSeparator : simpl never.
#[local] Arguments String.append !_ _ / : simpl nomatch.

Lemma app_assoc_str (a b c : string) : (a +:+ b) +:+ c = a +:+ (b +:+ c).
Proof. induction a as [|x a IH]; simpl; [reflexivity | now f_equal]. Qed.

Lemma app_empty_r (a : string) : a +:+ "" = a.
Proof. induction a as [|x a IH]; simpl; [reflexivity | now f_equal]. Qed.

Lemma app_eq_empty (a b : string) : a +:+ b = "" -> a = "" /\ b = "".
Proof. destruct a; simpl; [auto | discriminate]. Qed.

Lemma list_ascii_app (a b : string) :
  list_ascii_of_string (a +:+ b)
  = list_ascii_of_string a ++ list_ascii_of_string b.
Proof. induction a as [|x a IH]; simpl; [reflexivity | now f_equal]. Qed.

Lemma split_nonempty (s : string) : split s <> [].
Proof.
  destruct s as [|c r]; simpl; [discriminate |].
  destruct (isPosixPathSeparator c); [discriminate |].
  destruct (split r); discriminate.
Qed.

Lemma split_app_sep (a b : string) :
  split (a +:+ String "/" b) = split a ++ split b.
Proof.
  induction a as [|c r IH]; simpl; [reflexivity |].
  destruct (isPosixPathSeparator c).
  - now rewrite IH.
  - rewrite IH. pose proof (split_nonempty r) as Hne.
    destruct (split r) as [|h t]; [congruence | reflexivity].
Qed.

Lemma noSlash_cons (c : ascii) (r : string) :
  noSlash (String c r) = negb (isPosixPathSeparator c) && noSlash r.
Proof. reflexivity. Qed.

Lemma split_noSlash (s : string) : noSlash s = true -> split s = [s].
Proof.
  induction s as [|c r IH]; simpl; [reflexivity |].
  rewrite noSlash_cons. intros H. apply andb_prop in H as [Hc Hr].
  apply negb_true_iff in Hc. rewrite Hc, (IH Hr). reflexivity.
Qed.

Lemma split_segments (s : string) :
  Forall (fun x => noSlash x = true) (split s).
Proof.
  induction s as [|c r IH]; simpl.
  - constructor; [reflexivity | constructor].
  - destruct (isPosixPathSeparator c) eqn:Hc.
    + constructor; [reflexivity | exact IH].
    + destruct (split r) as [|h t].
      * constructor; [now rewrite noSlash_cons, Hc | constructor].
      * inversion IH; subst.
        constructor; [rewrite noSlash_cons, Hc; simpl; assumption | assumption].
Qed.

(** Appending slash-free text only lengthens the last segment. *)
Lemma split_app_noSlash (a b : string) :
  noSlash b = true ->
  exists init lst, split a = init ++ [lst] /\ split (a +:+ b) = init ++ [lst +:+ b].
Proof.
  intros Hb. induction a as [|c r IH]; simpl.
  - exists [], "". simpl. split; [reflexivity | now apply split_noSlash].
  - destruct IH as (init & lst & H1 & H2).
    destruct (isPosixPathSeparator c).
    + exists ("" :: init), lst. rewrite H1, H2. split; reflexivity.
    + rewrite H1, H2. destruct init as [|h t]; simpl.
      * exists [], (String c lst). split; reflexivity.
      * exists (String c h :: t), lst. split; reflexivity.
Qed.

Lemma split_prefix_noSlash (a b : string) :
  noSlash a = true ->
  exists hd tl, split b = hd :: tl /\ split (a +:+ b) = (a +:+ hd) :: tl.
Proof.
  intros Ha. induction a as [|c r IH]; simpl.
  - pose proof (split_nonempty b). destruct (split b) as [|h t]; [congruence |].
    exists h, t. split; reflexivity.
  - rewrite noSlash_cons in Ha. apply andb_prop in Ha as [Hc Hr].
    apply negb_true_iff in Hc. rewrite Hc.
    destruct (IH Hr) as (hd & tl & H1 & H2). rewrite H2.
    exists hd, tl. split; [assumption | reflexivity].
Qed.

Lemma joinWith_cons (s : string) (segs : list string) :
  segs <> [] -> joinWith (s :: segs) = s +:+ "/" +:+ joinWith segs.
Proof. destruct segs; [congruence | reflexivity]. Qed.

Lemma joinWith_snoc (segs : list string) (s : string) :
  segs <> [] -> joinWith (segs ++ [s]) = joinWith segs +:+ "/" +:+ s.
Proof.
  induction segs as [|x segs IH]; [congruence |]. intros _.
  destruct segs as [|y segs].
  - reflexivity.
  - change ((x :: y :: segs) ++ [s]) with (x :: ((y :: segs) ++ [s])).
    rewrite joinWith_cons by (destruct segs; done).
    rewrite IH by done.
    rewrite (joinWith_cons x) by done.
    now rewrite !app_assoc_str.
Qed.

Lemma isPlain_nonempty (s : string) : isPlain s = true -> s <> "".
Proof. intros H ->. discriminate H. Qed.

Lemma isPlain_noSlash (s : string) : isPlain s = true -> noSlash s = true.
Proof. unfold isPlain. intros H. now apply andb_prop in H as [_ H]. Qed.

Lemma isPlain_step (allow : bool) (res : list string) (s : string) :
  isPlain s = true -> normalizeStep allow res s = s :: res.
Proof.
  unfold isPlain, isEntryName, normalizeStep. intros H.
  repeat (apply andb_prop in H as [H ?]).
  repeat match goal with
         | X : bool_decide _ = true |- _ => apply bool_decide_eq_true in X
         end.
  repeat case_decide; try reflexivity; contradiction.
Qed.

Lemma joinWith_nonempty (segs : list string) :
  segs <> [] -> Forall (fun s => isPlain s = true) segs -> joinWith segs <> "".
Proof.
  intros Hne Hall. destruct segs as [|s segs]; [congruence |].
  inversion Hall as [|? ? Hs _]; subst. apply isPlain_nonempty in Hs.
  destruct segs; simpl.
  - assumption.
  - intros H. apply app_eq_empty in H as [? _]. contradiction.
Qed.

Lemma split_joinWith (segs : list string) :
  segs <> [] -> Forall (fun s => noSlash s = true) segs ->
  split (joinWith segs) = segs.
Proof.
  induction segs as [|s segs IH]; [congruence |]. intros _ Hall.
  inversion Hall as [|? ? Hs Hrest]; subst.
  destruct segs as [|t segs].
  - now apply split_noSlash.
  - rewrite joinWith_cons by done. simpl.
    rewrite split_app_sep, split_noSlash by assumption.
    simpl. f_equal. now apply IH.
Qed.

Lemma foldl_plain (allow : bool) (segs acc : list string) :
  Forall (fun s => isPlain s = true) segs ->
  foldl (normalizeStep allow) acc segs = rev segs ++ acc.
Proof.
  revert acc. induction segs as [|s segs IH]; intros acc Hall; [reflexivity |].
  inversion Hall; subst. simpl. rewrite isPlain_step by assumption.
  rewrite IH by assumption. now rewrite <- app_assoc.
Qed.

Lemma step_false_plain (res : list string) (s : string) :
  Forall (fun s => isPlain s = true) res -> noSlash s = true ->
  Forall (fun s => isPlain s = true) (normalizeStep false res s).
Proof.
  intros Hres Hs. unfold normalizeStep.
  repeat case_decide; try assumption.
  - destruct res as [|top rest]; [constructor |].
    inversion Hres; subst. case_decide; assumption.
  - constructor; [| assumption].
    unfold isPlain, isEntryName. rewrite Hs.
    now rewrite !bool_decide_eq_true_2.
Qed.

Lemma foldl_false_plain (segs res : list string) :
  Forall (fun s => isPlain s = true) res ->
  Forall (fun s => noSlash s = true) segs ->
  Forall (fun s => isPlain s = true) (foldl (normalizeStep false) res segs).
Proof.
  revert res. induction segs as [|s segs IH]; intros res Hres Hall; [assumption |].
  inversion Hall; subst. simpl. apply IH; [| assumption].
  now apply step_false_plain.
Qed.

(** *** [dirname] *)

Lemma noSlash_chars (s : string) :
  noSlash s = true -> noSlashL (list_ascii_of_string s).
Proof.
  induction s as [|c r IH]; simpl; [constructor |].
  rewrite noSlash_cons. intros H. apply andb_prop in H as [Hc Hr].
  apply negb_true_iff in Hc. constructor; [exact Hc | exact (IH Hr)].
Qed.

Lemma dirnameScan_noSlash (l : list ascii) (b : bool) :
  noSlashL l -> dirnameScan l b = None.
Proof.
  revert b. induction l as [|c l IH]; intros b H; [reflexivity |].
  inversion H as [|? ? Hc Hl]; subst. simpl. rewrite Hc. now apply IH.
Qed.

Lemma dirnameScan_false (l R : list ascii) :
  noSlashL l -> dirnameScan (l ++ "/"%char :: R) false = Some R.
Proof.
  induction l as [|c l IH]; intros H; [reflexivity |].
  inversion H as [|? ? Hc Hl]; subst. simpl. rewrite Hc. now apply IH.
Qed.

Lemma dirnameScan_true (l R : list ascii) :
  l <> [] -> noSlashL l -> dirnameScan (l ++ "/"%char :: R) true = Some R.
Proof.
  destruct l as [|c l]; [congruence |]. intros _ H.
  inversion H as [|? ? Hc Hl]; subst. simpl. rewrite Hc.
  now apply dirnameScan_false.
Qed.

Lemma noSlashL_rev (l : list ascii) : noSlashL l -> noSlashL (rev l).
Proof. apply List.Forall_rev. Qed.

Lemma chars_nonempty (s : string) : s <> "" -> list_ascii_of_string s <> [].
Proof. destruct s; [congruence | discriminate]. Qed.

Lemma dirname_absPath (segs : list string) (n : string) :
  Forall (fun s => isPlain s = true) segs -> isPlain n = true ->
  dirname (absPath (segs ++ [n])) = absPath segs.
Proof.
  intros Hsegs Hn. unfold dirname, absPath. simpl.
  assert (Hnl : noSlashL (rev (list_ascii_of_string n))).
  { apply noSlashL_rev, noSlash_chars, isPlain_noSlash, Hn. }
  destruct segs as [|s segs].
  - simpl. rewrite dirnameScan_noSlash by assumption. reflexivity.
  - rewrite joinWith_snoc by done.
    rewrite list_ascii_app. simpl. rewrite rev_app_distr. simpl.
    rewrite <- app_assoc. simpl.
    rewrite dirnameScan_true; [| | assumption].
    + assert (Hj : joinWith (s :: segs) <> "") by (now apply joinWith_nonempty).
      apply chars_nonempty in Hj.
      rewrite bool_decide_eq_false_2.
      * simpl. rewrite rev_involutive.
        now rewrite string_of_list_ascii_of_string.
      * intros Hr. apply Hj. apply (f_equal (@rev ascii)) in Hr.
        now rewrite rev_involutive in Hr.
    + intros Hr. apply (f_equal (@rev ascii)) in Hr.
      rewrite rev_involutive in Hr. simpl in Hr.
      apply (chars_nonempty n); [now apply isPlain_nonempty | assumption].
Qed.

(** *** [resolve], [normalize] and [join] on absolute paths *)

Lemma isAbsolute_nonempty (p : string) : isAbsolute p = true -> p <> "".
Proof. intros H ->. discriminate H. Qed.

Lemma foldl_step_app (allow : bool) (acc xs ys : list string) :
  foldl (normalizeStep allow) acc (xs ++ ys)
  = foldl (normalizeStep allow) (foldl (normalizeStep allow) acc xs) ys.
Proof. apply foldl_app. Qed.

Lemma resolve_absolute (cwd p : string) :
  isAbsolute p = true ->
  resolve cwd p = absPath (rev (foldl (normalizeStep false) [] (split p))).
Proof.
  intros Habs. unfold resolve. simpl.
  destruct (decide (p = "")) as [->|_]; [discriminate Habs |].
  simpl. rewrite Habs. simpl. unfold normalizeString, absPath.
  rewrite split_app_sep, foldl_step_app. reflexivity.
Qed.

Lemma resolve_shape (cwd p : string) :
  isAbsolute p = true ->
  exists segs, Forall (fun s => isPlain s = true) segs
               /\ resolve cwd p = absPath segs.
Proof.
  intros Habs. eexists. split; [| now apply resolve_absolute].
  apply List.Forall_rev, foldl_false_plain; [constructor |].
  apply split_segments.
Qed.

Lemma split_absPath_fold (segs : list string) (acc : list string) :
  Forall (fun s => isPlain s = true) segs ->
  foldl (normalizeStep false) acc (split (absPath segs)) = rev segs ++ acc.
Proof.
  intros Hall. unfold absPath. simpl.
  destruct segs as [|s segs]; [reflexivity |].
  rewrite split_joinWith; [| done |].
  - change (normalizeStep false acc "") with acc. now apply foldl_plain.
  - eapply Forall_impl; [exact Hall |]. intros x. apply isPlain_noSlash.
Qed.

(** Resolving a path in normal form gives it back. *)
Lemma resolve_absPath (cwd : string) (segs : list string) :
  Forall (fun s => isPlain s = true) segs ->
  resolve cwd (absPath segs) = absPath segs.
Proof.
  intros Hall. rewrite resolve_absolute by reflexivity.
  rewrite split_absPath_fold by assumption.
  now rewrite app_nil_r, rev_involutive.
Qed.

Lemma trailingSeparator_app (a b : string) :
  b <> "" -> trailingSeparator (a +:+ b) = trailingSeparator b.
Proof.
  intros Hb. induction a as [|c a IH]; [reflexivity |].
  simpl. rewrite <- IH. destruct (a +:+ b) eqn:Hab; [| reflexivity].
  apply app_eq_empty in Hab as [_ ?]. contradiction.
Qed.

Lemma joinStack_plain (segs : list string) (x : string) :
  Forall (fun s => isPlain s = true) segs ->
  Forall (fun s => isPlain s = true) (joinStack segs x).
Proof.
  intros Hall. apply foldl_false_plain; [| apply split_segments].
  now apply List.Forall_rev.
Qed.

Lemma join_absPath (segs : list string) (x : string) :
  Forall (fun s => isPlain s = true) segs ->
  x <> "" -> trailingSeparator x = false -> joinStack segs x <> [] ->
  join (absPath segs) x = absPath (rev (joinStack segs x)).
Proof.
  intros Hall Hx Htr Hst. unfold join.
  destruct (decide (absPath segs = "")) as [Heq|_]; [discriminate Heq |].
  destruct (decide (x = "")) as [?|_]; [contradiction |].
  unfold normalize.
  destruct (decide (absPath segs +:+ "/" +:+ x = "")) as [Heq|_];
    [discriminate Heq |].
  assert (Hnorm : normalizeString (absPath segs +:+ "/" +:+ x) false
                  = joinWith (rev (joinStack segs x))).
  { unfold normalizeString. change ("/" +:+ x) with (String "/" x).
    rewrite split_app_sep, foldl_step_app.
    rewrite split_absPath_fold by assumption. now rewrite app_nil_r. }
  change (isAbsolute (absPath segs +:+ "/" +:+ x)) with true. simpl negb.
  cbv zeta. rewrite Hnorm.
  rewrite trailingSeparator_app by done.
  change ("/" +:+ x) with (String "/" x).
  assert (Htr' : trailingSeparator (String "/" x) = false).
  { simpl. destruct x; [contradiction | assumption]. }
  rewrite Htr'.
  destruct (decide (joinWith (rev (joinStack segs x)) = "")) as [Heq|_];
    [| reflexivity].
  exfalso. revert Heq. apply joinWith_nonempty.
  - intros Hr. apply Hst. apply (f_equal (@rev string)) in Hr.
    now rewrite rev_involutive in Hr.
  - now apply List.Forall_rev, joinStack_plain.
Qed.

Lemma child_absPath (segs : list string) (n : string) :
  Forall (fun s => isPlain s = true) segs ->
  child (absPath segs) n = absPath (segs ++ [n]).
Proof.
  intros Hall. unfold child, absPath.
  destruct segs as [|s segs].
  - reflexivity.
  - rewrite joinWith_snoc by done.
    destruct (decide ("/" +:+ joinWith (s :: segs) = "/")) as [Heq|_].
    + exfalso. apply (joinWith_nonempty (s :: segs)); [done | assumption |].
      change ("/" +:+ joinWith (s :: segs))
        with (String "/" (joinWith (s :: segs))) in Heq.
      now injection Heq.
    + now rewrite app_assoc_str.
Qed.

End PathFacts.

(** ** The cache folder and the paths of archives *)

Section CachePaths.
Context (E : Env).
Hypothesis appRoot_absolute : Path.isAbsolute (appRoot E) = true.

Import Path PathFacts.
#[local] Arguments String.append !_ _ / : simpl nomatch.

Lemma tmpFolder_absolute : isAbsolute (config.tmpFileCacheFolder E) = true.
Proof.
  unfold config.tmpFileCacheFolder. destruct (appRoot E); [discriminate |].
  exact appRoot_absolute.
Qed.

Lemma tmpDir_shape :
  exists tsegs, Forall (fun s => isPlain s = true) tsegs /\ (tmpDir E) = absPath tsegs.
Proof. apply resolve_shape, tmpFolder_absolute. Qed.

Lemma noSlash_app (a b : string) :
  noSlash a = true -> noSlash b = true -> noSlash (a +:+ b) = true.
Proof.
  intros Ha Hb. induction a as [|c a IH]; [exact Hb |].
  simpl. rewrite noSlash_cons in *. apply andb_prop in Ha as [Hc Ha].
  now rewrite Hc, IH.
Qed.

Lemma zip_suffix_plain (s : string) :
  noSlash s = true -> isPlain (s +:+ ".zip") = true.
Proof.
  intros Hs. unfold isPlain, isEntryName.
  rewrite noSlash_app by (assumption || reflexivity).
  rewrite !bool_decide_eq_true_2; [reflexivity | | |].
  - destruct s as [|c1 [|c2 [|c3 r]]]; simpl; discriminate.
  - destruct s as [|c1 [|c2 r]]; simpl; discriminate.
  - destruct s; simpl; discriminate.
Qed.

Lemma zipName_split (id : string) :
  exists init lst,
    split ("download_" +:+ id +:+ ".zip") = init ++ [lst] /\ isPlain lst = true.
Proof.
  rewrite <- app_assoc_str.
  destruct (split_app_noSlash ("download_" +:+ id) ".zip" eq_refl)
    as (init & lst & H1 & H2).
  exists init, (lst +:+ ".zip"). split; [exact H2 |].
  apply zip_suffix_plain.
  pose proof (split_segments ("download_" +:+ id)) as Hall.
  rewrite H1 in Hall. apply Forall_app in Hall as [_ Hl].
  now inversion Hl.
Qed.

Lemma zipName_trailing (id : string) :
  trailingSeparator ("download_" +:+ id +:+ ".zip") = false.
Proof. rewrite <- app_assoc_str. now rewrite trailingSeparator_app. Qed.

(** The path of an archive is a normal absolute path whose last segment
    can name a file. *)
Lemma cacheFilePath_form (id : string) :
  exists dsegs lst,
    Forall (fun s => isPlain s = true) dsegs /\ isPlain lst = true
    /\ cacheFilePath E id = absPath (dsegs ++ [lst]).
Proof.
  destruct tmpDir_shape as (tsegs & Hts & Htmp).
  destruct (zipName_split id) as (init & lst & Hsplit & Hlst).
  assert (Hstack : joinStack tsegs ("download_" +:+ id +:+ ".zip")
                   = lst :: foldl (normalizeStep false) (rev tsegs) init).
  { unfold joinStack. rewrite Hsplit, foldl_step_app. simpl.
    now apply isPlain_step. }
  exists (rev (foldl (normalizeStep false) (rev tsegs) init)), lst.
  split; [| split; [exact Hlst |]].
  - apply List.Forall_rev, foldl_false_plain; [now apply List.Forall_rev |].
    pose proof (split_segments ("download_" +:+ id +:+ ".zip")) as Hall.
    rewrite Hsplit in Hall. now apply Forall_app in Hall as [Hall _].
  - unfold cacheFilePath. fold (tmpDir E). rewrite Htmp.
    rewrite join_absPath; [| assumption | discriminate | apply zipName_trailing |].
    + now rewrite Hstack.
    + now rewrite Hstack.
Qed.

(** The check [path.dirname(filePath) !== tmpFileCacheFolder] fails exactly
    for the paths of entries of the cache folder. *)
Lemma pathCheck_iff (id : string) :
  dirname (cacheFilePath E id) = (tmpDir E) <-> directlyInside (tmpDir E) (cacheFilePath E id).
Proof.
  destruct (cacheFilePath_form id) as (dsegs & lst & Hd & Hl & Hform).
  destruct tmpDir_shape as (tsegs & Hts & Htmp).
  rewrite Hform, Htmp. split.
  - rewrite dirname_absPath by assumption. intros Heq.
    exists lst. split; [assumption |]. rewrite <- Heq.
    now rewrite child_absPath.
  - intros (name & Hname & Heq). rewrite Heq.
    rewrite child_absPath by assumption. now apply dirname_absPath.
Qed.

Lemma realpath_cacheFilePath (id : string) :
  realpath E (cacheFilePath E id) = cacheFilePath E id.
Proof.
  destruct (cacheFilePath_form id) as (dsegs & lst & Hd & Hl & Hform).
  rewrite Hform. apply resolve_absPath. apply Forall_app. split; [assumption |].
  now constructor.
Qed.

(** A name without a separator stays in the folder. *)
Lemma cacheFilePath_noSlash (id : string) :
  noSlash id = true ->
  cacheFilePath E id = child (tmpDir E) ("download_" +:+ id +:+ ".zip")
  /\ isPlain ("download_" +:+ id +:+ ".zip") = true.
Proof.
  intros Hid. destruct tmpDir_shape as (tsegs & Hts & Htmp).
  assert (Hplain : isPlain ("download_" +:+ id +:+ ".zip") = true).
  { rewrite <- app_assoc_str. apply zip_suffix_plain.
    now apply noSlash_app. }
  split; [| exact Hplain].
  assert (Hstack : joinStack tsegs ("download_" +:+ id +:+ ".zip")
                   = ("download_" +:+ id +:+ ".zip") :: rev tsegs).
  { unfold joinStack. rewrite split_noSlash by now apply isPlain_noSlash.
    simpl. now apply isPlain_step. }
  unfold cacheFilePath. fold (tmpDir E). rewrite Htmp.
  rewrite join_absPath; [| assumption | discriminate | apply zipName_trailing |].
  - rewrite Hstack. simpl. rewrite rev_involutive.
    now rewrite child_absPath.
  - now rewrite Hstack.
Qed.

End CachePaths.

(** ** Running controller code *)

Ltac run_monad :=
  cbv beta iota zeta delta
    [bind ret throw emit gets setFs setProgresses orFail deref
     Date_now existsSync statSync unlinkSync createWriteStream archive_finalize
     randomBytes Course_findOne Lecture_findOne Unit_findOne File_findById
     createPdf download Unit_findById Course_findById Progress_findOne];
  simpl.

(** ** Serving an archive *)

Section GetArchivedFile.
Context (E : Env).
Hypothesis appRoot_absolute : Path.isAbsolute (appRoot E) = true.

Lemma getArchivedFile_unfold (id : string) (response : Response) :
  getArchivedFile E id response =
  if negb (bool_decide (Path.dirname (cacheFilePath E id) = tmpDir E))
  then throw ForbiddenError
  else
    ex <- existsSync E (cacheFilePath E id) ;;
    if negb ex then throw NotFoundError
    else
      download E (cacheFilePath E id)
        (setHeader "Access-Control-Expose-Headers" "Content-Disposition"
           (setHeader "Connection" "keep-alive" response)).
Proof. reflexivity. Qed.

Lemma getArchivedFile_path_safe_aux (id : string) (response : Response) (w : World) :
  let dir := Path.resolve (cwd E) (config.tmpFileCacheFolder E) in
  let filePath := Path.join dir ("download_" +:+ id +:+ ".zip") in
  (~ directlyInside dir filePath ->
     getArchivedFile E id response w = (Throw ForbiddenError, w))
  /\ (directlyInside dir filePath -> fs w !! filePath = None ->
        fst (getArchivedFile E id response w) = Throw NotFoundError)
  /\ (directlyInside dir filePath -> forall st, fs w !! filePath = Some st ->
        isDirectory st = false ->
        exists r, fst (getArchivedFile E id response w) = Ok r
                  /\ r_file r = filePath /\ r_body r = content st)
  /\ (directlyInside dir filePath -> forall st, fs w !! filePath = Some st ->
        isDirectory st = true ->
        fst (getArchivedFile E id response w) = Throw EISDIR)
  /\ (forall r w', getArchivedFile E id response w = (Ok r, w') ->
        r_file r = filePath /\ directlyInside dir filePath
        /\ exists st, fs w !! filePath = Some st /\ isDirectory st = false
                      /\ r_body r = content st).
Proof.
  intros dir filePath.
  change filePath with (cacheFilePath E id). change dir with (tmpDir E).
  pose proof (pathCheck_iff E appRoot_absolute id) as Hiff.
  pose proof (realpath_cacheFilePath E appRoot_absolute id) as Hreal.
  rewrite getArchivedFile_unfold.
  destruct (bool_decide (Path.dirname (cacheFilePath E id) = tmpDir E)) eqn:Hchk.
  - apply bool_decide_eq_true in Hchk. apply Hiff in Hchk as Hin.
    simpl negb. cbv iota.
    run_monad. rewrite Hreal.
    split; [intros Hno; contradiction |].
    split; [| split; [| split]].
    + intros _ Hnone. rewrite Hnone. reflexivity.
    + intros _ st Hst Hfile. repeat (rewrite Hst; simpl). rewrite Hfile.
      eexists. split; [reflexivity |]. split; reflexivity.
    + intros _ st Hst Hfolder. repeat (rewrite Hst; simpl). now rewrite Hfolder.
    + intros r w'. destruct (fs w !! cacheFilePath E id) as [st|] eqn:Hst.
      * simpl. repeat (rewrite Hst; simpl).
        destruct (isDirectory st) eqn:Hd; [discriminate |].
        intros Heq. injection Heq as <- <-. simpl.
        split; [reflexivity |]. split; [assumption |].
        exists st. split; [reflexivity |]. split; [exact Hd | reflexivity].
      * simpl. discriminate.
  - apply bool_decide_eq_false in Hchk.
    assert (Hout : ~ directlyInside (tmpDir E) (cacheFilePath E id))
      by (intros Hin; apply Hchk, Hiff, Hin).
    simpl negb. cbv iota. unfold throw.
    split; [reflexivity |].
    split; [intros Hin; contradiction |].
    split; [intros Hin; contradiction |].
    split; [intros Hin; contradiction |].
    intros r w'. discriminate.
Qed.

(** C1: [getArchivedFile] serves a file only from directly inside the
    resolved cache folder.  With [filePath] the join of that folder and
    [download_<id>.zip]: when [filePath] is not an entry of the folder the
    call throws [ForbiddenError] and leaves the world as it was, no
    file-system call made; when it is one and nothing exists there the call
    throws [NotFoundError]; when it is one and a file is there the call
    serves it (a folder of that name is the error of the download); and
    whatever is served is the regular file [filePath], an entry of the
    folder, with the content the file has. *)
Theorem getArchivedFile_path_safe (id : string) (response : Response) (w : World) :
  let dir := Path.resolve (cwd E) (config.tmpFileCacheFolder E) in
  let filePath := Path.join dir ("download_" +:+ id +:+ ".zip") in
  (~ directlyInside dir filePath ->
     getArchivedFile E id response w = (Throw ForbiddenError, w))
  /\ (directlyInside dir filePath -> fs w !! filePath = None ->
        fst (getArchivedFile E id response w) = Throw NotFoundError)
  /\ (directlyInside dir filePath -> forall st, fs w !! filePath = Some st ->
        isDirectory st = false ->
        exists r, fst (getArchivedFile E id response w) = Ok r
                  /\ r_file r = filePath /\ r_body r = content st)
  /\ (directlyInside dir filePath -> forall st, fs w !! filePath = Some st ->
        isDirectory st = true ->
        fst (getArchivedFile E id response w) = Throw EISDIR)
  /\ (forall r w', getArchivedFile E id response w = (Ok r, w') ->
        r_file r = filePath /\ directlyInside dir filePath
        /\ exists st, fs w !! filePath = Some st /\ isDirectory st = false
                      /\ r_body r = content st).
Proof. exact (getArchivedFile_path_safe_aux id response w). Qed.

End GetArchivedFile.

(** ** Facts about the monad *)

Section MonadFacts.

Lemma bind_run {A B} (m : M A) (k : A -> M B) (w : World) :
  bind m k w = match m w with
               | (Ok a, w') => k a w'
               | (Throw e, w') => (Throw e, w')
               | (Pending, w') => (Pending, w')
               end.
Proof. reflexivity. Qed.

Lemma onlyLookups_refl (w : World) : onlyLookups w w.
Proof.
  repeat split. exists []. split; [now rewrite app_nil_r | reflexivity].
Qed.

Lemma onlyLookups_trans (w1 w2 w3 : World) :
  onlyLookups w1 w2 -> onlyLookups w2 w3 -> onlyLookups w1 w3.
Proof.
  intros (Hd1 & Hf1 & Hc1 & Hr1 & evs1 & Hl1 & He1)
         (Hd2 & Hf2 & Hc2 & Hr2 & evs2 & Hl2 & He2).
  repeat split; try congruence.
  exists (evs1 ++ evs2). split.
  - rewrite Hl2, Hl1. now rewrite <- app_assoc.
  - rewrite forallb_app. now rewrite He1, He2.
Qed.

Lemma onlyLookups_emit (e : Event) (w : World) :
  isLookup e = true -> onlyLookups w (snd (emit e w)).
Proof.
  intros He. repeat split. exists [e]. split; [reflexivity |].
  simpl. now rewrite He.
Qed.

Lemma throwsOnly_ret {A} (P : Error -> Prop) (a : A) : throwsOnly P (ret a).
Proof. intros w e H. discriminate H. Qed.

Lemma throwsOnly_throw {A} (P : Error -> Prop) (e : Error) :
  P e -> throwsOnly P (@throw A e).
Proof. intros He w e' H. injection H as <-. exact He. Qed.

Lemma throwsOnly_bind {A B} (P : Error -> Prop) (m : M A) (k : A -> M B) :
  throwsOnly P m -> (forall a, throwsOnly P (k a)) -> throwsOnly P (bind m k).
Proof.
  intros Hm Hk w e. rewrite bind_run. specialize (Hm w).
  destruct (m w) as [[a|e'|] w1]; simpl in *.
  - apply Hk.
  - intros H. injection H as <-. now apply Hm.
  - discriminate.
Qed.

Lemma throwsOnly_forOf {A St} (P : Error -> Prop) (xs : list A)
    (body : St -> A -> M St) (s : St) :
  (forall s x, throwsOnly P (body s x)) -> throwsOnly P (forOf xs body s).
Proof.
  intros Hbody. revert s. induction xs as [|x xs IH]; intros s; simpl.
  - apply throwsOnly_ret.
  - apply throwsOnly_bind; [apply Hbody | intros s'; apply IH].
Qed.

Lemma throwsOnly_pending {A} (P : Error -> Prop) : throwsOnly P (@pending A).
Proof. intros w e H. discriminate H. Qed.

Lemma throwsOnly_emit (P : Error -> Prop) (e : Event) : throwsOnly P (emit e).
Proof. intros w e' H. discriminate H. Qed.

Lemma throwsOnly_gets {A} (P : Error -> Prop) (f : World -> A) :
  throwsOnly P (gets f).
Proof. intros w e' H. discriminate H. Qed.

Lemma throwsOnly_setFs (P : Error -> Prop) f : throwsOnly P (setFs f).
Proof. intros w e' H. discriminate H. Qed.

Lemma throwsOnly_orFail {A} (P : Error -> Prop) (e : Error) (o : option A) :
  P e -> throwsOnly P (orFail e o).
Proof.
  intros He. destruct o; [apply throwsOnly_ret | now apply throwsOnly_throw].
Qed.

End MonadFacts.

(** ** [calcPackage] *)

Section CalcPackage.
Context (E : Env).

Lemma indexOf_ge {A} `{EqDecision A} (xs : list A) (x : A) : (-1 <= indexOf xs x)%Z.
Proof.
  induction xs as [|y xs IH]; simpl; [lia |].
  case_decide; [lia |]. destruct (indexOf xs x <? 0)%Z eqn:Hlt; lia.
Qed.

Lemma indexOf_elem {A} `{EqDecision A} (xs : list A) (x : A) :
  (indexOf xs x >? -1)%Z = true <-> x ∈ xs.
Proof.
  induction xs as [|y xs IH]; simpl.
  - split; [discriminate | intros H; inversion H].
  - case_decide as Hy.
    + subst. split; [intros _; constructor | reflexivity].
    + rewrite elem_of_cons. pose proof (indexOf_ge xs x).
      destruct (indexOf xs x <? 0)%Z eqn:Hlt.
      * apply Z.ltb_lt in Hlt. split; [discriminate |].
        intros [Heq | Hin]; [congruence |]. apply IH in Hin. lia.
      * apply Z.ltb_ge in Hlt. split; [| intros _; lia].
        intros _. right. apply IH. lia.
Qed.

Lemma sizeEq_refl (a : PackageSize) : sizeEq a a.
Proof. split; reflexivity. Qed.

Lemma sizeEq_sym (a b : PackageSize) : sizeEq a b -> sizeEq b a.
Proof. intros [H1 H2]. split; [now symmetry | congruence]. Qed.

Lemma sizeEq_trans (a b c : PackageSize) : sizeEq a b -> sizeEq b c -> sizeEq a c.
Proof. intros [H1 H2] [H3 H4]. split; [now rewrite H1 | congruence]. Qed.

Lemma sumQ_app (xs ys : list Q) : (sumQ (xs ++ ys) == sumQ xs + sumQ ys)%Q.
Proof.
  induction xs as [|x xs IH]; simpl.
  - now rewrite Qplus_0_l.
  - rewrite IH. apply Qplus_assoc.
Qed.

Lemma addFiles_nil (acc : PackageSize) : sizeEq (addFiles acc []) acc.
Proof.
  split; simpl; [apply Qplus_0_r | apply app_nil_r].
Qed.

Lemma addFiles_app (acc : PackageSize) (f1 f2 : list IFile) :
  sizeEq (addFiles (addFiles acc f1) f2) (addFiles acc (f1 ++ f2)).
Proof.
  split; simpl.
  - rewrite map_app, sumQ_app. symmetry. apply Qplus_assoc.
  - rewrite filter_app, map_app. now rewrite <- app_assoc.
Qed.

Lemma addFiles_sizeEq (a b : PackageSize) (fs : list IFile) :
  sizeEq a b -> sizeEq (addFiles a fs) (addFiles b fs).
Proof. intros [H1 H2]. split; simpl; [now rewrite H1 | now rewrite H2]. Qed.

Lemma chosenFrom_cons (i : nat) (sel : list JsValue) (f : IFile) (fs : list IFile) :
  chosenFrom i sel (f :: fs)
  = (if decide (JsNumber (Z.of_nat i) ∈ sel) then [f] else [])
    ++ chosenFrom (S i) sel fs.
Proof.
  unfold chosenFrom. rewrite imap_cons. rewrite filter_cons. simpl.
  rewrite Nat.add_0_r.
  assert (Hext : imap ((fun j => pair (i + j)%nat) ∘ S) fs
                 = imap (fun j => pair (S i + j)%nat) fs).
  { apply imap_ext. intros j x _. simpl. f_equal. lia. }
  rewrite Hext. case_decide; reflexivity.
Qed.

(** The loop over a unit's files adds the chosen ones. *)
Lemma forEachIndexed_calcFile (sel : list JsValue) (fs : list IFile) (i : nat)
    (acc : PackageSize) :
  sizeEq (forEachIndexed (calcFile sel) fs i acc)
         (addFiles acc (chosenFrom i sel fs)).
Proof.
  revert i acc. induction fs as [|f fs IH]; intros i acc.
  - simpl. apply sizeEq_sym, addFiles_nil.
  - simpl. eapply sizeEq_trans; [apply IH |].
    rewrite chosenFrom_cons.
    eapply sizeEq_trans; [| apply addFiles_app].
    apply addFiles_sizeEq. unfold calcFile.
    change (inject_Z (f_size f) / (1024 # 1))%Q with (kilobytes f).
    change (Qgt_bool (kilobytes f) config.maxFileSize) with (isTooLarge f).
    destruct (indexOf sel (JsNumber (Z.of_nat i)) >? -1)%Z eqn:Hidx.
    + apply indexOf_elem in Hidx. rewrite decide_True by assumption.
      split; simpl.
      * now rewrite Qplus_0_r.
      * rewrite filter_cons, filter_nil.
        destruct (isTooLarge f) eqn:Hbig.
        -- rewrite decide_True by reflexivity. reflexivity.
        -- rewrite decide_False by discriminate. simpl. now rewrite app_nil_r.
    + rewrite decide_False.
      * apply sizeEq_sym, addFiles_nil.
      * intros Hin. apply indexOf_elem in Hin. congruence.
Qed.

Lemma chosenFrom_0 (sel : list JsValue) (fs : list IFile) :
  chosenFrom 0 sel fs = chosenFiles sel fs.
Proof. reflexivity. Qed.

Lemma calcPackage_unfold (pack : IDownload) :
  calcPackage pack
  = forOf (lectures pack) (fun acc lec => forOf (units lec) calcUnit acc)
          {| totalSize := 0; tooLargeFiles := [] |}.
Proof. reflexivity. Qed.

Lemma calcUnit_run (acc : PackageSize) (unit : IDownloadUnit) (w : World) :
  match calcUnit acc unit w with
  | (Ok acc', w') =>
      unitExists (db w) unit
      /\ sizeEq acc' (addFiles acc (selectedOf (db w) unit))
      /\ onlyLookups w w'
  | (Throw e, w') =>
      e = NotFoundError /\ ~ unitExists (db w) unit /\ onlyLookups w w'
  | (Pending, _) => False
  end.
Proof.
  assert (Hw : onlyLookups w (snd (emit (EvFindUnit (unitId unit)) w)))
    by now apply onlyLookups_emit.
  unfold calcUnit, unitExists, selectedOf. run_monad. simpl in Hw.
  destruct (Units (db w) !! unitId unit) as [u|] eqn:Hu; simpl.
  - destruct (decide (u_t u = "file")); simpl.
    + split; [eauto |]. split; [| exact Hw].
      rewrite <- chosenFrom_0. apply forEachIndexed_calcFile.
    + split; [eauto |]. split; [| exact Hw].
      apply sizeEq_sym, addFiles_nil.
  - split; [reflexivity |]. split; [| exact Hw].
    intros [x Hx]. discriminate Hx.
Qed.

Lemma calcUnits_run (us : list IDownloadUnit) (acc : PackageSize) (w : World) :
  match forOf us calcUnit acc w with
  | (Ok acc', w') =>
      Forall (unitExists (db w)) us
      /\ sizeEq acc' (addFiles acc (flat_map (selectedOf (db w)) us))
      /\ onlyLookups w w'
  | (Throw e, w') =>
      e = NotFoundError /\ ~ Forall (unitExists (db w)) us /\ onlyLookups w w'
  | (Pending, _) => False
  end.
Proof.
  revert acc w. induction us as [|u us IH]; intros acc w.
  - simpl. split; [constructor |]. split; [| apply onlyLookups_refl].
    apply sizeEq_sym, addFiles_nil.
  - simpl forOf. rewrite bind_run. pose proof (calcUnit_run acc u w) as Hu.
    destruct (calcUnit acc u w) as [[acc1|e|] w1].
    + destruct Hu as (Hex & Heq & Hw1).
      specialize (IH acc1 w1).
      assert (Hdb : db w1 = db w) by apply Hw1.
      destruct (forOf us calcUnit acc1 w1) as [[acc2|e|] w2]; rewrite ?Hdb in IH.
      * destruct IH as (Hall & Heq2 & Hw2).
        split; [now constructor |]. split; [| eapply onlyLookups_trans; eauto].
        simpl. eapply sizeEq_trans; [exact Heq2 |].
        eapply sizeEq_trans; [| apply addFiles_app].
        now apply addFiles_sizeEq.
      * destruct IH as (-> & Hnot & Hw2).
        split; [reflexivity |]. split; [| eapply onlyLookups_trans; eauto].
        intros Hall. apply Hnot. now inversion Hall.
      * contradiction.
    + destruct Hu as (-> & Hnot & Hw1).
      split; [reflexivity |]. split; [| exact Hw1].
      intros Hall. apply Hnot. now inversion Hall.
    + contradiction.
Qed.

Lemma calcLectures_run (ls : list IDownloadLecture) (acc : PackageSize) (w : World) :
  match forOf ls (fun acc lec => forOf (units lec) calcUnit acc) acc w with
  | (Ok acc', w') =>
      Forall (unitExists (db w)) (flat_map units ls)
      /\ sizeEq acc' (addFiles acc (flat_map (selectedOf (db w)) (flat_map units ls)))
      /\ onlyLookups w w'
  | (Throw e, w') =>
      e = NotFoundError /\ ~ Forall (unitExists (db w)) (flat_map units ls)
      /\ onlyLookups w w'
  | (Pending, _) => False
  end.
Proof.
  revert acc w. induction ls as [|l ls IH]; intros acc w.
  - simpl. split; [constructor |]. split; [| apply onlyLookups_refl].
    apply sizeEq_sym, addFiles_nil.
  - simpl forOf. rewrite bind_run. pose proof (calcUnits_run (units l) acc w) as Hu.
    destruct (forOf (units l) calcUnit acc w) as [[acc1|e|] w1].
    + destruct Hu as (Hex & Heq & Hw1).
      specialize (IH acc1 w1).
      assert (Hdb : db w1 = db w) by apply Hw1.
      destruct (forOf ls _ acc1 w1) as [[acc2|e|] w2]; rewrite ?Hdb in IH.
      * destruct IH as (Hall & Heq2 & Hw2).
        split; [simpl; now apply Forall_app |].
        split; [| eapply onlyLookups_trans; eauto].
        simpl. rewrite flat_map_app.
        eapply sizeEq_trans; [exact Heq2 |].
        eapply sizeEq_trans; [| apply addFiles_app].
        now apply addFiles_sizeEq.
      * destruct IH as (-> & Hnot & Hw2).
        split; [reflexivity |]. split; [| eapply onlyLookups_trans; eauto].
        simpl. intros Hall. apply Forall_app in Hall. now apply Hnot.
      * contradiction.
    + destruct Hu as (-> & Hnot & Hw1).
      split; [reflexivity |]. split; [| exact Hw1].
      simpl. intros Hall. apply Forall_app in Hall. now apply Hnot.
    + contradiction.
Qed.

(** What [calcPackage] does, in one statement *)
Lemma calcPackage_run (pack : IDownload) (w : World) :
  match calcPackage pack w with
  | (Ok size, w') =>
      allUnitsExist (db w) pack
      /\ (totalSize size == specTotalSize (db w) pack)%Q
      /\ tooLargeFiles size = specTooLargeFiles (db w) pack
      /\ onlyLookups w w'
  | (Throw e, w') =>
      e = NotFoundError /\ ~ allUnitsExist (db w) pack /\ onlyLookups w w'
  | (Pending, _) => False
  end.
Proof.
  rewrite calcPackage_unfold.
  pose proof (calcLectures_run (lectures pack)
                {| totalSize := 0; tooLargeFiles := [] |} w) as H.
  destruct (forOf (lectures pack) _ _ w) as [[size|e|] w'].
  - destruct H as (Hall & [Ht Hl] & Hw). split; [exact Hall |].
    split; [| split; [| exact Hw]].
    + rewrite Ht. simpl. apply Qplus_0_l.
    + rewrite Hl. reflexivity.
  - exact H.
  - exact H.
Qed.

(** C3: [calcPackage] returns as [totalSize] the sum of [size / 1024] over
    the selected files (the files of the requested units of type ['file']
    whose index appears in the request's [files] list) and as
    [tooLargeFiles] the links of exactly those selected files whose
    [size / 1024] exceeds [config.maxFileSize]; a unit of another type
    selects no file; and it throws [NotFoundError] when a requested unit
    does not exist. *)
Theorem calcPackage_spec (pack : IDownload) (w : World) :
  (allUnitsExist (db w) pack ->
     exists size w',
       calcPackage pack w = (Ok size, w')
       /\ (totalSize size == specTotalSize (db w) pack)%Q
       /\ tooLargeFiles size = specTooLargeFiles (db w) pack)
  /\ (~ allUnitsExist (db w) pack ->
        fst (calcPackage pack w) = Throw NotFoundError)
  /\ (forall unit u, Units (db w) !! unitId unit = Some u -> u_t u <> "file" ->
        selectedOf (db w) unit = []).
Proof.
  pose proof (calcPackage_run pack w) as H.
  destruct (calcPackage pack w) as [[size|e|] w'].
  - destruct H as (Hall & Ht & Hl & _).
    split; [| split].
    + intros _. exists size, w'. auto.
    + intros Hnot. contradiction.
    + intros unit u Hu Ht'. unfold selectedOf. rewrite Hu.
      now rewrite decide_False.
  - destruct H as (-> & Hnot & _).
    split; [| split].
    + intros Hall. contradiction.
    + intros _. reflexivity.
    + intros unit u Hu Ht'. unfold selectedOf. rewrite Hu.
      now rewrite decide_False.
  - contradiction.
Qed.

End CalcPackage.

(** ** The guards of the export endpoints *)

Section Guards.
Context (E : Env).

Lemma mayExport_run (course : ICourse) (user : IUser) (w : World) :
  userCanExportCourse course user w
  = (if mayExport course user then Ok true else Throw ForbiddenError,
     snd (emit EvAuthCheck w)).
Proof.
  unfold userCanExportCourse, mayExport. run_monad.
  destruct (decide (usr_role user = "admin")) as [Hr|Hr].
  { rewrite bool_decide_eq_true_2 by assumption. reflexivity. }
  rewrite (bool_decide_eq_false_2 _ Hr).
  destruct (decide (usr_id user = c_courseAdmin course)) as [Ha|Ha].
  { rewrite bool_decide_eq_true_2 by assumption. reflexivity. }
  rewrite (bool_decide_eq_false_2 _ Ha). simpl.
  destruct (bool_decide (usr_id user ∈ c_students course)) eqn:Hs.
  { apply bool_decide_eq_true in Hs. apply indexOf_elem in Hs.
    assert ((indexOf (c_students course) (usr_id user) =? -1)%Z = false) as ->
      by (apply Z.eqb_neq; lia).
    reflexivity. }
  apply bool_decide_eq_false in Hs.
  assert ((indexOf (c_students course) (usr_id user) =? -1)%Z = true) as ->.
  { apply Z.eqb_eq. pose proof (indexOf_ge (c_students course) (usr_id user)).
    destruct (indexOf (c_students course) (usr_id user) >? -1)%Z eqn:Hgt;
      [apply indexOf_elem in Hgt; contradiction | lia]. }
  simpl.
  destruct (bool_decide (usr_id user ∈ c_teachers course)) eqn:Ht.
  { apply bool_decide_eq_true in Ht. apply indexOf_elem in Ht.
    assert ((indexOf (c_teachers course) (usr_id user) =? -1)%Z = false) as ->
      by (apply Z.eqb_neq; lia).
    reflexivity. }
  apply bool_decide_eq_false in Ht.
  assert ((indexOf (c_teachers course) (usr_id user) =? -1)%Z = true) as ->.
  { apply Z.eqb_eq. pose proof (indexOf_ge (c_teachers course) (usr_id user)).
    destruct (indexOf (c_teachers course) (usr_id user) >? -1)%Z eqn:Hgt;
      [apply indexOf_elem in Hgt; contradiction | lia]. }
  reflexivity.
Qed.

Lemma Qgt_bool_spec (a b : Q) : Qgt_bool a b = true <-> (b < a)%Q.
Proof.
  unfold Qgt_bool. rewrite negb_true_iff. split.
  - intros H. apply Qnot_le_lt. intros Hle.
    apply Qle_bool_iff in Hle. congruence.
  - intros H. destruct (Qle_bool a b) eqn:Hle; [| reflexivity].
    apply Qle_bool_iff in Hle. exfalso. now apply (Qlt_not_le b a).
Qed.

Lemma tooLarge_nonempty (d : Database) (pack : IDownload) :
  specTooLargeFiles d pack <> []
  <-> exists f, f ∈ selectedFiles d pack /\ (config.maxFileSize < kilobytes f)%Q.
Proof.
  unfold specTooLargeFiles. split.
  - intros Hne.
    destruct (filter (fun f => isTooLarge f = true) (selectedFiles d pack))
      as [|f fs] eqn:Hf; [contradiction |].
    assert (Hin : f ∈ filter (fun f => isTooLarge f = true) (selectedFiles d pack))
      by (rewrite Hf; constructor).
    apply list_elem_of_filter in Hin as [Hbig Hin].
    exists f. split; [assumption |]. now apply Qgt_bool_spec.
  - intros (f & Hin & Hbig) Hnil.
    assert (Hf : f ∈ filter (fun f => isTooLarge f = true) (selectedFiles d pack)).
    { apply list_elem_of_filter. split; [| assumption]. now apply Qgt_bool_spec. }
    destruct (filter _ _); [inversion Hf | discriminate].
Qed.

(** The size check of the endpoints, on what [calcPackage] returned *)
Lemma sizeCheck_spec (d : Database) (pack : IDownload) (size : PackageSize) :
  (totalSize size == specTotalSize d pack)%Q ->
  tooLargeFiles size = specTooLargeFiles d pack ->
  (Qgt_bool (totalSize size) config.maxZipSize
   || negb (length (tooLargeFiles size) =? 0)%nat = true)
  <-> sizeExceeded d pack.
Proof.
  intros Ht Hl. unfold sizeExceeded. rewrite <- tooLarge_nonempty, <- Hl.
  rewrite orb_true_iff, Qgt_bool_spec, Ht, negb_true_iff, Nat.eqb_neq.
  split; (intros [H|H]; [now left | right]).
  - intros Hnil. apply H. now rewrite Hnil.
  - intros Hlen. apply H. now destruct (tooLargeFiles size).
Qed.

Lemma withGuards_eq {A} (data : IDownload) (user : IUser) (k : ICourse -> M A)
    (w : World) :
  lectures data <> [] ->
  let w0 := snd (emit (EvFindCourse (courseName data)) w) in
  let w1 := snd (emit EvAuthCheck w0) in
  withGuards data user k w =
  match Courses (db w) !! courseName data with
  | None => (Throw NotFoundError, w0)
  | Some course =>
      if mayExport course user then
        match calcPackage data w1 with
        | (Ok size, w2) =>
            if Qgt_bool (totalSize size) config.maxZipSize
               || negb (length (tooLargeFiles size) =? 0)%nat
            then (Throw BadRequestError, w2)
            else k course w2
        | (Throw e, w2) => (Throw e, w2)
        | (Pending, w2) => (Pending, w2)
        end
      else (Throw ForbiddenError, w1)
  end.
Proof.
  intros Hne w0 w1. unfold withGuards.
  destruct (lectures data) as [|l ls]; [contradiction |].
  change (length (l :: ls) =? 0)%nat with false. cbv iota.
  unfold Course_findOne. rewrite !bind_run. simpl.
  destruct (Courses (db w) !! courseName data) as [course|]; simpl;
    [| reflexivity].
  rewrite bind_run. unfold ret at 1. cbv beta iota. rewrite bind_run.
  change {| db := db w; fs := fs w; clock := clock w; drawn := drawn w;
            log := log w ++ [EvFindCourse (courseName data)] |} with w0.
  rewrite mayExport_run. fold w1.
  destruct (mayExport course user); [| reflexivity].
  rewrite bind_run. destruct (calcPackage data w1) as [[size|e|] w2];
    [| reflexivity | reflexivity].
  destruct (Qgt_bool _ _ || _); reflexivity.
Qed.

(** Every way through the guards *)
Lemma withGuards_run {A} (data : IDownload) (user : IUser) (k : ICourse -> M A)
    (w : World) :
  match lectures data with
  | [] => withGuards data user k w = (Throw BadRequestError, w)
  | _ :: _ =>
      match Courses (db w) !! courseName data with
      | None =>
          exists w1, withGuards data user k w = (Throw NotFoundError, w1)
                     /\ onlyLookups w w1
      | Some course =>
          if mayExport course user then
            (~ allUnitsExist (db w) data ->
               exists w1, withGuards data user k w = (Throw NotFoundError, w1)
                          /\ onlyLookups w w1)
            /\ (allUnitsExist (db w) data -> sizeExceeded (db w) data ->
                  exists w1, withGuards data user k w = (Throw BadRequestError, w1)
                             /\ onlyLookups w w1)
            /\ (allUnitsExist (db w) data -> ~ sizeExceeded (db w) data ->
                  exists w1, withGuards data user k w = k course w1
                             /\ onlyLookups w w1)
          else
            exists w1, withGuards data user k w = (Throw ForbiddenError, w1)
                       /\ onlyLookups w w1
      end
  end.
Proof.
  destruct (lectures data) as [|l ls] eqn:Hl.
  { unfold withGuards. now rewrite Hl. }
  rewrite withGuards_eq by (rewrite Hl; discriminate).
  set (w0 := snd (emit (EvFindCourse (courseName data)) w)).
  set (w1 := snd (emit EvAuthCheck w0)).
  assert (Hw0 : onlyLookups w w0) by now apply onlyLookups_emit.
  assert (Hw1 : onlyLookups w w1).
  { eapply onlyLookups_trans; [exact Hw0 |]. now apply onlyLookups_emit. }
  destruct (Courses (db w) !! courseName data) as [course|] eqn:Hc;
    [| exists w0; split; [reflexivity | exact Hw0]].
  destruct (mayExport course user);
    [| exists w1; split; [reflexivity | exact Hw1]].
  pose proof (calcPackage_run data w1) as Hcalc.
  assert (Hdb : db w1 = db w) by reflexivity.
  rewrite Hdb in Hcalc.
  destruct (calcPackage data w1) as [[size|e|] w2].
  - destruct Hcalc as (Hall & Ht & Hlf & Hw2).
    pose proof (sizeCheck_spec (db w) data size Ht Hlf) as Hchk.
    assert (Hw : onlyLookups w w2) by (eapply onlyLookups_trans; eauto).
    split; [intros Hnot; contradiction |].
    split; intros _ Hex.
    + apply Hchk in Hex. rewrite Hex. exists w2. split; [reflexivity | exact Hw].
    + destruct (Qgt_bool _ _ || _) eqn:Hb;
        [exfalso; apply Hex, Hchk; reflexivity |].
      exists w2. split; [reflexivity | exact Hw].
  - destruct Hcalc as (-> & Hnot & Hw2).
    assert (Hw : onlyLookups w w2) by (eapply onlyLookups_trans; eauto).
    split; [intros _; exists w2; split; [reflexivity | exact Hw] |].
    split; intros Hall; contradiction.
  - contradiction.
Qed.

Lemma individual_withGuards (data : IDownload) (user : IUser) :
  postDownloadRequestPDFIndividual E data user
  = withGuards data user (individualBody E data).
Proof. reflexivity. Qed.

Lemma single_withGuards (data : IDownload) (user : IUser) :
  postDownloadRequestPDFSingle E data user
  = withGuards data user (singleBody E data).
Proof. reflexivity. Qed.

Lemma throwsOnly_randomBytes (P : Error -> Prop) (n : nat) :
  throwsOnly P (randomBytes E n).
Proof. intros w e H. discriminate H. Qed.

Ltac throws_step :=
  first
    [ apply throwsOnly_ret
    | apply throwsOnly_pending
    | apply throwsOnly_emit
    | apply throwsOnly_gets
    | apply throwsOnly_setFs
    | apply throwsOnly_randomBytes
    | apply throwsOnly_orFail; unfold isWorkError; auto
    | apply throwsOnly_throw; unfold isWorkError; auto
    | apply throwsOnly_forOf; intros ? ?
    | apply throwsOnly_bind; [| intros ?]
    | match goal with
      | |- throwsOnly _ (if ?c then _ else _) => destruct c
      end ].

Ltac throws_tac :=
  unfold individualBody, singleBody, individualLecture, individualUnit,
    singleLecture, singleUnit, createFileHash, createWriteStream,
    archive_finalize, createPdf, deref, Date_now,
    Lecture_findOne, Unit_findOne, File_findById;
  repeat throws_step.

Lemma individualBody_throws (data : IDownload) (course : ICourse) :
  throwsOnly isWorkError (individualBody E data course).
Proof. throws_tac. Qed.

Lemma singleBody_throws (data : IDownload) (course : ICourse) :
  throwsOnly isWorkError (singleBody E data course).
Proof. throws_tac. Qed.

Lemma mayExport_false (course : ICourse) (user : IUser) :
  mayExport course user = false <-> notAuthorized course user.
Proof.
  unfold mayExport, notAuthorized.
  rewrite !orb_false_iff, !bool_decide_eq_false. tauto.
Qed.

(** C9: a request whose [lectures] list is empty is answered with
    [BadRequestError] by both export endpoints, and the world is left
    exactly as it was: nothing was looked up in the database, no
    authorization check was made, no file was created. *)
Theorem empty_lectures_rejected (data : IDownload) (user : IUser) (w : World) :
  lectures data = [] ->
  postDownloadRequestPDFIndividual E data user w = (Throw BadRequestError, w)
  /\ postDownloadRequestPDFSingle E data user w = (Throw BadRequestError, w).
Proof.
  intros Hl. rewrite individual_withGuards, single_withGuards.
  pose proof (withGuards_run data user (individualBody E data) w) as H1.
  pose proof (withGuards_run data user (singleBody E data) w) as H2.
  rewrite Hl in H1, H2. split; assumption.
Qed.

Lemma oversize_withGuards {A} (data : IDownload) (user : IUser)
    (k : ICourse -> M A) (w : World) :
  sizeExceeded (db w) data ->
  exists e w',
    withGuards data user k w = (Throw e, w') /\ onlyLookups w w'
    /\ (forall course, Courses (db w) !! courseName data = Some course ->
          mayExport course user = true -> allUnitsExist (db w) data ->
          e = BadRequestError).
Proof.
  intros Hex. destruct (lectures data) as [|l ls] eqn:Hl.
  { pose proof (withGuards_run data user k w) as H. rewrite Hl in H.
    exists BadRequestError, w. split; [exact H |].
    split; [apply onlyLookups_refl | reflexivity]. }
  rewrite withGuards_eq by (rewrite Hl; discriminate).
  set (w0 := snd (emit (EvFindCourse (courseName data)) w)).
  set (w1 := snd (emit EvAuthCheck w0)).
  assert (Hw0 : onlyLookups w w0) by now apply onlyLookups_emit.
  assert (Hw1 : onlyLookups w w1).
  { eapply onlyLookups_trans; [exact Hw0 |]. now apply onlyLookups_emit. }
  destruct (Courses (db w) !! courseName data) as [course|].
  - destruct (mayExport course user) eqn:Hmay.
    + pose proof (calcPackage_run data w1) as Hcalc.
      assert (Hdb : db w1 = db w) by reflexivity.
      rewrite Hdb in Hcalc.
      destruct (calcPackage data w1) as [[size|e|] w2].
      * destruct Hcalc as (Hall & Ht & Hlf & Hw2).
        pose proof (sizeCheck_spec (db w) data size Ht Hlf) as Hchk.
        apply Hchk in Hex. rewrite Hex.
        exists BadRequestError, w2. split; [reflexivity |].
        split; [eapply onlyLookups_trans; eauto | reflexivity].
      * destruct Hcalc as (-> & Hnot & Hw2).
        exists NotFoundError, w2. split; [reflexivity |].
        split; [eapply onlyLookups_trans; eauto |].
        intros c _ _ Hall. contradiction.
      * contradiction.
    + exists ForbiddenError, w1. split; [reflexivity |]. split; [exact Hw1 |].
      intros c Hc Hm. injection Hc as <-. congruence.
  - exists NotFoundError, w0. split; [reflexivity |]. split; [exact Hw0 |].
    intros c Hc. discriminate Hc.
Qed.

(** C2, amended: a request whose package is beyond the limits (the sum of
    the selected files exceeds [config.maxZipSize], or a selected file
    exceeds [config.maxFileSize]) makes both export endpoints throw, and
    from the request to the throw nothing happens but database lookups: no
    file is created, no archive or PDF work begun.  What is thrown is
    [BadRequestError] when the course exists, the user may export it and
    every requested unit exists. *)
Theorem oversize_rejected (data : IDownload) (user : IUser) (w : World) :
  sizeExceeded (db w) data ->
  (exists e w',
     postDownloadRequestPDFIndividual E data user w = (Throw e, w')
     /\ onlyLookups w w'
     /\ (forall course, Courses (db w) !! courseName data = Some course ->
           mayExport course user = true -> allUnitsExist (db w) data ->
           e = BadRequestError))
  /\ (exists e w',
        postDownloadRequestPDFSingle E data user w = (Throw e, w')
        /\ onlyLookups w w'
        /\ (forall course, Courses (db w) !! courseName data = Some course ->
              mayExport course user = true -> allUnitsExist (db w) data ->
              e = BadRequestError)).
Proof.
  intros Hex. rewrite individual_withGuards, single_withGuards.
  split; now apply oversize_withGuards.
Qed.

Lemma forbidden_withGuards {A} (data : IDownload) (user : IUser)
    (k : ICourse -> M A) (w : World) (course : ICourse) :
  (forall c, throwsOnly isWorkError (k c)) ->
  lectures data <> [] ->
  Courses (db w) !! courseName data = Some course ->
  (fst (withGuards data user k w) = Throw ForbiddenError
   <-> notAuthorized course user)
  /\ (fst (withGuards data user k w) = Throw ForbiddenError ->
      onlyLookups w (snd (withGuards data user k w))).
Proof.
  intros Hk Hne Hc. rewrite withGuards_eq by assumption.
  set (w0 := snd (emit (EvFindCourse (courseName data)) w)).
  set (w1 := snd (emit EvAuthCheck w0)).
  assert (Hw1 : onlyLookups w w1).
  { eapply onlyLookups_trans; [| now apply onlyLookups_emit].
    now apply onlyLookups_emit. }
  rewrite Hc, <- mayExport_false.
  destruct (mayExport course user) eqn:Hmay.
  - assert (Hno : fst (match calcPackage data w1 with
                       | (Ok size, w2) =>
                           if Qgt_bool (totalSize size) config.maxZipSize
                              || negb (length (tooLargeFiles size) =? 0)%nat
                           then (Throw BadRequestError, w2)
                           else k course w2
                       | (Throw e, w2) => (Throw e, w2)
                       | (Pending, w2) => (Pending, w2)
                       end) <> Throw ForbiddenError).
    { pose proof (calcPackage_run data w1) as Hcalc.
      destruct (calcPackage data w1) as [[size|e|] w2].
      - destruct (Qgt_bool _ _ || _); [discriminate |].
        intros Hf. apply Hk in Hf. destruct Hf as [?|[?|?]]; discriminate.
      - destruct Hcalc as (-> & _). discriminate.
      - discriminate. }
    split; [split; [intros; contradiction | discriminate] |].
    intros; contradiction.
  - simpl. split; [tauto | intros _; exact Hw1].
Qed.

(** C8, amended: for a request whose [lectures] list is not empty and whose
    course exists, each export endpoint throws [ForbiddenError] if and only
    if the user is not an admin, is not the course's [courseAdmin], is not
    among its students and is not among its teachers; and when it throws
    [ForbiddenError] nothing happened but database lookups, so no archive
    file was created. *)
Theorem export_forbidden_iff (data : IDownload) (user : IUser) (w : World)
    (course : ICourse) :
  lectures data <> [] ->
  Courses (db w) !! courseName data = Some course ->
  ((fst (postDownloadRequestPDFIndividual E data user w) = Throw ForbiddenError
    <-> notAuthorized course user)
   /\ (fst (postDownloadRequestPDFIndividual E data user w) = Throw ForbiddenError ->
       onlyLookups w (snd (postDownloadRequestPDFIndividual E data user w))))
  /\ ((fst (postDownloadRequestPDFSingle E data user w) = Throw ForbiddenError
       <-> notAuthorized course user)
      /\ (fst (postDownloadRequestPDFSingle E data user w) = Throw ForbiddenError ->
          onlyLookups w (snd (postDownloadRequestPDFSingle E data user w)))).
Proof.
  intros Hne Hc. rewrite individual_withGuards, single_withGuards.
  split; apply forbidden_withGuards; try assumption.
  - apply individualBody_throws.
  - apply singleBody_throws.
Qed.

End Guards.

(** ** The loops of [postDownloadRequestPDFIndividual] *)

Section IndividualLoops.
Context (E : Env).

Lemma sameStore_refl (w : World) : sameStore w w.
Proof. repeat split. Qed.

Lemma sameStore_trans (w1 w2 w3 : World) :
  sameStore w1 w2 -> sameStore w2 w3 -> sameStore w1 w3.
Proof.
  intros (? & ? & ? & ?) (? & ? & ? & ?). repeat split; congruence.
Qed.

Lemma sameStore_emit (e : Event) (w : World) : sameStore w (snd (emit e w)).
Proof. repeat split. Qed.

Lemma onlyLookups_sameStore (w w' : World) : onlyLookups w w' -> sameStore w w'.
Proof. intros (? & ? & ? & ? & _). repeat split; assumption. Qed.

Lemma imap_offset_cons {A B} (f : nat -> A -> B) (j : nat) (x : A) (xs : list A) :
  imap (fun k => f (j + k)%nat) (x :: xs)
  = f j x :: imap (fun k => f (S j + k)%nat) xs.
Proof.
  rewrite imap_cons. rewrite Nat.add_0_r. f_equal.
  apply imap_ext. intros k y _. simpl. f_equal. lia.
Qed.

Lemma allSome_cons {A} (o : option A) (l : list (option A)) :
  allSome (o :: l)
  = match o with
    | Some x => match allSome l with Some r => Some (x :: r) | None => None end
    | None => None
    end.
Proof. reflexivity. Qed.

Lemma individualFile_run (i : nat) (lcName : string) (j : nat)
    (arch : list ArchiveEntry) (fileId : JsValue) (w : World) :
  match individualFile i lcName j arch fileId w with
  | (Ok arch', w') =>
      sameStore w w'
      /\ exists e, fileEntry (db w) i lcName j fileId = Some e /\ arch' = arch ++ [e]
  | (Throw _, w') => sameStore w w'
  | (Pending, _) => False
  end.
Proof.
  unfold individualFile, fileEntry. run_monad.
  destruct (Files (db w) fileId) as [f|]; simpl.
  - split; [repeat split |]. eexists. split; reflexivity.
  - repeat split.
Qed.

Lemma individualFiles_run (i : nat) (lcName : string) (j : nat)
    (sel : list JsValue) (arch : list ArchiveEntry) (w : World) :
  match forOf sel (individualFile i lcName j) arch w with
  | (Ok arch', w') =>
      sameStore w w'
      /\ exists es, allSome (map (fileEntry (db w) i lcName j) sel) = Some es
                    /\ arch' = arch ++ es
  | (Throw _, w') => sameStore w w'
  | (Pending, _) => False
  end.
Proof.
  revert arch w. induction sel as [|x sel IH]; intros arch w.
  - simpl. split; [apply sameStore_refl |]. exists []. split; [reflexivity |].
    now rewrite app_nil_r.
  - simpl forOf. rewrite bind_run.
    pose proof (individualFile_run i lcName j arch x w) as Hx.
    destruct (individualFile i lcName j arch x w) as [[arch1|e|] w1];
      [| exact Hx ..].
    destruct Hx as (Hs1 & e1 & He1 & ->).
    specialize (IH (arch ++ [e1]) w1).
    assert (Hdb : db w1 = db w) by apply Hs1. rewrite Hdb in IH.
    destruct (forOf sel _ (arch ++ [e1]) w1) as [[arch2|e|] w2].
    + destruct IH as (Hs2 & es & Hes & ->).
      split; [exact (sameStore_trans _ _ _ Hs1 Hs2) |].
      exists (e1 :: es). simpl. rewrite He1, Hes.
      split; [reflexivity | now rewrite <- app_assoc].
    + exact (sameStore_trans _ _ _ Hs1 IH).
    + contradiction.
Qed.

Lemma individualUnit_unfold (i : nat) (lcName : string)
    (st : nat * list ArchiveEntry) (unit : IDownloadUnit) :
  individualUnit E i lcName st unit =
  (found <- Unit_findOne (unitId unit) ;;
   localUnit <- orFail NotFoundError found ;;
   archive <-
     (if decide (u_t localUnit = "file") then
        forOf (files unit) (individualFile i lcName (fst st)) (snd st)
      else
        buffer <- createPdf E (headIndividual E +:+ toHtmlForIndividualPDF E localUnit
                               +:+ "</html>") optionsIndividual ;;
        ret (snd st ++ [EntryBuffer buffer
               (entryName i lcName (fst st)
                  (replaceCharInFilename (u_name localUnit) +:+ ".pdf"))])) ;;
   ret (S (fst st), archive)).
Proof. reflexivity. Qed.

Lemma individualUnit_run (i : nat) (lcName : string) (j : nat)
    (arch : list ArchiveEntry) (unit : IDownloadUnit) (w : World) :
  match individualUnit E i lcName (j, arch) unit w with
  | (Ok (j', arch'), w') =>
      sameStore w w' /\ j' = S j
      /\ exists es, unitEntries E (db w) i lcName j unit = Some es
                    /\ arch' = arch ++ es
  | (Throw _, w') => sameStore w w'
  | (Pending, _) => False
  end.
Proof.
  rewrite individualUnit_unfold. unfold unitEntries. run_monad.
  set (w0 := {| db := db w; fs := fs w; clock := clock w; drawn := drawn w;
                log := log w ++ [EvFindUnit (unitId unit)] |}).
  assert (Hw0 : sameStore w w0) by (repeat split).
  destruct (Units (db w) !! unitId unit) as [u|]; [| exact Hw0].
  destruct (decide (u_t u = "file")) as [Hfile|Hfile].
  - pose proof (individualFiles_run i lcName j (files unit) arch w0) as Hf.
    destruct (forOf (files unit) _ arch w0) as [[arch1|err|] w1].
    + destruct Hf as (Hs & es & Hes & ->). simpl.
      split; [exact (sameStore_trans _ _ _ Hw0 Hs) |]. split; [reflexivity |].
      exists es. split; [exact Hes | reflexivity].
    + exact (sameStore_trans _ _ _ Hw0 Hf).
    + contradiction.
  - destruct (htmlToPdf E _ optionsIndividual) as [buffer|]; simpl.
    + split; [repeat split |]. split; [reflexivity |].
      eexists. split; reflexivity.
    + repeat split.
Qed.

Lemma individualUnits_run (i : nat) (lcName : string) (us : list IDownloadUnit)
    (j : nat) (arch : list ArchiveEntry) (w : World) :
  match forOf us (individualUnit E i lcName) (j, arch) w with
  | (Ok (j', arch'), w') =>
      sameStore w w'
      /\ exists ess,
           allSome (imap (fun k unit => unitEntries E (db w) i lcName (j + k) unit) us)
           = Some ess
           /\ arch' = arch ++ concat ess
  | (Throw _, w') => sameStore w w'
  | (Pending, _) => False
  end.
Proof.
  revert j arch w. induction us as [|u us IH]; intros j arch w.
  - simpl. split; [apply sameStore_refl |]. exists []. split; [reflexivity |].
    simpl. now rewrite app_nil_r.
  - simpl forOf. rewrite bind_run.
    pose proof (individualUnit_run i lcName j arch u w) as Hu.
    destruct (individualUnit E i lcName (j, arch) u w) as [[[j1 arch1]|e|] w1];
      [| exact Hu ..].
    destruct Hu as (Hs1 & -> & es & Hes & ->).
    specialize (IH (S j) (arch ++ es) w1).
    assert (Hdb : db w1 = db w) by apply Hs1. rewrite Hdb in IH.
    destruct (forOf us _ (S j, arch ++ es) w1) as [[[j2 arch2]|e|] w2].
    + destruct IH as (Hs2 & ess & Hess & ->).
      split; [exact (sameStore_trans _ _ _ Hs1 Hs2) |].
      exists (es :: ess).
      rewrite (imap_offset_cons (fun n unit => unitEntries E (db w) i lcName n unit)).
      cbv beta. rewrite allSome_cons, Hes, Hess.
      split; [reflexivity | simpl; now rewrite <- app_assoc].
    + exact (sameStore_trans _ _ _ Hs1 IH).
    + contradiction.
Qed.

Lemma individualLecture_run (i : nat) (arch : list ArchiveEntry)
    (lec : IDownloadLecture) (w : World) :
  match individualLecture E (i, arch) lec w with
  | (Ok (i', arch'), w') =>
      sameStore w w' /\ i' = S i
      /\ exists es, lectureEntries E (db w) i lec = Some es /\ arch' = arch ++ es
  | (Throw _, w') => sameStore w w'
  | (Pending, _) => False
  end.
Proof.
  unfold individualLecture, lectureEntries. run_monad.
  set (w0 := {| db := db w; fs := fs w; clock := clock w; drawn := drawn w;
                log := log w ++ [EvFindLecture (lectureId lec)] |}).
  assert (Hw0 : sameStore w w0) by (repeat split).
  destruct (Lectures (db w) !! lectureId lec) as [l|]; [| exact Hw0].
  pose proof (individualUnits_run i (replaceCharInFilename (l_name l))
                (units lec) 1 arch w0) as Hu.
  destruct (forOf (units lec) _ (1%nat, arch) w0) as [[[j1 arch1]|e|] w1].
  - destruct Hu as (Hs & ess & Hess & ->). simpl.
    split; [exact (sameStore_trans _ _ _ Hw0 Hs) |]. split; [reflexivity |].
    simpl in Hess. rewrite Hess. simpl.
    eexists. split; reflexivity.
  - exact (sameStore_trans _ _ _ Hw0 Hu).
  - contradiction.
Qed.

Lemma individualLectures_run (ls : list IDownloadLecture) (i : nat)
    (arch : list ArchiveEntry) (w : World) :
  match forOf ls (individualLecture E) (i, arch) w with
  | (Ok (i', arch'), w') =>
      sameStore w w'
      /\ exists ess,
           allSome (imap (fun k lec => lectureEntries E (db w) (i + k) lec) ls)
           = Some ess
           /\ arch' = arch ++ concat ess
  | (Throw _, w') => sameStore w w'
  | (Pending, _) => False
  end.
Proof.
  revert i arch w. induction ls as [|l ls IH]; intros i arch w.
  - simpl. split; [apply sameStore_refl |]. exists []. split; [reflexivity |].
    simpl. now rewrite app_nil_r.
  - simpl forOf. rewrite bind_run.
    pose proof (individualLecture_run i arch l w) as Hl.
    destruct (individualLecture E (i, arch) l w) as [[[i1 arch1]|e|] w1];
      [| exact Hl ..].
    destruct Hl as (Hs1 & -> & es & Hes & ->).
    specialize (IH (S i) (arch ++ es) w1).
    assert (Hdb : db w1 = db w) by apply Hs1. rewrite Hdb in IH.
    destruct (forOf ls _ (S i, arch ++ es) w1) as [[[i2 arch2]|e|] w2].
    + destruct IH as (Hs2 & ess & Hess & ->).
      split; [exact (sameStore_trans _ _ _ Hs1 Hs2) |].
      exists (es :: ess).
      rewrite (imap_offset_cons (fun n lec => lectureEntries E (db w) n lec)).
      cbv beta. rewrite allSome_cons, Hes, Hess.
      split; [reflexivity | simpl; now rewrite <- app_assoc].
    + exact (sameStore_trans _ _ _ Hs1 IH).
    + contradiction.
Qed.

End IndividualLoops.

(** ** The loops of [postDownloadRequestPDFSingle] *)

Section SingleLoops.
Context (E : Env).

Import PathFacts.

Lemma singleFile_run (i : nat) (lcName : string) (v : SingleVars)
    (fileId : JsValue) (w : World) :
  match singleFile E i lcName v fileId w with
  | (Ok v', w') =>
      sameStore w w'
      /\ exists e, isFileEntry e /\ v' = setArchive (archive v ++ [e]) v
  | (Throw _, w') => sameStore w w'
  | (Pending, _) => False
  end.
Proof.
  unfold singleFile. run_monad.
  destruct (Files (db w) fileId) as [f|]; simpl.
  - split; [repeat split |]. eexists. split; [| reflexivity]. exact I.
  - repeat split.
Qed.

Lemma singleFiles_run (i : nat) (lcName : string) (sel : list JsValue)
    (v : SingleVars) (w : World) :
  match forOf sel (singleFile E i lcName) v w with
  | (Ok v', w') =>
      sameStore w w'
      /\ exists es, Forall isFileEntry es /\ v' = setArchive (archive v ++ es) v
  | (Throw _, w') => sameStore w w'
  | (Pending, _) => False
  end.
Proof.
  revert v w. induction sel as [|x sel IH]; intros v w.
  - simpl. split; [apply sameStore_refl |]. exists []. split; [constructor |].
    rewrite app_nil_r. now destruct v.
  - simpl forOf. rewrite bind_run.
    pose proof (singleFile_run i lcName v x w) as Hx.
    destruct (singleFile E i lcName v x w) as [[v1|err|] w1]; [| exact Hx ..].
    destruct Hx as (Hs1 & e1 & He1 & ->).
    specialize (IH (setArchive (archive v ++ [e1]) v) w1).
    destruct (forOf sel _ _ w1) as [[v2|err|] w2].
    + destruct IH as (Hs2 & es & Hes & ->).
      split; [exact (sameStore_trans _ _ _ Hs1 Hs2) |].
      exists (e1 :: es). split; [now constructor |].
      unfold setArchive. simpl. now rewrite <- app_assoc.
    + exact (sameStore_trans _ _ _ Hs1 IH).
    + contradiction.
Qed.

Lemma singleUnit_unfold (i : nat) (l : Lecture) (lcName : string)
    (v : SingleVars) (unit : IDownloadUnit) :
  singleUnit E i l lcName v unit =
  (found <- Unit_findOne (unitId unit) ;;
   localUnit <- orFail NotFoundError found ;;
   v <-
     (if decide (u_t localUnit = "file") then
        forOf (files unit) (singleFile E i lcName) v
      else if isKataOrTask localUnit && (1 <? i)%nat && (1 <? unitCounter v)%nat
      then ret (addHtml (divNextPage +:+ toHtmlForSinglePDF E localUnit
                         +:+ "</div>") v)
      else ret (addHtml (toHtmlForSinglePDF E localUnit) v)) ;;
   ret (incUnitCounter (singleSolutions E l localUnit v))).
Proof. reflexivity. Qed.

Lemma singleUnit_run (i : nat) (l : Lecture) (lcName : string)
    (v : SingleVars) (unit : IDownloadUnit) (w : World) :
  match singleUnit E i l lcName v unit w with
  | (Ok v', w') =>
      sameStore w w'
      /\ exists u es,
           Units (db w) !! unitId unit = Some u /\ Forall isFileEntry es
           /\ (u_t u <> "file" -> es = [])
           /\ v' = unitStep E i l u es v
  | (Throw _, w') => sameStore w w'
  | (Pending, _) => False
  end.
Proof.
  rewrite singleUnit_unfold. unfold unitStep. run_monad.
  set (w0 := {| db := db w; fs := fs w; clock := clock w; drawn := drawn w;
                log := log w ++ [EvFindUnit (unitId unit)] |}).
  assert (Hw0 : sameStore w w0) by (repeat split).
  destruct (Units (db w) !! unitId unit) as [u|]; [| exact Hw0].
  destruct (decide (u_t u = "file")) as [Hfile|Hfile].
  - pose proof (singleFiles_run i lcName (files unit) v w0) as Hf.
    destruct (forOf (files unit) _ v w0) as [[v1|err|] w1].
    + destruct Hf as (Hs & es & Hes & ->). simpl.
      split; [exact (sameStore_trans _ _ _ Hw0 Hs) |].
      exists u, es. split; [reflexivity |]. split; [exact Hes |].
      split; [intros; contradiction |]. now rewrite decide_True.
    + exact (sameStore_trans _ _ _ Hw0 Hf).
    + contradiction.
  - destruct (isKataOrTask u && (1 <? i)%nat && (1 <? unitCounter v)%nat) eqn:Hb;
      simpl.
    + split; [exact Hw0 |]. exists u, [].
      split; [reflexivity |]. split; [constructor |]. split; [reflexivity |].
      rewrite decide_False by assumption. now rewrite Hb.
    + split; [exact Hw0 |]. exists u, [].
      split; [reflexivity |]. split; [constructor |]. split; [reflexivity |].
      rewrite decide_False by assumption. now rewrite Hb.
Qed.

Lemma isKataOrTask_not_file (u : Unit) : isKataOrTask u = true -> u_t u <> "file".
Proof.
  unfold isKataOrTask. intros H Hf. rewrite Hf in H.
  apply orb_prop in H as [H|H]; apply bool_decide_eq_true in H; discriminate.
Qed.

(** What [unitStep] changes *)
Lemma unitStep_fields (i : nat) (l : Lecture) (u : Unit) (es : list ArchiveEntry)
    (v : SingleVars) (n : nat) :
  solCounter v = S n -> (n <> 0%nat -> firstSol v = true) ->
  (u_t u <> "file" -> es = []) ->
  let v' := unitStep E i l u es v in
  html v' = html v +:+ unitHtml E i (unitCounter v) u
  /\ solutions v' = solutions v +:+ solutionPiece E l (firstSol v) n u
  /\ firstSol v' = firstSol v || isKataOrTask u
  /\ solCounter v' = S (n + (if isKataOrTask u then 1 else 0))
  /\ unitCounter v' = S (unitCounter v)
  /\ archive v' = archive v ++ es.
Proof.
  intros Hsc Hinv Hes v'. subst v'.
  unfold unitStep, unitHtml, solutionPiece, singleSolutions.
  destruct (isKataOrTask u) eqn:Hk.
  - pose proof (isKataOrTask_not_file u Hk) as Hnf.
    rewrite (Hes Hnf), app_nil_r. rewrite !decide_False by assumption.
    simpl andb.
    destruct ((1 <? i)%nat && (1 <? unitCounter v)%nat); simpl.
    all: rewrite Hsc; simpl.
    all: destruct n as [|n]; simpl.
    all: try rewrite (Hinv ltac:(discriminate)).
    all: destruct (firstSol v) eqn:Hf; simpl; rewrite ?Hsc, ?Hf.
    all: repeat split; rewrite ?app_assoc_str; try reflexivity; try lia.
  - destruct (decide (u_t u = "file")) as [Hfile|Hfile].
    + simpl. rewrite bool_decide_eq_true_2 by assumption. simpl.
      rewrite !app_empty_r, orb_false_r, Nat.add_0_r.
      repeat split; try reflexivity; assumption.
    + rewrite (Hes Hfile), app_nil_r. simpl.
      rewrite bool_decide_eq_false_2 by assumption. simpl.
      rewrite orb_false_r, Nat.add_0_r.
      repeat split; try reflexivity; assumption.
Qed.

Lemma countKata_cons (u : Unit) (us : list Unit) :
  countKata (u :: us) = ((if isKataOrTask u then 1 else 0) + countKata us)%nat.
Proof.
  unfold countKata. rewrite filter_cons.
  destruct (isKataOrTask u); [rewrite decide_True by reflexivity
                             | rewrite decide_False by discriminate];
    reflexivity.
Qed.

Lemma solutionPiece_later (l : Lecture) (e1 e2 : bool) (before : nat) (u : Unit) :
  before <> 0%nat -> solutionPiece E l e1 before u = solutionPiece E l e2 before u.
Proof.
  intros Hb. unfold solutionPiece. apply Nat.eqb_neq in Hb. now rewrite Hb.
Qed.

Lemma allSome_map_cons {A B} (f : A -> option B) (x : A) (xs : list A) (y : B)
    (ys : list B) :
  f x = Some y -> allSome (map f xs) = Some ys ->
  allSome (map f (x :: xs)) = Some (y :: ys).
Proof. intros Hx Hxs. simpl. now rewrite Hx, Hxs. Qed.

Lemma singleUnits_run (i : nat) (l : Lecture) (lcName : string)
    (us : list IDownloadUnit) (v : SingleVars) (w : World) (n : nat) :
  solCounter v = S n -> (n <> 0%nat -> firstSol v = true) ->
  match forOf us (singleUnit E i l lcName) v w with
  | (Ok v', w') =>
      sameStore w w'
      /\ exists rus es,
           resolveUnits (db w) us = Some rus /\ Forall isFileEntry es
           /\ html v' = html v
                        +:+ concatStr (imap (fun k u =>
                              unitHtml E i (unitCounter v + k) u) rus)
           /\ solutions v' = solutions v
                             +:+ concatStr (imap (fun k u =>
                                   solutionPiece E l (firstSol v)
                                     (n + countKata (take k rus)) u) rus)
           /\ firstSol v' = firstSol v || existsb isKataOrTask rus
           /\ archive v' = archive v ++ es
  | (Throw _, w') => sameStore w w'
  | (Pending, _) => False
  end.
Proof.
  revert v w n. induction us as [|x us IH]; intros v w n Hsc Hinv.
  - simpl. split; [apply sameStore_refl |]. exists [], [].
    split; [reflexivity |]. split; [constructor |]. simpl.
    rewrite !app_empty_r, orb_false_r, app_nil_r. repeat split.
  - simpl forOf. rewrite bind_run.
    pose proof (singleUnit_run i l lcName v x w) as Hx.
    destruct (singleUnit E i l lcName v x w) as [[v1|err|] w1]; [| exact Hx ..].
    destruct Hx as (Hs1 & u & es1 & Hu & Hes1 & Hnf & ->).
    destruct (unitStep_fields i l u es1 v n Hsc Hinv Hnf)
      as (Hh & Hsol & Hfs & Hsc1 & Huc & Har).
    remember (unitStep E i l u es1 v) as v1 eqn:Hv1. clear Hv1.
    assert (Hinv1 : (n + (if isKataOrTask u then 1 else 0))%nat <> 0%nat ->
                    firstSol v1 = true).
    { rewrite Hfs. intros Hn. destruct (isKataOrTask u); [apply orb_true_r |].
      rewrite orb_false_r. apply Hinv. lia. }
    specialize (IH v1 w1 _ Hsc1 Hinv1).
    assert (Hdb : db w1 = db w) by apply Hs1. rewrite Hdb in IH.
    destruct (forOf us _ v1 w1) as [[v2|err|] w2];
      [| exact (sameStore_trans _ _ _ Hs1 IH) | contradiction].
    destruct IH as (Hs2 & rus & es & Hrus & Hes & Hh2 & Hsol2 & Hfs2 & Har2).
    split; [exact (sameStore_trans _ _ _ Hs1 Hs2) |].
    exists (u :: rus), (es1 ++ es).
    split; [now apply allSome_map_cons |].
    split; [now apply Forall_app |].
    split; [| split; [| split]].
    + rewrite Hh2, Hh, Huc.
      rewrite (imap_offset_cons (fun m u => unitHtml E i m u)). cbv beta.
      simpl concatStr. now rewrite !app_assoc_str.
    + rewrite Hsol2, Hsol. rewrite imap_cons. simpl concatStr.
      rewrite app_assoc_str. f_equal. simpl take.
      change (countKata []) with 0%nat. rewrite Nat.add_0_r. f_equal.
      f_equal. apply imap_ext. intros k u' _. simpl.
      rewrite countKata_cons, Nat.add_assoc, Hfs.
      destruct (isKataOrTask u).
      * apply solutionPiece_later. lia.
      * now rewrite orb_false_r.
    + rewrite Hfs2, Hfs. simpl. now rewrite orb_assoc.
    + rewrite Har2, Har. now rewrite <- app_assoc.
Qed.

Lemma singleLecture_run (i : nat) (v : SingleVars) (lec : IDownloadLecture)
    (w : World) :
  match singleLecture E (i, v) lec w with
  | (Ok (i', v'), w') =>
      sameStore w w' /\ i' = S i
      /\ exists lu es,
           resolveLecture (db w) lec = Some lu /\ Forall isFileEntry es
           /\ html v' = html v +:+ lectureContent E i lu
           /\ solutions v' = solutions v +:+ lectureSolutions E (firstSol v) lu
           /\ firstSol v' = firstSol v || hasKata lu
           /\ archive v' = archive v ++ es
  | (Throw _, w') => sameStore w w'
  | (Pending, _) => False
  end.
Proof.
  unfold singleLecture, resolveLecture. run_monad.
  set (w0 := {| db := db w; fs := fs w; clock := clock w; drawn := drawn w;
                log := log w ++ [EvFindLecture (lectureId lec)] |}).
  assert (Hw0 : sameStore w w0) by (repeat split).
  destruct (Lectures (db w) !! lectureId lec) as [l|]; [| exact Hw0].
  set (v0 := if (1 <? i)%nat
             then addHtml (divNextPage +:+ lectureHeading l) (startLecture v)
             else addHtml ("<div>" +:+ lectureHeading l) (startLecture v)).
  assert (Hv0 : html v0 = html v +:+ (if (1 <? i)%nat then divNextPage else "<div>")
                                +:+ lectureHeading l
                /\ solutions v0 = solutions v /\ firstSol v0 = firstSol v
                /\ archive v0 = archive v /\ unitCounter v0 = 1%nat
                /\ solCounter v0 = 1%nat).
  { subst v0. destruct (1 <? i)%nat; simpl; rewrite ?app_assoc_str;
      repeat split. }
  destruct Hv0 as (Hh0 & Hsol0 & Hfs0 & Har0 & Huc0 & Hsc0).
  pose proof (singleUnits_run i l (replaceCharInFilename (l_name l)) (units lec)
                v0 w0 0 Hsc0 ltac:(congruence)) as Hu.
  clearbody v0.
  destruct (forOf (units lec) _ v0 w0) as [[v1|err|] w1];
    [| exact (sameStore_trans _ _ _ Hw0 Hu) | contradiction].
  destruct Hu as (Hs & rus & es & Hrus & Hes & Hh & Hsol & Hfs & Har).
  simpl. split; [exact (sameStore_trans _ _ _ Hw0 Hs) |]. split; [reflexivity |].
  simpl in Hrus. rewrite Hrus. exists (l, rus), es.
  split; [reflexivity |]. split; [exact Hes |].
  unfold lectureContent, lectureSolutions, hasKata. simpl fst. simpl snd.
  rewrite Hh, Hsol, Hfs, Har, Hh0, Hsol0, Hfs0, Har0, Huc0.
  repeat split. now rewrite !app_assoc_str.
Qed.

Lemma existsb_snoc {A} (f : A -> bool) (xs : list A) (x : A) :
  existsb f (xs ++ [x]) = existsb f xs || f x.
Proof. rewrite existsb_app. simpl. now rewrite orb_false_r. Qed.

Lemma singleLectures_run (ls : list IDownloadLecture) (i : nat) (v : SingleVars)
    (w : World) :
  match forOf ls (singleLecture E) (i, v) w with
  | (Ok (i', v'), w') =>
      sameStore w w'
      /\ exists rls es,
           allSome (map (resolveLecture (db w)) ls) = Some rls
           /\ Forall isFileEntry es
           /\ html v' = html v
                        +:+ concatStr (imap (fun k lu => lectureContent E (i + k) lu) rls)
           /\ solutions v' = solutions v
                             +:+ concatStr (imap (fun k lu =>
                                   lectureSolutions E
                                     (firstSol v || existsb hasKata (take k rls)) lu)
                                 rls)
           /\ firstSol v' = firstSol v || existsb hasKata rls
           /\ archive v' = archive v ++ es
  | (Throw _, w') => sameStore w w'
  | (Pending, _) => False
  end.
Proof.
  revert i v w. induction ls as [|x ls IH]; intros i v w.
  - simpl. split; [apply sameStore_refl |]. exists [], [].
    split; [reflexivity |]. split; [constructor |]. simpl.
    rewrite !app_empty_r, orb_false_r, app_nil_r. repeat split.
  - simpl forOf. rewrite bind_run.
    pose proof (singleLecture_run i v x w) as Hx.
    destruct (singleLecture E (i, v) x w) as [[[i1 v1]|err|] w1]; [| exact Hx ..].
    destruct Hx as (Hs1 & -> & lu & es1 & Hlu & Hes1 & Hh & Hsol & Hfs & Har).
    specialize (IH (S i) v1 w1).
    assert (Hdb : db w1 = db w) by apply Hs1. rewrite Hdb in IH.
    destruct (forOf ls _ (S i, v1) w1) as [[[i2 v2]|err|] w2];
      [| exact (sameStore_trans _ _ _ Hs1 IH) | contradiction].
    destruct IH as (Hs2 & rls & es & Hrls & Hes & Hh2 & Hsol2 & Hfs2 & Har2).
    split; [exact (sameStore_trans _ _ _ Hs1 Hs2) |].
    exists (lu :: rls), (es1 ++ es).
    split; [now apply allSome_map_cons |].
    split; [now apply Forall_app |].
    split; [| split; [| split]].
    + rewrite Hh2, Hh.
      rewrite (imap_offset_cons (fun m lu => lectureContent E m lu)). cbv beta.
      simpl concatStr. now rewrite !app_assoc_str.
    + rewrite Hsol2, Hsol. rewrite imap_cons. simpl concatStr.
      rewrite app_assoc_str. f_equal. simpl take. simpl existsb.
      rewrite orb_false_r. f_equal. f_equal.
      apply imap_ext. intros k lu' _. unfold compose. simpl take. simpl existsb.
      now rewrite Hfs, orb_assoc.
    + rewrite Hfs2, Hfs. simpl. now rewrite orb_assoc.
    + rewrite Har2, Har. now rewrite <- app_assoc.
Qed.

End SingleLoops.

(** ** The work after the guards *)

Section Bodies.
Context (E : Env).

Lemma withGuards_ok {A} (data : IDownload) (user : IUser) (k : ICourse -> M A)
    (w w' : World) (a : A) :
  withGuards data user k w = (Ok a, w') ->
  exists course w1,
    lectures data <> []
    /\ Courses (db w) !! courseName data = Some course
    /\ mayExport course user = true
    /\ allUnitsExist (db w) data /\ ~ sizeExceeded (db w) data
    /\ onlyLookups w w1 /\ k course w1 = (Ok a, w').
Proof.
  intros Hrun.
  destruct (lectures data) as [|l ls] eqn:Hl.
  { pose proof (withGuards_run data user k w) as H. rewrite Hl in H. congruence. }
  rewrite withGuards_eq in Hrun by (rewrite Hl; discriminate).
  set (w0 := snd (emit (EvFindCourse (courseName data)) w)) in *.
  set (w1 := snd (emit EvAuthCheck w0)) in *.
  assert (Hw1 : onlyLookups w w1).
  { eapply onlyLookups_trans; [| now apply onlyLookups_emit].
    now apply onlyLookups_emit. }
  destruct (Courses (db w) !! courseName data) as [course|] eqn:Hc;
    [| discriminate].
  destruct (mayExport course user) eqn:Hmay; [| discriminate].
  pose proof (calcPackage_run data w1) as Hcalc.
  assert (Hdb : db w1 = db w) by reflexivity. rewrite Hdb in Hcalc.
  destruct (calcPackage data w1) as [[size|e|] w2]; [| discriminate ..].
  destruct Hcalc as (Hall & Ht & Hlf & Hw2).
  pose proof (sizeCheck_spec (db w) data size Ht Hlf) as Hchk.
  destruct (Qgt_bool _ _ || _) eqn:Hb; [discriminate |].
  exists course, w2. split; [discriminate |]. split; [reflexivity |].
  split; [exact Hmay |]. split; [exact Hall |].
  split; [| split; [eapply onlyLookups_trans; eauto | exact Hrun]].
  intros Hex. apply Hchk in Hex. congruence.
Qed.

Lemma hashOf_onlyLookups (w w1 : World) : onlyLookups w w1 -> hashOf E w1 = hashOf E w.
Proof. intros (_ & _ & _ & Hr & _). unfold hashOf. now rewrite Hr. Qed.

Lemma createFileHash_run (w : World) :
  createFileHash E w
  = (Ok (hashOf E w),
     {| db := db w; fs := fs w; clock := clock w; drawn := drawn w + 16;
        log := log w ++ [EvRandomBytes 16] |}).
Proof. reflexivity. Qed.

Lemma createWriteStream_run (p : string) (w : World) :
  createWriteStream E p w
  = (Ok (opens (fs w) (realpath E p)),
     {| db := db w;
        fs := if opens (fs w) (realpath E p) then streamed w (realpath E p)
              else fs w;
        clock := clock w; drawn := drawn w;
        log := log w ++ [EvCreateWriteStream p] |}).
Proof.
  unfold createWriteStream. run_monad.
  destruct (opens (fs w) (realpath E p)); reflexivity.
Qed.

Lemma finish_run (w w4 : World) (arch : list ArchiveEntry) :
  bind (archive_finalize E (opens (fs w) (realpath E (cacheFilePath E (hashOf E w))))
          (cacheFilePath E (hashOf E w)) arch)
       (fun _ => ret (hashOf E w)) w4
  = finish E w w4 arch.
Proof.
  unfold finish, archive_finalize. run_monad.
  destruct (opens (fs w) _); reflexivity.
Qed.

(** The work of [postDownloadRequestPDFIndividual], by its loops *)
Lemma individualBody_eq (data : IDownload) (course : ICourse) (w : World) :
  individualBody E data course w
  = match forOf (lectures data) (individualLecture E) (1%nat, []) (loopStart E w) with
    | (Ok st, w4) => finish E w w4 (snd st)
    | (Throw e, w4) => (Throw e, w4)
    | (Pending, w4) => (Pending, w4)
    end.
Proof.
  unfold individualBody.
  rewrite bind_run, createFileHash_run. cbv zeta.
  rewrite bind_run, createWriteStream_run. rewrite bind_run.
  match goal with
  | |- context [forOf _ _ _ ?w3] => change w3 with (loopStart E w)
  end.
  destruct (forOf (lectures data) (individualLecture E) (1%nat, []) (loopStart E w))
    as [[st|e|] w4]; [| reflexivity | reflexivity].
  exact (finish_run w w4 (snd st)).
Qed.

(** The work of [postDownloadRequestPDFSingle], by its loops *)
Lemma singleBody_eq (data : IDownload) (course : ICourse) (w : World) :
  singleBody E data course w
  = match forOf (lectures data) (singleLecture E)
            (1%nat, {| html := headSingle E; solutions := solutionsTitle;
                       firstSol := false; archive := [];
                       unitCounter := 1; solCounter := 1 |})
            (loopStart E w) with
    | (Ok st, w4) =>
        match htmlToPdf E ((html (snd st) +:+ solutions (snd st))
                           +:+ "</div></body>" +:+ "</html>")
                (optionsSingle course) with
        | Some pdf =>
            finish E w
              {| db := db w4; fs := fs w4; clock := clock w4; drawn := drawn w4;
                 log := log w4 ++ [EvCreatePdf] |}
              (archive (snd st)
               ++ [EntryBuffer pdf (replaceCharInFilename (c_name course) +:+ ".pdf")])
        | None =>
            (Throw PdfError,
             {| db := db w4; fs := fs w4; clock := clock w4; drawn := drawn w4;
                log := log w4 ++ [EvCreatePdf] |})
        end
    | (Throw e, w4) => (Throw e, w4)
    | (Pending, w4) => (Pending, w4)
    end.
Proof.
  unfold singleBody. cbv zeta. simpl lectures.
  rewrite bind_run, createFileHash_run.
  rewrite bind_run, createWriteStream_run. rewrite bind_run.
  match goal with
  | |- context [forOf _ _ _ ?w3] => change w3 with (loopStart E w)
  end.
  destruct (forOf (lectures data) (singleLecture E) _ (loopStart E w))
    as [[st|e|] w4]; [| reflexivity | reflexivity].
  rewrite bind_run. unfold createPdf. run_monad.
  destruct (htmlToPdf E _ (optionsSingle course)) as [pdf|]; [| reflexivity].
  exact (finish_run w _ _).
Qed.

Lemma zipped_alter (w : World) (p : string) (entries : list ArchiveEntry) :
  alter (fun s => {| isDirectory := isDirectory s; ctimeMs := ctimeMs s;
                     content := archiver E (streamed w p) entries |})
        p (streamed w p)
  = <[p := zipped E w p entries]> (fs w).
Proof. unfold streamed. now rewrite alter_insert_eq. Qed.

(** How [finish] ends *)
Lemma finish_cases (w w4 : World) (arch : list ArchiveEntry) :
  db w4 = db w -> fs w4 = fs (loopStart E w) ->
  let p := realpath E (cacheFilePath E (hashOf E w)) in
  if opens (fs w) p
  then exists w', finish E w w4 arch = (Ok (hashOf E w), w')
                  /\ db w' = db w
                  /\ fs w' = <[p := zipped E w p arch]> (fs w)
  else exists w', finish E w w4 arch = (Pending, w')
                  /\ db w' = db w /\ fs w' = fs w.
Proof.
  intros Hd Hf p. unfold finish. fold p. unfold loopStart in Hf. simpl in Hf.
  fold p in Hf.
  destruct (opens (fs w) p).
  - eexists. split; [reflexivity |]. simpl. split; [exact Hd |].
    rewrite Hf. apply zipped_alter.
  - eexists. split; [reflexivity |]. simpl. split; assumption.
Qed.

(** Every way through the work of [postDownloadRequestPDFIndividual] *)
Lemma individualBody_cases (data : IDownload) (course : ICourse) (w : World) :
  let p := realpath E (cacheFilePath E (hashOf E w)) in
  match individualBody E data course w with
  | (Ok hash, w') =>
      hash = hashOf E w /\ db w' = db w
      /\ exists entries,
           archiveEntries E (db w) data = Some entries
           /\ fs w' = <[p := zipped E w p entries]> (fs w)
           /\ opens (fs w) p = true
  | (Throw e, w') =>
      db w' = db w /\ fs w' = (if opens (fs w) p then streamed w p else fs w)
  | (Pending, w') =>
      opens (fs w) p = false /\ db w' = db w /\ fs w' = fs w
      /\ is_Some (archiveEntries E (db w) data)
  end.
Proof.
  intros p. rewrite individualBody_eq.
  pose proof (individualLectures_run E (lectures data) 1 [] (loopStart E w)) as Hl.
  destruct (forOf (lectures data) (individualLecture E) (1%nat, []) (loopStart E w))
    as [[[i1 arch1]|err|] w4]; [| | contradiction].
  - destruct Hl as ((Hd & Hf & _) & ess & Hess & ->).
    simpl in Hess, Hd. simpl snd.
    pose proof (finish_cases w w4 (concat ess) Hd Hf) as Hfin.
    cbv zeta in Hfin. fold p in Hfin.
    unfold archiveEntries. rewrite Hess. simpl fmap.
    destruct (opens (fs w) p) eqn:Hopen;
      destruct Hfin as (w' & -> & Hd' & Hf').
    + split; [reflexivity |]. split; [exact Hd' |]. eauto.
    + split; [reflexivity |]. split; [exact Hd' |]. split; [exact Hf' |]. eauto.
  - destruct Hl as (Hd & Hf & _). split; [exact Hd | exact Hf].
Qed.

Lemma individualBody_ok (data : IDownload) (course : ICourse) (w w' : World)
    (hash : string) :
  individualBody E data course w = (Ok hash, w') ->
  hash = hashOf E w
  /\ db w' = db w
  /\ exists entries,
       archiveEntries E (db w) data = Some entries
       /\ fs w' = <[realpath E (cacheFilePath E hash) :=
                     zipped E w (realpath E (cacheFilePath E hash)) entries]> (fs w)
       /\ opens (fs w) (realpath E (cacheFilePath E hash)) = true.
Proof.
  intros Hrun. pose proof (individualBody_cases data course w) as H.
  rewrite Hrun in H. cbv zeta in H.
  destruct H as (-> & Hd & entries & Hent & Hfs & Hopen).
  split; [reflexivity |]. split; [exact Hd |]. eauto.
Qed.

(** Every way through the work of [postDownloadRequestPDFSingle] *)
Lemma singleBody_cases (data : IDownload) (course : ICourse) (w : World) :
  let p := realpath E (cacheFilePath E (hashOf E w)) in
  match singleBody E data course w with
  | (Ok hash, w') =>
      hash = hashOf E w /\ db w' = db w
      /\ exists resolved pdf fileEntries,
           resolveRequest (db w) data = Some resolved
           /\ htmlToPdf E (singleHtml E resolved) (optionsSingle course) = Some pdf
           /\ Forall isFileEntry fileEntries
           /\ fs w' = <[p := zipped E w p
                               (fileEntries
                                ++ [EntryBuffer pdf
                                      (replaceCharInFilename (c_name course)
                                       +:+ ".pdf")])]> (fs w)
           /\ opens (fs w) p = true
  | (Throw e, w') =>
      db w' = db w /\ fs w' = (if opens (fs w) p then streamed w p else fs w)
  | (Pending, w') =>
      opens (fs w) p = false /\ db w' = db w /\ fs w' = fs w
      /\ exists resolved,
           resolveRequest (db w) data = Some resolved
           /\ is_Some (htmlToPdf E (singleHtml E resolved) (optionsSingle course))
  end.
Proof.
  intros p. rewrite singleBody_eq.
  match goal with
  | |- context [forOf (lectures data) (singleLecture E) (1%nat, ?v0) ?w3] =>
      pose proof (singleLectures_run E (lectures data) 1 v0 w3) as Hl;
      destruct (forOf (lectures data) (singleLecture E) (1%nat, v0) w3)
        as [[[i1 v1]|err|] w4]
  end; [| | contradiction].
  - destruct Hl as ((Hd & Hf & _) & rls & es & Hrls & Hes & Hh & Hsol & _ & Har).
    simpl in Hrls, Hd, Hh, Hsol, Har. simpl snd.
    assert (Hhtml : (html v1 +:+ solutions v1) +:+ "</div></body>" +:+ "</html>"
                    = singleHtml E rls).
    { rewrite Hh, Hsol. unfold singleHtml, allContent, solutionsSection.
      rewrite !PathFacts.app_assoc_str. reflexivity. }
    rewrite Hhtml. unfold resolveRequest. rewrite Hrls.
    destruct (htmlToPdf E (singleHtml E rls) (optionsSingle course)) as [pdf|] eqn:Hpdf.
    + match goal with
      | |- context [finish E w ?w5 ?arch] =>
          pose proof (finish_cases w w5 arch Hd Hf) as Hfin
      end.
      cbv zeta in Hfin. fold p in Hfin. rewrite Har in *.
      destruct (opens (fs w) p) eqn:Hopen;
        destruct Hfin as (w' & -> & Hd' & Hf').
      * split; [reflexivity |]. split; [exact Hd' |].
        exists rls, pdf, es. rewrite Hpdf. auto 10.
      * split; [reflexivity |]. split; [exact Hd' |]. split; [exact Hf' |].
        exists rls. rewrite Hpdf. eauto.
    + split; [exact Hd | exact Hf].
  - destruct Hl as (Hd & Hf & _). split; [exact Hd | exact Hf].
Qed.

Lemma singleBody_ok (data : IDownload) (course : ICourse) (w w' : World)
    (hash : string) :
  singleBody E data course w = (Ok hash, w') ->
  hash = hashOf E w
  /\ db w' = db w
  /\ exists resolved pdf fileEntries,
       resolveRequest (db w) data = Some resolved
       /\ htmlToPdf E (singleHtml E resolved) (optionsSingle course) = Some pdf
       /\ Forall isFileEntry fileEntries
       /\ fs w' = <[realpath E (cacheFilePath E hash) :=
                     zipped E w (realpath E (cacheFilePath E hash))
                       (fileEntries
                        ++ [EntryBuffer pdf
                              (replaceCharInFilename (c_name course) +:+ ".pdf")])]>
                  (fs w)
       /\ opens (fs w) (realpath E (cacheFilePath E hash)) = true.
Proof.
  intros Hrun. pose proof (singleBody_cases data course w) as H.
  rewrite Hrun in H. cbv zeta in H.
  destruct H as (-> & Hd & rs & pdf & es & H).
  split; [reflexivity |]. split; [exact Hd |]. eauto.
Qed.

Lemma individualBody_throw (data : IDownload) (course : ICourse) (w w' : World)
    (e : Error) :
  individualBody E data course w = (Throw e, w') ->
  db w' = db w
  /\ fs w' = (if opens (fs w) (realpath E (cacheFilePath E (hashOf E w)))
              then streamed w (realpath E (cacheFilePath E (hashOf E w)))
              else fs w).
Proof.
  intros Hrun. pose proof (individualBody_cases data course w) as H.
  rewrite Hrun in H. exact H.
Qed.

Lemma singleBody_throw (data : IDownload) (course : ICourse) (w w' : World)
    (e : Error) :
  singleBody E data course w = (Throw e, w') ->
  db w' = db w
  /\ fs w' = (if opens (fs w) (realpath E (cacheFilePath E (hashOf E w)))
              then streamed w (realpath E (cacheFilePath E (hashOf E w)))
              else fs w).
Proof.
  intros Hrun. pose proof (singleBody_cases data course w) as H.
  rewrite Hrun in H. exact H.
Qed.

End Bodies.

(** ** The hash of an archive *)

Section Hash.

Lemma byteToHex_hex (b : Byte.byte) :
  exists c1 c2, byteToHex b = String c1 (String c2 "")
                /\ isHexChar c1 = true /\ isHexChar c2 = true.
Proof.
  eexists _, _. split; [reflexivity |]. destruct b; split; reflexivity.
Qed.

Lemma toHex_length (bs : list Byte.byte) :
  String.length (toHex bs) = (2 * length bs)%nat.
Proof.
  induction bs as [|b bs IH]; [reflexivity |].
  simpl toHex. destruct (byteToHex_hex b) as (c1 & c2 & -> & _).
  change (String c1 (String c2 "") +:+ toHex bs)
    with (String c1 (String c2 (toHex bs))).
  simpl String.length. rewrite IH. simpl. lia.
Qed.

Lemma toHex_hex (bs : list Byte.byte) : allChars isHexChar (toHex bs) = true.
Proof.
  induction bs as [|b bs IH]; [reflexivity |].
  simpl toHex. destruct (byteToHex_hex b) as (c1 & c2 & -> & H1 & H2).
  change (String c1 (String c2 "") +:+ toHex bs)
    with (String c1 (String c2 (toHex bs))).
  simpl. now rewrite H1, H2, IH.
Qed.

Lemma hex_noSlash (s : string) : allChars isHexChar s = true -> noSlash s = true.
Proof.
  induction s as [|c s IH]; [reflexivity |].
  simpl. intros H. apply andb_prop in H as [Hc Hs].
  rewrite PathFacts.noSlash_cons, (IH Hs), andb_true_r.
  unfold Path.isPosixPathSeparator.
  destruct (Ascii.eqb_spec c "/") as [->|_]; [discriminate Hc | reflexivity].
Qed.

End Hash.

(** ** What a successful export leaves behind *)

Section Exported.
Context (E : Env).


Lemma allSome_lookup {A} (xs : list (option A)) (ys : list A) (k : nat)
    (o : option A) :
  allSome xs = Some ys -> xs !! k = Some o ->
  exists y, o = Some y /\ ys !! k = Some y.
Proof.
  revert ys k. induction xs as [|x xs IH]; intros ys k Hall Hk; [discriminate |].
  rewrite allSome_cons in Hall. destruct x as [x|]; [| discriminate].
  destruct (allSome xs) as [r|] eqn:Hr; [| discriminate].
  injection Hall as <-. destruct k as [|k]; simpl in Hk.
  - injection Hk as <-. eauto.
  - destruct (IH r k eq_refl Hk) as (y & -> & Hy). eauto.
Qed.

Lemma elem_of_concat_lookup {A} (xss : list (list A)) (k : nat) (xs : list A)
    (x : A) :
  xss !! k = Some xs -> x ∈ xs -> x ∈ concat xss.
Proof.
  revert k. induction xss as [|ys xss IH]; intros k Hk Hx; [discriminate |].
  simpl. apply elem_of_app. destruct k as [|k]; simpl in Hk.
  - injection Hk as ->. now left.
  - right. eauto.
Qed.




Lemma piecesFrom_cons (l : Lecture) (earlier : bool) (n : nat) (u : Unit)
    (us : list Unit) :
  concatStr (imap (fun j v => solutionPiece E l earlier
                                (n + countKata (take j (u :: us))) v) (u :: us))
  = solutionPiece E l earlier n u
    +:+ concatStr (imap (fun j v =>
                           solutionPiece E l earlier
                             ((n + (if isKataOrTask u then 1 else 0))
                              + countKata (take j us)) v) us).
Proof.
  rewrite imap_cons. simpl concatStr. simpl take.
  change (countKata []) with 0%nat. rewrite Nat.add_0_r. f_equal. f_equal.
  apply imap_ext. intros j v _. simpl. now rewrite countKata_cons, Nat.add_assoc.
Qed.

Lemma piecesFrom_later (l : Lecture) (earlier : bool) (us : list Unit) (n : nat) :
  n <> 0%nat ->
  Forall (fun u => isKataOrTask u = true \/ u_t u = "file") us ->
  concatStr (imap (fun j v => solutionPiece E l earlier
                                (n + countKata (take j us)) v) us)
  = concatStr (map (fun u => specPageBlock +:+ toHtmlForSinglePDFSolutions E u
                             +:+ "</div>")
                   (filter (fun u => isKataOrTask u = true) us)).
Proof.
  revert n. induction us as [|u us IH]; intros n Hn Hall; [reflexivity |].
  inversion Hall as [|? ? Hu Hus]; subst.
  rewrite piecesFrom_cons, filter_cons. unfold solutionPiece at 1.
  apply Nat.eqb_neq in Hn as Hn'. rewrite Hn'.
  destruct Hu as [Hk|Hf].
  - rewrite Hk. destruct (decide (true = true)); [| contradiction].
    simpl map. simpl concatStr.
    rewrite IH by (assumption || lia). reflexivity.
  - assert (Hk : isKataOrTask u = false).
    { destruct (isKataOrTask u) eqn:Hk; [| reflexivity].
      apply isKataOrTask_not_file in Hk. contradiction. }
    rewrite Hk. destruct (decide (false = true)); [discriminate |].
    destruct (decide (u_t u = "file")); [| contradiction].
    rewrite Nat.add_0_r. rewrite IH by assumption. reflexivity.
Qed.

(** The solutions of a lecture of code-kata, task and file units: nothing
    when it has no code-kata or task unit; otherwise one block per such
    unit in the order of the units, the first headed by the lecture, every
    later one beginning a page. *)
Lemma lectureSolutions_grouped (earlier : bool) (l : Lecture) (us : list Unit) :
  Forall (fun u => isKataOrTask u = true \/ u_t u = "file") us ->
  lectureSolutions E earlier (l, us)
  = match filter (fun u => isKataOrTask u = true) us with
    | [] => ""
    | k :: ks =>
        (if earlier then specPageBlock else specBlock) +:+ specHeading l
        +:+ toHtmlForSinglePDFSolutions E k +:+ "</div>"
        +:+ concatStr (map (fun u => specPageBlock
                                     +:+ toHtmlForSinglePDFSolutions E u
                                     +:+ "</div>") ks)
    end.
Proof.
  change (lectureSolutions E earlier (l, us))
    with (concatStr (imap (fun j v => solutionPiece E l earlier
                                        (0 + countKata (take j us)) v) us)).
  induction us as [|u us IH]; intros Hall; [reflexivity |].
  inversion Hall as [|? ? Hu Hus]; subst.
  rewrite piecesFrom_cons, filter_cons. unfold solutionPiece at 1. simpl Nat.eqb.
  destruct Hu as [Hk|Hf].
  - rewrite Hk. destruct (decide (true = true)); [| contradiction].
    rewrite (piecesFrom_later l earlier us (0 + 1)) by (assumption || discriminate).
    rewrite !PathFacts.app_assoc_str. reflexivity.
  - assert (Hk : isKataOrTask u = false).
    { destruct (isKataOrTask u) eqn:Hk; [| reflexivity].
      apply isKataOrTask_not_file in Hk. contradiction. }
    rewrite Hk. destruct (decide (false = true)); [discriminate |].
    destruct (decide (u_t u = "file")); [| contradiction].
    change (0 + 0)%nat with 0%nat. simpl String.append. exact (IH Hus).
Qed.


(** C7: when [postDownloadRequestPDFSingle] succeeds, the archive ends in
    the one PDF, rendered from the head, the content of all lectures, then
    the one section of the solutions, then the closing tags.  The section
    is its title followed by the solutions of the lectures in request
    order; and the solutions of a lecture of code-kata, task and file units
    are one block per code-kata or task unit in the order of the units,
    holding the solutions HTML of the unit, the first block headed by the
    heading of the lecture: a file unit contributes nothing, and a lecture
    without a code-kata or task unit not even its heading. *)
Theorem single_solutions_section (data : IDownload) (user : IUser)
    (w w' : World) (hash : string) :
  postDownloadRequestPDFSingle E data user w = (Ok hash, w') ->
  (exists course resolved pdf fileEntries st,
     Courses (db w) !! courseName data = Some course
     /\ resolveRequest (db w) data = Some resolved
     /\ htmlToPdf E
          (headSingle E +:+ allContent E resolved
           +:+ ("<div id=" +:+ dq +:+ "nextPage" +:+ dq
                +:+ "><h2><u>Solutions</u></h2>"
                +:+ concatStr (imap (fun i lu =>
                                       lectureSolutions E
                                         (existsb hasKata (take i resolved)) lu)
                                    resolved))
           +:+ "</div></body></html>")
          (optionsSingle course) = Some pdf
     /\ Forall isFileEntry fileEntries
     /\ fs w' !! realpath E (cacheFilePath E hash) = Some st
     /\ content st
        = archiver E (streamed w (realpath E (cacheFilePath E hash)))
            (fileEntries
             ++ [EntryBuffer pdf (replaceCharInFilename (c_name course) +:+ ".pdf")]))
  /\ (forall earlier l us,
        Forall (fun u => isKataOrTask u = true \/ u_t u = "file") us ->
        lectureSolutions E earlier (l, us)
        = match filter (fun u => isKataOrTask u = true) us with
          | [] => ""
          | k :: ks =>
              (if earlier then "<div id=" +:+ dq +:+ "nextPage" +:+ dq +:+ " >"
               else "<div>")
              +:+ ("<h2>Lecture: " +:+ l_name l +:+ "</h2>")
              +:+ toHtmlForSinglePDFSolutions E k +:+ "</div>"
              +:+ concatStr (map (fun u => "<div id=" +:+ dq +:+ "nextPage" +:+ dq
                                           +:+ " >"
                                           +:+ toHtmlForSinglePDFSolutions E u
                                           +:+ "</div>") ks)
          end).
Proof.
  rewrite single_withGuards. intros Hrun.
  apply withGuards_ok in Hrun
    as (course & w1 & _ & Hc & _ & _ & _ & Hw1 & Hbody).
  apply singleBody_ok in Hbody
    as (_ & _ & resolved & pdf & es & Hres & Hpdf & Hes & Hfs & _).
  destruct Hw1 as (Hdb & Hf1 & Hc1 & _). rewrite Hdb in Hres.
  split; [| intros earlier l us Hall;
            exact (lectureSolutions_grouped earlier l us Hall)].
  exists course, resolved, pdf, es. eexists.
  split; [exact Hc |]. split; [exact Hres |]. split; [exact Hpdf |].
  split; [exact Hes |].
  split; [rewrite Hfs; apply lookup_insert_eq |].
  unfold zipped, streamed. simpl. now rewrite Hf1, Hc1.
Qed.

Hypothesis appRoot_absolute : Path.isAbsolute (appRoot E) = true.

Lemma hashOf_facts (w : World) :
  String.length (hashOf E w) = 32%nat
  /\ allChars isHexChar (hashOf E w) = true.
Proof.
  unfold hashOf. split; [| apply toHex_hex].
  rewrite toHex_length, length_map, length_seq. reflexivity.
Qed.

Lemma served_after_write (hash : string) (w' : World) (st : Stats)
    (response : Response) :
  allChars isHexChar hash = true ->
  fs w' !! cacheFilePath E hash = Some st -> isDirectory st = false ->
  exists r, fst (getArchivedFile E hash response w') = Ok r
            /\ r_file r = cacheFilePath E hash /\ r_body r = content st.
Proof.
  intros Hhex Hst Hfile.
  destruct (cacheFilePath_noSlash E appRoot_absolute hash (hex_noSlash _ Hhex))
    as (Hpath & Hplain).
  assert (Hin : directlyInside (tmpDir E) (cacheFilePath E hash))
    by (eexists; split; [exact Hplain | exact Hpath]).
  destruct (getArchivedFile_path_safe_aux E appRoot_absolute hash response w')
    as (_ & _ & Hserve & _).
  exact (Hserve Hin st Hst Hfile).
Qed.

Lemma never_forbidden (hash : string) (w' : World) (response : Response) :
  allChars isHexChar hash = true ->
  fst (getArchivedFile E hash response w') <> Throw ForbiddenError.
Proof.
  intros Hhex Hf.
  destruct (cacheFilePath_noSlash E appRoot_absolute hash (hex_noSlash _ Hhex))
    as (Hpath & Hplain).
  assert (Hin : directlyInside (tmpDir E) (cacheFilePath E hash))
    by (eexists; split; [exact Hplain | exact Hpath]).
  destruct (getArchivedFile_path_safe_aux E appRoot_absolute hash response w')
    as (_ & Hnf & Hserve & Hfolder & _).
  destruct (fs w' !! cacheFilePath E hash) as [st|] eqn:Hl.
  - destruct (isDirectory st) eqn:Hd.
    + specialize (Hfolder Hin st Hl Hd). congruence.
    + destruct (Hserve Hin st Hl Hd) as (r & Hr & _). congruence.
  - specialize (Hnf Hin Hl). congruence.
Qed.

Lemma zipped_onlyLookups (w w1 : World) (p : string) (entries : list ArchiveEntry) :
  onlyLookups w w1 -> zipped E w1 p entries = zipped E w p entries.
Proof.
  intros (_ & Hf1 & Hc1 & _). unfold zipped, streamed. now rewrite Hf1, Hc1.
Qed.

(** What a successful export leaves, and of which entries *)
Lemma exported_file (data : IDownload) (user : IUser) (w w' : World)
    (hash : string) :
  postDownloadRequestPDFIndividual E data user w = (Ok hash, w')
  \/ postDownloadRequestPDFSingle E data user w = (Ok hash, w') ->
  hash = hashOf E w
  /\ db w' = db w
  /\ opens (fs w) (cacheFilePath E hash) = true
  /\ exists entries,
       fs w' = <[cacheFilePath E hash := zipped E w (cacheFilePath E hash) entries]>
                 (fs w)
       /\ ((postDownloadRequestPDFIndividual E data user w = (Ok hash, w')
            /\ archiveEntries E (db w) data = Some entries)
           \/ (postDownloadRequestPDFSingle E data user w = (Ok hash, w')
               /\ exists course resolved pdf fileEntries,
                    Courses (db w) !! courseName data = Some course
                    /\ resolveRequest (db w) data = Some resolved
                    /\ htmlToPdf E (singleHtml E resolved) (optionsSingle course)
                       = Some pdf
                    /\ Forall isFileEntry fileEntries
                    /\ entries
                       = fileEntries
                         ++ [EntryBuffer pdf
                               (replaceCharInFilename (c_name course) +:+ ".pdf")])).
Proof.
  intros Hrun. destruct Hrun as [Hrun|Hrun]; pose proof Hrun as Hrun0.
  - rewrite individual_withGuards in Hrun.
    apply withGuards_ok in Hrun as (course & w1 & _ & _ & _ & _ & _ & Hw1 & Hbody).
    apply individualBody_ok in Hbody as (Hh & Hd & entries & Hent & Hfs & Hopen).
    rewrite (realpath_cacheFilePath E appRoot_absolute) in Hfs, Hopen.
    rewrite (zipped_onlyLookups w w1 _ entries Hw1) in Hfs.
    pose proof (hashOf_onlyLookups E w w1 Hw1) as Hh1.
    destruct Hw1 as (Hd1 & Hf1 & _).
    rewrite Hf1 in Hfs, Hopen. rewrite Hd1 in Hent, Hd.
    split; [congruence |]. split; [exact Hd |]. split; [exact Hopen |].
    exists entries. split; [exact Hfs |]. left. split; assumption.
  - rewrite single_withGuards in Hrun.
    apply withGuards_ok in Hrun as (course & w1 & _ & Hc & _ & _ & _ & Hw1 & Hbody).
    apply singleBody_ok in Hbody
      as (Hh & Hd & rs & pdf & es & Hres & Hpdf & Hes & Hfs & Hopen).
    rewrite (realpath_cacheFilePath E appRoot_absolute) in Hfs, Hopen.
    rewrite (zipped_onlyLookups w w1 _ _ Hw1) in Hfs.
    pose proof (hashOf_onlyLookups E w w1 Hw1) as Hh1.
    destruct Hw1 as (Hd1 & Hf1 & _).
    rewrite Hf1 in Hfs, Hopen. rewrite Hd1 in Hres, Hd.
    split; [congruence |]. split; [exact Hd |]. split; [exact Hopen |].
    eexists. split; [exact Hfs |]. right. split; [assumption |].
    exists course, rs, pdf, es. auto.
Qed.

(** C5: when an export endpoint succeeds with [hash], the hash is 32
    hexadecimal characters, and the archive is written as the file
    [download_<hash>.zip] of the cache folder: a regular file made at the
    time of the export, holding what the archiver made of the entries the
    endpoint added (those of [archiveEntries], or the attachments and the
    one PDF).  A [getArchivedFile] with that hash, in the world the export
    left or any other in which the file is still as written, passes the path
    check and the existence check and serves that file with that content;
    and in no world does that hash lead to [ForbiddenError]. *)
Theorem exported_archive_served (data : IDownload) (user : IUser)
    (w w' : World) (hash : string) (response : Response) :
  postDownloadRequestPDFIndividual E data user w = (Ok hash, w')
  \/ postDownloadRequestPDFSingle E data user w = (Ok hash, w') ->
  String.length hash = 32%nat
  /\ allChars isHexChar hash = true
  /\ cacheFilePath E hash = child (tmpDir E) ("download_" +:+ hash +:+ ".zip")
  /\ (exists entries,
        fs w' !! cacheFilePath E hash
        = Some {| isDirectory := false; ctimeMs := clock w;
                  content := archiver E (streamed w (cacheFilePath E hash)) entries |}
        /\ ((postDownloadRequestPDFIndividual E data user w = (Ok hash, w')
             /\ archiveEntries E (db w) data = Some entries)
            \/ (postDownloadRequestPDFSingle E data user w = (Ok hash, w')
                /\ exists course resolved pdf fileEntries,
                     Courses (db w) !! courseName data = Some course
                     /\ resolveRequest (db w) data = Some resolved
                     /\ htmlToPdf E (singleHtml E resolved) (optionsSingle course)
                        = Some pdf
                     /\ Forall isFileEntry fileEntries
                     /\ entries
                        = fileEntries
                          ++ [EntryBuffer pdf
                                (replaceCharInFilename (c_name course) +:+ ".pdf")]))
        /\ (forall w'',
              fs w'' !! cacheFilePath E hash = fs w' !! cacheFilePath E hash ->
              exists r,
                fst (getArchivedFile E hash response w'') = Ok r
                /\ r_file r = cacheFilePath E hash
                /\ r_body r
                   = archiver E (streamed w (cacheFilePath E hash)) entries))
  /\ (forall w'', fst (getArchivedFile E hash response w'') <> Throw ForbiddenError).
Proof.
  intros Hrun.
  destruct (exported_file data user w w' hash Hrun)
    as (Hh & _ & _ & entries & Hfs & Hwhich).
  destruct (hashOf_facts w) as (Hlen & Hhex). rewrite <- Hh in Hlen, Hhex.
  destruct (cacheFilePath_noSlash E appRoot_absolute hash (hex_noSlash _ Hhex))
    as (Hpath & _).
  assert (Hst : fs w' !! cacheFilePath E hash
                = Some (zipped E w (cacheFilePath E hash) entries))
    by (rewrite Hfs; apply lookup_insert_eq).
  split; [exact Hlen |]. split; [exact Hhex |]. split; [exact Hpath |].
  split; [| intros w''; now apply never_forbidden].
  exists entries. split; [exact Hst |]. split; [exact Hwhich |].
  intros w'' Hsame. rewrite Hst in Hsame.
  destruct (served_after_write hash w'' _ response Hhex Hsame eq_refl)
    as (r & Hr & Hfile & Hbody).
  exists r. auto.
Qed.

End Exported.

(** ** The regular expression of the sweep *)

Section Regex.
#[local] Arguments String.append !_ _ / : simpl nomatch.

Lemma stripPrefix_spec (pre s r : string) :
  stripPrefix pre s = Some r <-> s = pre +:+ r.
Proof.
  revert s. induction pre as [|a pre IH]; intros s; simpl.
  - split; [intros H; now injection H | intros ->; reflexivity].
  - destruct s as [|b s]; [split; discriminate |].
    destruct (Ascii.eqb_spec a b) as [->|Hne].
    + rewrite IH. split; [intros ->; reflexivity | intros H; now injection H].
    + split; [discriminate | intros H; injection H; congruence].
Qed.

Lemma startsWith_spec (pre s : string) :
  startsWith pre s = true <-> exists r, s = pre +:+ r.
Proof.
  unfold startsWith. destruct (stripPrefix pre s) as [r|] eqn:H.
  - apply stripPrefix_spec in H. split; [eauto | reflexivity].
  - split; [discriminate |]. intros [r Hr]. apply stripPrefix_spec in Hr.
    congruence.
Qed.

Lemma matchDotZip_spec (s : string) :
  matchDotZip s = true
  <-> exists d post, s = String d ("zip" +:+ post) /\ isLineTerminator d = false.
Proof.
  destruct s as [|d r]; simpl.
  - split; [discriminate | intros (d & post & H & _); discriminate].
  - rewrite andb_true_iff, negb_true_iff, startsWith_spec. split.
    + intros [Hd [post ->]]. eauto.
    + intros (d' & post & H & Hd). injection H as <- ->. eauto.
Qed.

Lemma matchWordsDotZip_spec (s : string) :
  matchWordsDotZip s = true
  <-> exists w d post,
        s = w +:+ String d ("zip" +:+ post)
        /\ w <> "" /\ allChars isWordChar w = true /\ isLineTerminator d = false.
Proof.
  induction s as [|c r IH].
  - simpl. split; [discriminate |].
    intros (w & d & post & H & _). destruct w; discriminate.
  - change (matchWordsDotZip (String c r))
      with (isWordChar c && (matchDotZip r || matchWordsDotZip r)).
    rewrite andb_true_iff, orb_true_iff, matchDotZip_spec, IH. split.
    + intros [Hc [(d & post & -> & Hd) | (w & d & post & -> & Hw & Hall & Hd)]].
      * exists (String c ""), d, post. simpl. rewrite Hc.
        repeat split; auto; discriminate.
      * exists (String c w), d, post. simpl. rewrite Hc, Hall.
        repeat split; auto; discriminate.
    + intros (w & d & post & H & Hw & Hall & Hd).
      destruct w as [|c' w]; [contradiction |].
      simpl in H. injection H as <- ->. simpl in Hall.
      apply andb_prop in Hall as [Hc Hall]. split; [exact Hc |].
      destruct w as [|c'' w].
      * left. exists d, post. auto.
      * right. exists (String c'' w), d, post. repeat split; auto; discriminate.
Qed.

Lemma matchHere_spec (s : string) :
  matchHere s = true
  <-> exists w d post,
        s = "download_" +:+ w +:+ String d ("zip" +:+ post)
        /\ w <> "" /\ allChars isWordChar w = true /\ isLineTerminator d = false.
Proof.
  unfold matchHere. destruct (stripPrefix "download_" s) as [r|] eqn:Hs.
  - apply stripPrefix_spec in Hs. rewrite matchWordsDotZip_spec. subst s. split.
    + intros (w & d & post & -> & H). exists w, d, post. split; [reflexivity | exact H].
    + intros (w & d & post & Heq & H). apply String.app_inj in Heq.
      exists w, d, post. split; [exact Heq | exact H].
  - split; [discriminate |]. intros (w & d & post & Heq & _).
    apply stripPrefix_spec in Heq. congruence.
Qed.

(** The matcher decides the pattern. *)
Lemma regexTest_spec (s : string) : regexTest s = true <-> matchesPattern s.
Proof.
  unfold matchesPattern. induction s as [|c r IH].
  - change (regexTest "") with (matchHere "" || false).
    rewrite orb_false_r, matchHere_spec. split.
    + intros (w & d & post & H & _). discriminate H.
    + intros (pre & w & d & post & H & _). destruct pre; discriminate H.
  - change (regexTest (String c r)) with (matchHere (String c r) || regexTest r).
    rewrite orb_true_iff, matchHere_spec, IH. split.
    + intros [(w & d & post & H & Hr) | (pre & w & d & post & H & Hr)].
      * exists "", w, d, post. split; [exact H | exact Hr].
      * exists (String c pre), w, d, post. split; [now rewrite H | exact Hr].
    + intros (pre & w & d & post & H & Hr). destruct pre as [|c' pre].
      * left. exists w, d, post. split; [exact H | exact Hr].
      * right. simpl in H. injection H as <- ->.
        exists pre, w, d, post. split; [reflexivity | exact Hr].
Qed.

End Regex.

(** ** The sweep of the cache *)

Section Sweep.
Context (E : Env).
Hypothesis appRoot_absolute : Path.isAbsolute (appRoot E) = true.

Import Path PathFacts.

Lemma cleanupCache_unfold :
  cleanupCache E =
  (now <- Date_now ;;
   files <- readdirSync E (config.tmpFileCacheFolder E) ;;
   forOf files (sweepFile E (now - 3600 * 1000)) tt).
Proof. reflexivity. Qed.

Lemma trailingSeparator_plain (n : string) :
  isPlain n = true -> trailingSeparator n = false.
Proof.
  intros Hn. apply isPlain_noSlash in Hn. induction n as [|c n IH]; [reflexivity |].
  rewrite noSlash_cons in Hn. apply andb_prop in Hn as [Hc Hn].
  apply negb_true_iff in Hc. simpl. destruct n; [exact Hc | now apply IH].
Qed.

Lemma join_entry (n : string) :
  isPlain n = true -> join (config.tmpFileCacheFolder E) n = child (tmpDir E) n.
Proof.
  intros Hn. pose proof (tmpFolder_absolute E appRoot_absolute) as Habs.
  pose proof (isPlain_nonempty n Hn) as Hne.
  set (a := config.tmpFileCacheFolder E) in *.
  unfold tmpDir. fold a. rewrite (resolve_absolute _ a Habs).
  set (S0 := foldl (normalizeStep false) [] (split a)).
  assert (HS0 : Forall (fun s => isPlain s = true) (rev S0)).
  { apply List.Forall_rev, foldl_false_plain; [constructor | apply split_segments]. }
  rewrite child_absPath by assumption.
  unfold join. destruct (decide (a = "")) as [Ha|_];
    [rewrite Ha in Habs; discriminate |].
  destruct (decide (n = "")) as [?|_]; [contradiction |].
  unfold normalize.
  destruct (decide (a +:+ "/" +:+ n = "")) as [Heq|_].
  { apply app_eq_empty in Heq as [_ Heq]. discriminate Heq. }
  assert (Habs' : isAbsolute (a +:+ "/" +:+ n) = true).
  { destruct a; [discriminate | exact Habs]. }
  rewrite Habs'. simpl negb. cbv zeta.
  assert (Hnorm : normalizeString (a +:+ "/" +:+ n) false
                  = joinWith (rev S0 ++ [n])).
  { unfold normalizeString. change ("/" +:+ n) with (String "/" n).
    rewrite split_app_sep, foldl_step_app, (split_noSlash n)
      by now apply isPlain_noSlash.
    simpl. fold S0. now rewrite isPlain_step. }
  rewrite Hnorm.
  assert (Htr : trailingSeparator (a +:+ "/" +:+ n) = false).
  { change ("/" +:+ n) with (String "/" n).
    rewrite trailingSeparator_app by discriminate.
    simpl. destruct n; [contradiction |]. now apply trailingSeparator_plain. }
  rewrite Htr.
  destruct (decide (joinWith (rev S0 ++ [n]) = "")) as [Heq|_]; [| reflexivity].
  exfalso. revert Heq. apply joinWith_nonempty.
  - destruct (rev S0); discriminate.
  - apply Forall_app. split; [assumption | now constructor].
Qed.

Lemma realpath_child (n : string) :
  isPlain n = true -> realpath E (child (tmpDir E) n) = child (tmpDir E) n.
Proof.
  intros Hn. destruct (tmpDir_shape E appRoot_absolute) as (tsegs & Hts & ->).
  rewrite child_absPath by assumption. apply resolve_absPath.
  apply Forall_app. split; [assumption | now constructor].
Qed.

Lemma child_inj (dir n n' : string) : child dir n = child dir n' -> n = n'.
Proof.
  unfold child. destruct (decide (dir = "/")).
  - intros H. now apply String.app_inj in H.
  - intros H. apply String.app_inj in H. now apply String.app_inj in H.
Qed.

Lemma entryOf_Some (dir p n : string) :
  entryOf dir p = Some n -> isPlain n = true /\ p = child dir n.
Proof.
  unfold entryOf. destruct (isEntryName (basename p)) eqn:Hn; [| discriminate].
  simpl. case_bool_decide as Hp; [| discriminate].
  intros H. injection H as <-. split; [| exact Hp].
  unfold isPlain. rewrite Hn. simpl.
  unfold basename. pose proof (split_segments p) as Hall.
  pose proof (split_nonempty p) as Hne.
  destruct (exists_last Hne) as (init & lst & Heq). rewrite Heq in *.
  rewrite last_last. apply Forall_app in Hall as [_ Hl]. now inversion Hl.
Qed.

Lemma sweptName_none (dir : string) (ns : list string) (p : string) :
  (forall n, n ∈ ns -> p <> child dir n) -> sweptName dir ns p = false.
Proof.
  intros H. unfold sweptName. induction ns as [|n ns IH]; [reflexivity |].
  simpl. rewrite bool_decide_eq_false_2 by (apply H; constructor).
  simpl. apply IH. intros n' Hn'. apply H. now constructor.
Qed.

Lemma sweptName_one (dir : string) (ns : list string) (n : string) :
  n ∈ ns -> sweptName dir ns (child dir n) = regexTest n.
Proof.
  intros Hin. unfold sweptName. induction ns as [|m ns IH]; [inversion Hin |].
  simpl. destruct (decide (m = n)) as [->|Hne].
  - rewrite bool_decide_eq_true_2 by reflexivity. simpl.
    destruct (regexTest n) eqn:Hr; [reflexivity |]. simpl.
    clear IH Hin. induction ns as [|k ns IH]; [reflexivity |].
    simpl. case_bool_decide as Hk.
    + apply child_inj in Hk. subst k. now rewrite Hr.
    + exact IH.
  - rewrite bool_decide_eq_false_2; [simpl; apply IH |].
    + apply elem_of_cons in Hin as [?|?]; [congruence | assumption].
    + intros Hc. apply child_inj in Hc. congruence.
Qed.

(** One turn of the loop: nothing changes for a name that does not match
    or is not old enough; the file of a matching name that is too old is
    gone; at a folder of such a name the turn ends in [EISDIR]. *)
Lemma sweepFile_run (expire : Z) (n : string) (w : World) (st : Stats) :
  isPlain n = true -> fs w !! child (tmpDir E) n = Some st ->
  if regexTest n && (ctimeMs st <? expire)%Z
  then
    if isDirectory st
    then exists w', sweepFile E expire tt n w = (Throw EISDIR, w')
                    /\ db w' = db w /\ clock w' = clock w /\ fs w' = fs w
    else exists w', sweepFile E expire tt n w = (Ok tt, w')
                    /\ db w' = db w /\ clock w' = clock w
                    /\ fs w' = delete (child (tmpDir E) n) (fs w)
  else exists w', sweepFile E expire tt n w = (Ok tt, w')
                  /\ db w' = db w /\ clock w' = clock w /\ fs w' = fs w.
Proof.
  intros Hn Hst. unfold sweepFile.
  destruct (regexTest n); simpl; [| exists w; repeat split].
  rewrite (join_entry n Hn). run_monad. rewrite !(realpath_child n Hn), Hst.
  simpl. rewrite Z.geb_leb, Z.ltb_antisym.
  destruct (expire <=? ctimeMs st)%Z; simpl.
  - eexists. repeat split.
  - rewrite Hst. destruct (isDirectory st); eexists; repeat split.
Qed.

(** The loop over the names of the folder *)
Lemma sweep_loop (expire : Z) (ns : list string) (w : World) :
  NoDup ns -> (forall n, n ∈ ns -> isPlain n = true) ->
  (forall n, n ∈ ns -> is_Some (fs w !! child (tmpDir E) n)) ->
  match forOf ns (sweepFile E expire) tt w with
  | (Ok _, w') =>
      (forall n st, n ∈ ns -> fs w !! child (tmpDir E) n = Some st ->
                    regexTest n && (ctimeMs st <? expire)%Z = true ->
                    isDirectory st = false)
      /\ forall p,
           fs w' !! p =
           match fs w !! p with
           | Some st => if sweptName (tmpDir E) ns p && (ctimeMs st <? expire)%Z
                        then None else Some st
           | None => None
           end
  | (Throw e, w') =>
      e = EISDIR
      /\ (exists n st, n ∈ ns /\ fs w !! child (tmpDir E) n = Some st
                       /\ regexTest n && (ctimeMs st <? expire)%Z = true
                       /\ isDirectory st = true)
      /\ forall p,
           fs w' !! p = fs w !! p
           \/ (fs w' !! p = None
               /\ exists st, fs w !! p = Some st
                             /\ sweptName (tmpDir E) ns p
                                && (ctimeMs st <? expire)%Z = true
                             /\ isDirectory st = false)
  | (Pending, _) => False
  end.
Proof.
  revert w. induction ns as [|n ns IH]; intros w Hnd Hplain Hex.
  - simpl. split; [intros n st Hin; inversion Hin |].
    intros p. now destruct (fs w !! p).
  - apply NoDup_cons in Hnd as [Hnin Hnd].
    destruct (Hex n ltac:(constructor)) as [st Hst].
    pose proof (sweepFile_run expire n w st (Hplain n ltac:(constructor)) Hst)
      as Hturn.
    assert (Hother : forall n', n' ∈ ns ->
              child (tmpDir E) n' <> child (tmpDir E) n).
    { intros n' Hin Heq. apply child_inj in Heq. congruence. }
    simpl forOf. rewrite bind_run.
    destruct (regexTest n && (ctimeMs st <? expire)%Z) eqn:Hb.
    + destruct (isDirectory st) eqn:Hd.
      * destruct Hturn as (w1 & -> & _ & _ & Hfs1).
        split; [reflexivity |]. split.
        -- exists n, st. split; [constructor |]. auto.
        -- intros p. left. now rewrite Hfs1.
      * destruct Hturn as (w1 & -> & _ & _ & Hfs1).
        assert (Hrest : forall n', n' ∈ ns ->
                  fs w1 !! child (tmpDir E) n' = fs w !! child (tmpDir E) n').
        { intros n' Hin. rewrite Hfs1.
          apply lookup_delete_ne, not_eq_sym, Hother, Hin. }
        specialize (IH w1 Hnd).
        destruct (forOf ns (sweepFile E expire) tt w1) as [[[]|e|] w'].
        -- destruct IH as (Hfiles & Hfs).
           { intros n' Hin. apply Hplain. now constructor. }
           { intros n' Hin. rewrite (Hrest n' Hin). apply Hex. now constructor. }
           split.
           ++ intros n' st' Hin Hst' Hb'.
              apply elem_of_cons in Hin as [->|Hin].
              ** congruence.
              ** apply (Hfiles n' st' Hin); [| exact Hb'].
                 now rewrite (Hrest n' Hin).
           ++ intros p. rewrite Hfs, Hfs1. unfold sweptName at 2. simpl existsb.
              fold (sweptName (tmpDir E) ns p).
              destruct (decide (p = child (tmpDir E) n)) as [->|Hp].
              ** rewrite lookup_delete_eq, Hst.
                 rewrite bool_decide_eq_true_2 by reflexivity.
                 apply andb_prop in Hb as [Hre Hold]. now rewrite Hre, Hold.
              ** rewrite lookup_delete_ne by (apply not_eq_sym, Hp).
                 now rewrite (bool_decide_eq_false_2 _ Hp).
        -- destruct IH as (-> & (n' & st' & Hin & Hst' & Hb' & Hd') & Hfs).
           { intros n' Hin. apply Hplain. now constructor. }
           { intros n' Hin. rewrite (Hrest n' Hin). apply Hex. now constructor. }
           split; [reflexivity |]. split.
           ++ exists n', st'. split; [now constructor |].
              rewrite <- (Hrest n' Hin). auto.
           ++ intros p. unfold sweptName. simpl existsb.
              fold (sweptName (tmpDir E) ns p).
              destruct (decide (p = child (tmpDir E) n)) as [->|Hp].
              ** right. split.
                 { destruct (Hfs (child (tmpDir E) n)) as [Hsame|[Hnone _]];
                     [| exact Hnone].
                   rewrite Hsame, Hfs1. apply lookup_delete_eq. }
                 exists st. split; [exact Hst |].
                 rewrite bool_decide_eq_true_2 by reflexivity.
                 apply andb_prop in Hb as [Hre Hold]. rewrite Hre, Hold.
                 auto.
              ** rewrite (bool_decide_eq_false_2 _ Hp). simpl.
                 destruct (Hfs p) as [Hsame|(Hnone & st2 & Hst2 & Hsw & Hd2)].
                 { left. rewrite Hsame, Hfs1.
                   apply lookup_delete_ne, not_eq_sym, Hp. }
                 right. split; [exact Hnone |]. exists st2.
                 rewrite Hfs1, lookup_delete_ne in Hst2
                   by (apply not_eq_sym, Hp). auto.
        -- apply IH.
           { intros n' Hin. apply Hplain. now constructor. }
           { intros n' Hin. rewrite (Hrest n' Hin). apply Hex. now constructor. }
    + destruct Hturn as (w1 & -> & _ & _ & Hfs1).
      specialize (IH w1 Hnd). rewrite Hfs1 in IH.
      destruct (forOf ns (sweepFile E expire) tt w1) as [[[]|e|] w'].
      * destruct IH as (Hfiles & Hfs).
        { intros n' Hin. apply Hplain. now constructor. }
        { intros n' Hin. apply Hex. now constructor. }
        split.
        -- intros n' st' Hin Hst' Hb'.
           apply elem_of_cons in Hin as [->|Hin]; [congruence | eauto].
        -- intros p. rewrite Hfs. unfold sweptName at 2. simpl existsb.
           fold (sweptName (tmpDir E) ns p).
           destruct (fs w !! p) as [st'|] eqn:Hst'; [| reflexivity].
           destruct (decide (p = child (tmpDir E) n)) as [->|Hp].
           ++ rewrite bool_decide_eq_true_2 by reflexivity.
              rewrite (sweptName_none (tmpDir E) ns)
                by (intros n' Hin; apply not_eq_sym, Hother, Hin).
              assert (st' = st) as -> by congruence.
              destruct (regexTest n) eqn:Hre; simpl in *; [now rewrite Hb |].
              reflexivity.
           ++ now rewrite (bool_decide_eq_false_2 _ Hp).
      * destruct IH as (-> & (n' & st' & Hin & Hst' & Hb' & Hd') & Hfs).
        { intros n' Hin. apply Hplain. now constructor. }
        { intros n' Hin. apply Hex. now constructor. }
        split; [reflexivity |]. split.
        -- exists n', st'. split; [now constructor | auto].
        -- intros p. destruct (Hfs p) as [Hsame|(Hnone & st2 & Hst2 & Hsw & Hd2)];
             [now left |].
           right. split; [exact Hnone |]. exists st2. split; [exact Hst2 |].
           split; [| exact Hd2]. unfold sweptName. simpl existsb.
           fold (sweptName (tmpDir E) ns p).
           apply andb_prop in Hsw as [Hsw Hold]. now rewrite Hsw, orb_true_r, Hold.
      * apply IH.
        { intros n' Hin. apply Hplain. now constructor. }
        { intros n' Hin. apply Hex. now constructor. }
Qed.


Lemma NoDup_omap_entryOf (dir : string) (qs : list string) :
  NoDup qs -> NoDup (omap (entryOf dir) qs).
Proof.
  induction 1 as [|q qs Hq Hnd IH]; simpl; [constructor |].
  destruct (entryOf dir q) as [n|] eqn:Hn; [| exact IH].
  constructor; [| exact IH]. intros Hin.
  apply list_elem_of_omap in Hin as (q' & Hq' & Hn').
  apply entryOf_Some in Hn as [_ ->]. apply entryOf_Some in Hn' as [_ ->].
  contradiction.
Qed.

(** The names [readdirSync] gives for the cache folder *)
Lemma listed_names (w : World) (n : string) :
  n ∈ omap (entryOf (tmpDir E)) (fst <$> map_to_list (fs w))
  <-> entryOf (tmpDir E) (child (tmpDir E) n) = Some n
      /\ is_Some (fs w !! child (tmpDir E) n).
Proof.
  split.
  - intros Hin. apply list_elem_of_omap in Hin as (q & Hq & Hn).
    pose proof (entryOf_Some _ _ _ Hn) as [_ ->]. split; [exact Hn |].
    apply list_elem_of_fmap in Hq as ([q' st] & Heq & Hq). simpl in Heq. subst q'.
    apply elem_of_map_to_list in Hq. eauto.
  - intros [Hn [st Hst]]. apply list_elem_of_omap.
    exists (child (tmpDir E) n). split; [| exact Hn].
    apply list_elem_of_fmap. exists (child (tmpDir E) n, st).
    split; [reflexivity |]. now apply elem_of_map_to_list.
Qed.

Lemma swept_expired (w : World) (now : Z) (p : string) (st : Stats) :
  fs w !! p = Some st ->
  sweptName (tmpDir E) (omap (entryOf (tmpDir E)) (fst <$> map_to_list (fs w))) p
  && (ctimeMs st <? now - 3600 * 1000)%Z
  = expired E now p st.
Proof.
  intros Hst. unfold expired. fold (tmpDir E).
  destruct (entryOf (tmpDir E) p) as [name|] eqn:Hent.
  - pose proof (entryOf_Some _ _ _ Hent) as [_ Hp]. subst p.
    rewrite sweptName_one; [reflexivity |].
    apply listed_names. split; [exact Hent | eauto].
  - rewrite sweptName_none; [reflexivity |].
    intros n Hin ->. apply listed_names in Hin as [Hn _]. congruence.
Qed.

(** Every way through [cleanupCache] *)
Lemma cleanupCache_run (w : World) :
  match cleanupCache E w with
  | (Ok _, w') =>
      isDir (fs w) (tmpDir E) = true
      /\ (forall p st, fs w !! p = Some st -> expired E (clock w) p st = true ->
                       isDirectory st = false)
      /\ forall p,
           fs w' !! p =
           match fs w !! p with
           | Some st => if expired E (clock w) p st then None else Some st
           | None => None
           end
  | (Throw e, w') =>
      (isDir (fs w) (tmpDir E) = false /\ (e = ENOENT \/ e = ENOTDIR)
       /\ fs w' = fs w)
      \/ (isDir (fs w) (tmpDir E) = true /\ e = EISDIR
          /\ (exists p st, fs w !! p = Some st /\ expired E (clock w) p st = true
                           /\ isDirectory st = true)
          /\ forall p,
               fs w' !! p = fs w !! p
               \/ (fs w' !! p = None
                   /\ exists st, fs w !! p = Some st
                                 /\ expired E (clock w) p st = true
                                 /\ isDirectory st = false))
  | (Pending, _) => False
  end.
Proof.
  rewrite cleanupCache_unfold. unfold readdirSync, isDir. run_monad.
  change (realpath E (config.tmpFileCacheFolder E)) with (tmpDir E).
  destruct (fs w !! tmpDir E) as [s|] eqn:Hs; simpl;
    [| left; split; [reflexivity |]; split; [now left | reflexivity]].
  destruct (isDirectory s) eqn:Hd; simpl;
    [| left; split; [reflexivity |]; split; [now right | reflexivity]].
  set (names := omap (entryOf (tmpDir E)) (fst <$> map_to_list (fs w))).
  set (w0 := {| db := db w; fs := fs w; clock := clock w; drawn := drawn w;
                log := log w ++ [EvReaddirSync (config.tmpFileCacheFolder E)] |}).
  pose proof (sweep_loop (clock w - 3600 * 1000) names w0) as Hloop.
  assert (Hplain : forall n, n ∈ names -> isPlain n = true).
  { intros n Hin. apply listed_names in Hin as [Hn _].
    now apply entryOf_Some in Hn as [Hp _]. }
  assert (Hex : forall n, n ∈ names -> is_Some (fs w0 !! child (tmpDir E) n)).
  { intros n Hin. now apply listed_names in Hin as [_ Hn]. }
  specialize (Hloop (NoDup_omap_entryOf _ _ (NoDup_fst_map_to_list _)) Hplain Hex).
  change (fs w0) with (fs w) in Hloop.
  destruct (forOf names (sweepFile E (clock w - 3600 * 1000)) tt w0)
    as [[[]|e|] w']; [| | contradiction].
  - destruct Hloop as (Hfiles & Hfs). split; [reflexivity |]. split.
    + intros p st Hst Hexp. rewrite <- (swept_expired w _ p st Hst) in Hexp.
      fold names in Hexp. unfold expired in *.
      apply andb_prop in Hexp as [Hsw Hold].
      unfold sweptName in Hsw. apply existsb_exists in Hsw as (n & Hin & Hn).
      apply andb_prop in Hn as [Hp Hre]. apply bool_decide_eq_true in Hp. subst p.
      apply (Hfiles n st); [now apply list_elem_of_In | exact Hst |].
      now rewrite Hre, Hold.
    + intros p. rewrite Hfs. destruct (fs w !! p) as [st|] eqn:Hst; [| reflexivity].
      fold names. now rewrite <- (swept_expired w (clock w) p st Hst).
  - destruct Hloop as (-> & (n & st & Hin & Hst & Hb & Hdir) & Hfs).
    right. split; [reflexivity |]. split; [reflexivity |]. split.
    + exists (child (tmpDir E) n), st. split; [exact Hst |]. split; [| exact Hdir].
      rewrite <- (swept_expired w _ _ st Hst). fold names.
      rewrite (sweptName_one _ _ _ Hin). exact Hb.
    + intros p. destruct (Hfs p) as [Hsame|(Hnone & st2 & Hst2 & Hsw & Hd2)];
        [now left |].
      right. split; [exact Hnone |]. exists st2. split; [exact Hst2 |].
      split; [| exact Hd2]. now rewrite <- (swept_expired w _ p st2 Hst2).
Qed.

(** On a cache folder without an expired folder of a matching name the
    sweep goes through. *)
Lemma cleanupCache_ok (w : World) :
  isDir (fs w) (tmpDir E) = true ->
  (forall p st, fs w !! p = Some st -> expired E (clock w) p st = true ->
                isDirectory st = false) ->
  exists w',
    cleanupCache E w = (Ok tt, w')
    /\ forall p, fs w' !! p =
                 match fs w !! p with
                 | Some st => if expired E (clock w) p st then None else Some st
                 | None => None
                 end.
Proof.
  intros Hdir Hfiles. pose proof (cleanupCache_run w) as Hrun.
  destruct (cleanupCache E w) as [[[]|e|] w']; [| | contradiction].
  - exists w'. split; [reflexivity | apply Hrun].
  - destruct Hrun as [(Hnd & _)|(_ & _ & (p & st & Hst & Hexp & Hd) & _)].
    + congruence.
    + rewrite (Hfiles p st Hst Hexp) in Hd. discriminate.
Qed.

(** Whatever the sweep deletes is an expired regular file of a matching
    name. *)
Lemma cleanupCache_frame (w : World) (p : string) :
  fs (snd (cleanupCache E w)) !! p = fs w !! p
  \/ (fs (snd (cleanupCache E w)) !! p = None
      /\ exists st, fs w !! p = Some st
                    /\ expired E (clock w) p st = true
                    /\ isDirectory st = false).
Proof.
  pose proof (cleanupCache_run w) as Hrun.
  destruct (cleanupCache E w) as [[[]|e|] w']; [| | contradiction]; simpl.
  - destruct Hrun as (_ & Hfiles & Hfs). rewrite Hfs.
    destruct (fs w !! p) as [st|] eqn:Hst; [| now left].
    destruct (expired E (clock w) p st) eqn:Hexp; [| now left].
    right. split; [reflexivity |]. exists st. eauto.
  - destruct Hrun as [(_ & _ & Hfs)|(_ & _ & _ & Hfs)].
    + left. now rewrite Hfs.
    + apply Hfs.
Qed.

(** C4, amended: on a cache folder that is there and holds no folder whose
    name matches [download_(\w+).zip] and whose change time lies more than
    one hour ([3600 * 1000] ms) before the sweep, a run of [cleanupCache]
    ends without an error and deletes exactly the entries of the cache
    folder with such a name and such a change time; every other file,
    whether its name does not match or it is not that old, is left as it
    was.  In every run, whatever is deleted is a regular file of that kind
    and every other file is left as it was.  Without the cache folder the
    run throws and deletes nothing; at a folder of that kind it throws
    [EISDIR]. *)
Theorem cleanupCache_sweeps (w : World) :
  (isDir (fs w) (tmpDir E) = true ->
   (forall p st, fs w !! p = Some st -> expired E (clock w) p st = true ->
                 isDirectory st = false) ->
   exists w',
     cleanupCache E w = (Ok tt, w')
     /\ forall p, fs w' !! p =
                  match fs w !! p with
                  | Some st => if expired E (clock w) p st then None else Some st
                  | None => None
                  end)
  /\ (forall p,
        fs (snd (cleanupCache E w)) !! p = fs w !! p
        \/ (fs (snd (cleanupCache E w)) !! p = None
            /\ exists st, fs w !! p = Some st
                          /\ expired E (clock w) p st = true
                          /\ isDirectory st = false))
  /\ (isDir (fs w) (tmpDir E) = false ->
      exists e w', cleanupCache E w = (Throw e, w')
                   /\ (e = ENOENT \/ e = ENOTDIR) /\ fs w' = fs w)
  /\ (isDir (fs w) (tmpDir E) = true ->
      (exists p st, fs w !! p = Some st /\ expired E (clock w) p st = true
                    /\ isDirectory st = true) ->
      exists w', cleanupCache E w = (Throw EISDIR, w'))
  /\ (forall p st, expired E (clock w) p st = true <->
        exists name,
          isPlain name = true /\ p = child (tmpDir E) name
          /\ entryOf (tmpDir E) p = Some name
          /\ matchesPattern name
          /\ (ctimeMs st < clock w - 3600 * 1000)%Z).
Proof.
  pose proof (cleanupCache_run w) as Hrun.
  split; [apply cleanupCache_ok |].
  split; [apply cleanupCache_frame |].
  split; [| split].
  - intros Hnd.
    destruct (cleanupCache E w) as [[[]|e|] w']; [| | contradiction].
    + destruct Hrun as (Hdir & _). congruence.
    + destruct Hrun as [(_ & He & Hfs)|(Hdir & _)]; [| congruence].
      exists e, w'. auto.
  - intros Hdir (p & st & Hst & Hexp & Hd).
    destruct (cleanupCache E w) as [[[]|e|] w']; [| | contradiction].
    + destruct Hrun as (_ & Hfiles & _).
      rewrite (Hfiles p st Hst Hexp) in Hd. discriminate.
    + destruct Hrun as [(Hnd & _)|(_ & -> & _)]; [congruence |].
      exists w'. reflexivity.
  - intros p st. unfold expired. fold (tmpDir E).
    destruct (entryOf (tmpDir E) p) as [name|] eqn:Hent.
    + rewrite andb_true_iff, regexTest_spec, Z.ltb_lt.
      pose proof (entryOf_Some _ _ _ Hent) as [Hplain Hp]. split.
      * intros [Hm Hold]. exists name. auto.
      * intros (name' & _ & _ & Heq & Hm & Hold). injection Heq as <-. auto.
    + split; [discriminate |]. intros (name & _ & _ & Heq & _). discriminate.
Qed.

End Sweep.

(** ** Progress and deadlines *)

Section Progress.
Context (E : Env).

(** C10, amended: for a unit of an existing course whose deadline is set
    and lies strictly in the past, [updateProgress] throws
    [BadRequestError] for a user who may view the unit's course and
    [ForbiddenError] for a user who may not, the check of the privileges
    coming first; in both cases the progress records are what they were. *)
Theorem updateProgress_past_deadline (data : ProgressData) (currentUser : IUser)
    (w : World) (unit : Unit) (course : ICourse) (d : string) (t : Z) :
  Units (db w) !! d_unit data = Some unit ->
  Courses (db w) !! u_course unit = Some course ->
  u_deadline unit = Some d -> d <> "" ->
  momentValue E d = Some t -> (t < clock w)%Z ->
  (userCanViewCourse E course currentUser = true ->
     fst (updateProgress E data currentUser w) = Throw BadRequestError)
  /\ (userCanViewCourse E course currentUser = false ->
        fst (updateProgress E data currentUser w) = Throw ForbiddenError)
  /\ Progresses (db (snd (updateProgress E data currentUser w)))
     = Progresses (db w).
Proof.
  intros Hu Hc Hd Hne Hm Ht.
  unfold updateProgress, checkDeadline, isBeforeNow. run_monad.
  rewrite Hu. simpl. rewrite Hc. simpl.
  destruct (userCanViewCourse E course currentUser); simpl.
  - rewrite Hd. rewrite decide_False by assumption. run_monad.
    rewrite Hm. apply Z.ltb_lt in Ht. rewrite Ht. simpl.
    split; [reflexivity |]. split; [discriminate | reflexivity].
  - split; [discriminate |]. split; reflexivity.
Qed.

End Progress.

(** ** The names [replaceCharInFilename] returns *)

Section Filenames.
#[local] Arguments Ascii.eqb : simpl never.
#[local] Arguments isAlnum : simpl never.

Lemma startsWith_dash (r : string) :
  startsWith "-" r = match r with String c _ => Ascii.eqb "-" c | EmptyString => false end.
Proof.
  destruct r as [|c r]; [reflexivity |].
  unfold startsWith. simpl. destruct (Ascii.eqb "-" c); reflexivity.
Qed.

Lemma removeSpecial_chars (s : string) :
  allChars (fun c => isAlnum c || Ascii.eqb c " " || Ascii.eqb c "-")
           (removeSpecial s) = true.
Proof.
  induction s as [|c r IH]; [reflexivity |]. simpl.
  destruct (isAlnum c || Ascii.eqb c " " || Ascii.eqb c "-") eqn:Hk;
    [simpl; now rewrite Hk | exact IH].
Qed.

Lemma spacesToDashes_chars (s : string) :
  allChars (fun c => isAlnum c || Ascii.eqb c " " || Ascii.eqb c "-") s = true ->
  allChars isFilenameChar (spacesToDashes s) = true.
Proof.
  induction s as [|c r IH]; [reflexivity |]. simpl.
  intros [Hc Hr]%andb_true_iff. rewrite (IH Hr), andb_true_r.
  destruct (Ascii.eqb c " ") eqn:Hsp; [reflexivity |].
  unfold isFilenameChar. rewrite orb_false_r in Hc. exact Hc.
Qed.

Lemma collapseDashes_chars (P : ascii -> bool) (s : string) :
  allChars P s = true -> allChars P (collapseDashes s) = true.
Proof.
  induction s as [|c r IH]; [reflexivity |]. simpl.
  intros [Hc Hr]%andb_true_iff.
  destruct (Ascii.eqb c "-" && startsWith "-" r); [now apply IH |].
  simpl. now rewrite Hc, IH.
Qed.

Lemma collapseDashes_head (r : string) :
  startsWith "-" (collapseDashes r) = startsWith "-" r.
Proof.
  induction r as [|c r IH]; [reflexivity |]. simpl.
  destruct (Ascii.eqb c "-" && startsWith "-" r) eqn:Hb.
  - rewrite IH. apply andb_true_iff in Hb as [Hc Hr]. rewrite Hr.
    rewrite startsWith_dash. now rewrite Ascii.eqb_sym.
  - rewrite !startsWith_dash. reflexivity.
Qed.

Lemma collapseDashes_noDoubleDash (s : string) :
  noDoubleDash (collapseDashes s) = true.
Proof.
  induction s as [|c r IH]; [reflexivity |]. simpl.
  destruct (Ascii.eqb c "-" && startsWith "-" r) eqn:Hb; [exact IH |].
  simpl. now rewrite collapseDashes_head, Hb, IH.
Qed.

Lemma replaceCharInFilename_chars_aux (filename : string) :
  allChars isFilenameChar (replaceCharInFilename filename) = true.
Proof.
  unfold replaceCharInFilename.
  apply collapseDashes_chars, spacesToDashes_chars, removeSpecial_chars.
Qed.

Lemma isFilenameChar_not_space (c : ascii) :
  isFilenameChar c = true -> Ascii.eqb c " " = false.
Proof.
  destruct (Ascii.eqb c " ") eqn:Hsp; [| reflexivity].
  apply Ascii.eqb_eq in Hsp. subst c. vm_compute. discriminate.
Qed.

Lemma replaceCharInFilename_fixed (s : string) :
  allChars isFilenameChar s = true -> noDoubleDash s = true ->
  replaceCharInFilename s = s.
Proof.
  intros Hc Hd. unfold replaceCharInFilename.
  assert (H1 : removeSpecial s = s).
  { clear Hd. induction s as [|c r IH]; [reflexivity |]. simpl in *.
    apply andb_true_iff in Hc as [Hc Hr].
    unfold isFilenameChar in Hc. apply orb_true_iff in Hc.
    replace (isAlnum c || Ascii.eqb c " " || Ascii.eqb c "-") with true.
    - now rewrite IH.
    - symmetry. destruct Hc as [-> | ->]; [reflexivity | apply orb_true_r]. }
  assert (H2 : spacesToDashes s = s).
  { clear Hd H1. induction s as [|c r IH]; [reflexivity |]. simpl in *.
    apply andb_true_iff in Hc as [Hc Hr].
    now rewrite (isFilenameChar_not_space c Hc), IH. }
  assert (H3 : collapseDashes s = s).
  { clear Hc H1 H2. induction s as [|c r IH]; [reflexivity |]. simpl in *.
    apply andb_true_iff in Hd as [Hd Hr]. apply negb_true_iff in Hd.
    now rewrite Hd, IH. }
  now rewrite H1, H2, H3.
Qed.

Lemma replaceCharInFilename_noSlash (filename : string) :
  noSlash (replaceCharInFilename filename) = true.
Proof.
  pose proof (replaceCharInFilename_chars_aux filename) as H.
  unfold noSlash. induction (replaceCharInFilename filename) as [|c r IH];
    [reflexivity |].
  simpl in *. apply andb_true_iff in H as [Hc Hr]. rewrite (IH Hr), andb_true_r.
  unfold Path.isPosixPathSeparator.
  destruct (Ascii.eqb c "/") eqn:Hs; [| reflexivity].
  apply Ascii.eqb_eq in Hs. subst c. vm_compute in Hc. discriminate.
Qed.

(** X1: a name cleaned by [replaceCharInFilename] holds only letters,
    digits and dashes; in particular it holds no space, no dot and no path
    separator. *)
Theorem replaceCharInFilename_chars (filename : string) :
  allChars isFilenameChar (replaceCharInFilename filename) = true
  /\ noSlash (replaceCharInFilename filename) = true.
Proof.
  split; [apply replaceCharInFilename_chars_aux | apply replaceCharInFilename_noSlash].
Qed.

(** X2: in a name cleaned by [replaceCharInFilename] no dash follows a
    dash. *)
Theorem replaceCharInFilename_single_dashes (filename : string) :
  noDoubleDash (replaceCharInFilename filename) = true.
Proof. apply collapseDashes_noDoubleDash. Qed.

(** X3: [replaceCharInFilename] is idempotent: cleaning a cleaned name
    changes nothing. *)
Theorem replaceCharInFilename_idempotent (filename : string) :
  replaceCharInFilename (replaceCharInFilename filename)
  = replaceCharInFilename filename.
Proof.
  apply replaceCharInFilename_fixed;
    [apply replaceCharInFilename_chars_aux | apply collapseDashes_noDoubleDash].
Qed.

(** X4: [replaceCharInFilename] returns a name unchanged exactly when the
    name holds only letters, digits and dashes and no dash follows a
    dash. *)
Theorem replaceCharInFilename_unchanged_iff (filename : string) :
  replaceCharInFilename filename = filename
  <-> allChars isFilenameChar filename = true /\ noDoubleDash filename = true.
Proof.
  split.
  - intros H. rewrite <- H. split;
      [apply replaceCharInFilename_chars_aux | apply collapseDashes_noDoubleDash].
  - intros [Hc Hd]. now apply replaceCharInFilename_fixed.
Qed.

Lemma collapseDashes_empty (s : string) : collapseDashes s = "" -> s = "".
Proof.
  induction s as [|c r IH]; [reflexivity |]. simpl.
  destruct (Ascii.eqb c "-" && startsWith "-" r) eqn:Hb; [| discriminate].
  intros H. apply IH in H. subst r. rewrite andb_false_r in Hb. discriminate.
Qed.

(** X5: [replaceCharInFilename] returns the empty string exactly when every
    character of the name is one it removes (neither a letter of
    [a-zA-Z], a digit, a space nor a dash). *)
Theorem replaceCharInFilename_empty_iff (filename : string) :
  replaceCharInFilename filename = "" <-> allChars isSpecialChar filename = true.
Proof.
  unfold replaceCharInFilename. split.
  - intros H. apply collapseDashes_empty in H.
    assert (H' : removeSpecial filename = "")
      by (destruct (removeSpecial filename); [reflexivity | discriminate H]).
    clear H. induction filename as [|c r IH]; [reflexivity |].
    simpl in *. unfold isSpecialChar.
    destruct (isAlnum c || Ascii.eqb c " " || Ascii.eqb c "-"); [discriminate |].
    simpl. now apply IH.
  - intros H.
    assert (H' : removeSpecial filename = "").
    { induction filename as [|c r IH]; [reflexivity |]. simpl in *.
      apply andb_true_iff in H as [Hc Hr]. unfold isSpecialChar in Hc.
      apply negb_true_iff in Hc. rewrite Hc. now apply IH. }
    now rewrite H'.
Qed.

End Filenames.

(** ** Names inside an archive *)

Section EntryNames.
#[local] Arguments String.append !_ _ / : simpl nomatch.
#[local] Arguments Ascii.eqb : simpl never.

Lemma pretty_N_char_digit (x : N) : isDigit (pretty_N_char x) = true.
Proof.
  unfold pretty_N_char.
  repeat (match goal with |- context [match ?y with _ => _ end] => destruct y end;
          try reflexivity).
Qed.

Lemma pretty_N_go_digits (x : N) (s : string) :
  allChars isDigit s = true -> allChars isDigit (pretty_N_go x s) = true.
Proof.
  revert s. induction (N.lt_wf_0 x) as [x _ IH]. intros s Hs.
  destruct (decide (x = 0)%N) as [-> | Hx].
  - now rewrite pretty_N_go_0.
  - rewrite pretty_N_go_step by lia. apply IH.
    + apply N.div_lt; lia.
    + simpl. now rewrite pretty_N_char_digit, Hs.
Qed.

Lemma pretty_nat_digits (n : nat) : allChars isDigit (pretty n) = true.
Proof.
  unfold pretty, pretty_nat, pretty, pretty_N.
  destruct (decide (N.of_nat n = 0)%N); [reflexivity |].
  now apply pretty_N_go_digits.
Qed.

Lemma allChars_impl (P Q : ascii -> bool) (s : string) :
  (forall c, P c = true -> Q c = true) ->
  allChars P s = true -> allChars Q s = true.
Proof.
  intros HPQ. induction s as [|c r IH]; [reflexivity |]. simpl.
  intros [Hc Hr]%andb_true_iff. now rewrite (HPQ c Hc), IH.
Qed.

Lemma digit_not_slash (c : ascii) :
  isDigit c = true -> negb (Path.isPosixPathSeparator c) = true.
Proof.
  unfold Path.isPosixPathSeparator. intros H.
  destruct (Ascii.eqb c "/") eqn:Hs; [| reflexivity].
  apply Ascii.eqb_eq in Hs. subst c. vm_compute in H. discriminate.
Qed.

Lemma pretty_nat_noSlash (n : nat) : noSlash (pretty n) = true.
Proof.
  unfold noSlash. eapply allChars_impl; [| apply pretty_nat_digits].
  apply digit_not_slash.
Qed.

(** Text before the first separator is determined by the whole. *)
Lemma sep_unique (P : ascii -> bool) (sep : ascii) (a a' x x' : string) :
  allChars P a = true -> allChars P a' = true -> P sep = false ->
  a +:+ String sep x = a' +:+ String sep x' -> a = a' /\ x = x'.
Proof.
  intros Ha Ha' Hsep. revert a' Ha'.
  induction a as [|c r IH]; intros [|c' r'] Ha'; simpl; intros Heq.
  - injection Heq as ->. split; reflexivity.
  - injection Heq as <- _. simpl in Ha'. rewrite Hsep in Ha'. discriminate.
  - injection Heq as -> _. simpl in Ha. rewrite Hsep in Ha. discriminate.
  - injection Heq as -> Heq. simpl in Ha, Ha'.
    apply andb_true_iff in Ha as [_ Ha]. apply andb_true_iff in Ha' as [_ Ha'].
    destruct (IH Ha r' Ha' Heq) as [-> ->]. split; reflexivity.
Qed.

Lemma entryName_shape (i : nat) (lcName : string) (j : nat) (base : string) :
  entryName i lcName j base
  = (pretty i +:+ String "_" lcName) +:+ String "/" (pretty j +:+ String "_" base).
Proof.
  unfold entryName. rewrite PathFacts.app_assoc_str. reflexivity.
Qed.

Lemma folder_noSlash (i : nat) (lcName : string) :
  noSlash lcName = true -> noSlash (pretty i +:+ String "_" lcName) = true.
Proof.
  intros H. apply noSlash_app; [apply pretty_nat_noSlash |].
  rewrite PathFacts.noSlash_cons. now rewrite H.
Qed.

Lemma entryName_split_aux (i : nat) (lcName : string) (j : nat) (base : string) :
  noSlash lcName = true -> noSlash base = true ->
  Path.split (entryName i lcName j base)
  = [pretty i +:+ "_" +:+ lcName; pretty j +:+ "_" +:+ base].
Proof.
  intros Hl Hb. rewrite entryName_shape, PathFacts.split_app_sep.
  rewrite !PathFacts.split_noSlash; [reflexivity | |].
  - now apply folder_noSlash.
  - now apply folder_noSlash.
Qed.

Lemma entryName_inj_aux (i i' j j' : nat) (lcName lcName' base base' : string) :
  noSlash lcName = true -> noSlash lcName' = true ->
  entryName i lcName j base = entryName i' lcName' j' base' ->
  i = i' /\ lcName = lcName' /\ j = j' /\ base = base'.
Proof.
  intros Hl Hl'. rewrite !entryName_shape. intros Heq.
  apply (sep_unique (fun c => negb (Path.isPosixPathSeparator c))) in Heq
    as [Hfolder Hfile];
    [| now apply folder_noSlash | now apply folder_noSlash | reflexivity].
  apply (sep_unique isDigit) in Hfolder as [Hi ->];
    [| apply pretty_nat_digits | apply pretty_nat_digits | reflexivity].
  apply (sep_unique isDigit) in Hfile as [Hj ->];
    [| apply pretty_nat_digits | apply pretty_nat_digits | reflexivity].
  apply (inj pretty) in Hi. apply (inj pretty) in Hj. auto.
Qed.

End EntryNames.

Section EntryTheorems.

(** X6: the name under which a rendered unit goes into the archive has
    exactly two segments: the folder [<lecCounter>_<lecture name>] and the
    file [<unitCounter>_<unit name>.pdf], both names cleaned. *)
Theorem pdf_entry_one_folder_deep (i j : nat) (lectureName unitName : string) :
  Path.split (entryName i (replaceCharInFilename lectureName) j
                (replaceCharInFilename unitName +:+ ".pdf"))
  = [pretty i +:+ "_" +:+ replaceCharInFilename lectureName;
     pretty j +:+ "_" +:+ replaceCharInFilename unitName +:+ ".pdf"].
Proof.
  apply entryName_split_aux.
  - apply replaceCharInFilename_noSlash.
  - apply noSlash_app; [apply replaceCharInFilename_noSlash | reflexivity].
Qed.

(** X7: two archive names built with a cleaned lecture name are equal only
    when the lecture counters, the unit counters, the cleaned lecture names
    and what follows the unit counter are equal: entries of different
    lectures, or of different units of a lecture, never share a name. *)
Theorem entry_names_distinct (i i' j j' : nat)
    (lectureName lectureName' base base' : string) :
  entryName i (replaceCharInFilename lectureName) j base
  = entryName i' (replaceCharInFilename lectureName') j' base' ->
  i = i' /\ j = j'
  /\ replaceCharInFilename lectureName = replaceCharInFilename lectureName'
  /\ base = base'.
Proof.
  intros H.
  apply entryName_inj_aux in H as (Hi & Hl & Hj & Hb);
    [auto | apply replaceCharInFilename_noSlash | apply replaceCharInFilename_noSlash].
Qed.

End EntryTheorems.

(** ** What [calcPackage] measures and what it leaves alone *)

Section PackageFacts.
Context (E : Env).

Lemma chosenFiles_onlyIds (sel : list JsValue) (fs : list IFile) :
  Forall (fun x => exists s, x = JsString s) sel -> chosenFiles sel fs = [].
Proof.
  intros Hsel. unfold chosenFiles.
  assert (Hno : forall n, JsNumber n ∉ sel).
  { intros n Hin. rewrite Forall_forall in Hsel.
    destruct (Hsel _ Hin) as [s Hs]. discriminate Hs. }
  generalize (@pair nat IFile). intros f.
  revert f. induction fs as [|x fs IH]; intros f; [reflexivity |].
  rewrite imap_cons, filter_cons.
  rewrite decide_False by apply Hno. apply IH.
Qed.

Lemma selectedFiles_onlyIds (d : Database) (pack : IDownload) :
  onlyIds pack -> selectedFiles d pack = [].
Proof.
  unfold onlyIds, selectedFiles.
  induction (requestedUnits pack) as [|u us IH]; [reflexivity |].
  intros H. apply Forall_cons in H as [Hu Hus]. simpl.
  rewrite (IH Hus), app_nil_r. unfold selectedOf.
  destruct (Units d !! unitId u) as [x|]; [| reflexivity].
  destruct (decide (u_t x = "file")); [| reflexivity].
  now apply chosenFiles_onlyIds.
Qed.

Lemma not_exceeded_onlyIds (d : Database) (pack : IDownload) :
  onlyIds pack -> ~ sizeExceeded d pack.
Proof.
  intros Hids [Hbig | (f & Hf & _)].
  - unfold specTotalSize in Hbig. rewrite (selectedFiles_onlyIds d pack Hids) in Hbig.
    vm_compute in Hbig. discriminate Hbig.
  - rewrite (selectedFiles_onlyIds d pack Hids) in Hf. inversion Hf.
Qed.

(** X8: [calcPackage] selects a file by its position in the unit
    ([unit.files.indexOf(index)]), so for a request that names its files by
    id only (strings) it measures nothing: the total is zero and no file is
    too large, whatever the sizes; and neither export endpoint answers such
    a request, when it has lectures, with [BadRequestError]. *)
Theorem calcPackage_ignores_ids (pack : IDownload) (user : IUser) (w : World) :
  onlyIds pack ->
  (allUnitsExist (db w) pack ->
     exists size w',
       calcPackage pack w = (Ok size, w')
       /\ (totalSize size == 0)%Q /\ tooLargeFiles size = [])
  /\ (lectures pack <> [] ->
        fst (postDownloadRequestPDFIndividual E pack user w) <> Throw BadRequestError
        /\ fst (postDownloadRequestPDFSingle E pack user w) <> Throw BadRequestError).
Proof.
  intros Hids. split.
  - intros Hall. pose proof (calcPackage_run pack w) as H.
    destruct (calcPackage pack w) as [[size|e|] w'];
      [| destruct H as (_ & H & _); contradiction | contradiction].
    destruct H as (_ & Ht & Hl & _). exists size, w'.
    split; [reflexivity |].
    unfold specTotalSize in Ht. unfold specTooLargeFiles in Hl.
    rewrite (selectedFiles_onlyIds (db w) pack Hids) in Ht, Hl.
    split; [exact Ht | exact Hl].
  - intros Hne. pose proof (not_exceeded_onlyIds (db w) pack Hids) as Hsz.
    rewrite individual_withGuards, single_withGuards.
    pose proof (withGuards_run pack user (individualBody E pack) w) as H1.
    pose proof (withGuards_run pack user (singleBody E pack) w) as H2.
    destruct (lectures pack); [congruence |].
    destruct (Courses (db w) !! courseName pack) as [course|].
    + destruct (mayExport course user).
      * destruct H1 as (H1a & _ & H1c). destruct H2 as (H2a & _ & H2c).
        assert (Hdec : allUnitsExist (db w) pack \/ ~ allUnitsExist (db w) pack).
        { pose proof (calcPackage_run pack w) as H.
          destruct (calcPackage pack w) as [[size|e|] w'].
          - left. apply H.
          - right. apply H.
          - contradiction. }
        destruct Hdec as [Hall|Hnot].
        -- destruct (H1c Hall Hsz) as (w1 & -> & _).
           destruct (H2c Hall Hsz) as (w2 & -> & _).
           split; intros Hthrow.
           ++ apply (individualBody_throws E pack course w1) in Hthrow.
              destruct Hthrow as [H|[H|H]]; discriminate H.
           ++ apply (singleBody_throws E pack course w2) in Hthrow.
              destruct Hthrow as [H|[H|H]]; discriminate H.
        -- destruct (H1a Hnot) as (w1 & -> & _). destruct (H2a Hnot) as (w2 & -> & _).
           split; discriminate.
      * destruct H1 as (w1 & -> & _). destruct H2 as (w2 & -> & _).
        split; discriminate.
    + destruct H1 as (w1 & -> & _). destruct H2 as (w2 & -> & _).
      split; discriminate.
Qed.

Lemma calcUnit_log (acc : PackageSize) (unit : IDownloadUnit) (w : World) :
  log (snd (calcUnit acc unit w)) = log w ++ [EvFindUnit (unitId unit)].
Proof.
  unfold calcUnit. run_monad.
  destruct (Units (db w) !! unitId unit) as [u|]; simpl; [| reflexivity].
  destruct (decide (u_t u = "file")); reflexivity.
Qed.

Lemma calcUnits_log (us : list IDownloadUnit) (acc acc' : PackageSize)
    (w w' : World) :
  forOf us calcUnit acc w = (Ok acc', w') ->
  log w' = log w ++ map (fun unit => EvFindUnit (unitId unit)) us.
Proof.
  revert acc w. induction us as [|u us IH]; intros acc w.
  - simpl. intros H. injection H as _ <-. now rewrite app_nil_r.
  - simpl forOf. rewrite bind_run.
    pose proof (calcUnit_log acc u w) as Hu.
    destruct (calcUnit acc u w) as [[acc1|e|] w1]; [| discriminate ..].
    intros H. apply IH in H. simpl in Hu. rewrite H, Hu.
    now rewrite <- app_assoc.
Qed.

Lemma calcLectures_log (ls : list IDownloadLecture) (acc acc' : PackageSize)
    (w w' : World) :
  forOf ls (fun acc lec => forOf (units lec) calcUnit acc) acc w = (Ok acc', w') ->
  log w' = log w ++ map (fun unit => EvFindUnit (unitId unit)) (flat_map units ls).
Proof.
  revert acc w. induction ls as [|l ls IH]; intros acc w.
  - simpl. intros H. injection H as _ <-. now rewrite app_nil_r.
  - simpl forOf. rewrite bind_run.
    destruct (forOf (units l) calcUnit acc w) as [[acc1|e|] w1] eqn:Hl; [| discriminate ..].
    apply calcUnits_log in Hl.
    intros H. apply IH in H. rewrite H, Hl. simpl.
    now rewrite map_app, <- app_assoc.
Qed.

(** X9: [calcPackage] only reads: whatever its outcome, nothing happened but
    database lookups; and when it returns it has looked up every requested
    unit once, in request order. *)
Theorem calcPackage_reads_only (pack : IDownload) (w : World) :
  onlyLookups w (snd (calcPackage pack w))
  /\ (forall size w', calcPackage pack w = (Ok size, w') ->
        log w' = log w ++ map (fun unit => EvFindUnit (unitId unit))
                              (requestedUnits pack)).
Proof.
  split.
  - pose proof (calcPackage_run pack w) as H.
    destruct (calcPackage pack w) as [[size|e|] w'];
      [apply H | apply H | contradiction].
  - intros size w'. rewrite calcPackage_unfold. apply calcLectures_log.
Qed.

End PackageFacts.

(** ** The errors of the loops *)

Section LoopErrors.
Context (E : Env).

Lemma individualFiles_error (i : nat) (lcName : string) (j : nat)
    (sel : list JsValue) (arch : list ArchiveEntry) (w w' : World) (e : Error) :
  forOf sel (individualFile i lcName j) arch w = (Throw e, w') -> e = TypeError.
Proof.
  revert arch w. induction sel as [|x sel IH]; intros arch w; [discriminate |].
  simpl forOf. rewrite bind_run.
  destruct (individualFile i lcName j arch x w) as [[arch1|e1|] w1] eqn:Hrun.
  - apply IH.
  - intros H. injection H as <- _. revert Hrun.
    unfold individualFile. run_monad.
    destruct (Files (db w) x); simpl; [discriminate |].
    intros H. now injection H.
  - discriminate.
Qed.

Lemma individualUnit_error (i : nat) (lcName : string) (j : nat)
    (arch : list ArchiveEntry) (unit : IDownloadUnit) (w w' : World) (e : Error) :
  individualUnit E i lcName (j, arch) unit w = (Throw e, w') ->
  isLoopError e \/ ~ unitExists (db w) unit.
Proof.
  rewrite individualUnit_unfold. unfold unitExists, isLoopError. run_monad.
  set (w0 := {| db := db w; fs := fs w; clock := clock w; drawn := drawn w;
                log := log w ++ [EvFindUnit (unitId unit)] |}).
  destruct (Units (db w) !! unitId unit) as [u|].
  - destruct (decide (u_t u = "file")) as [Hfile|Hfile].
    + destruct (forOf (files unit) _ arch w0) as [[arch1|err|] w1] eqn:Hrun;
        [discriminate | | discriminate].
      intros H. injection H as <- _. apply individualFiles_error in Hrun. auto.
    + destruct (htmlToPdf E _ optionsIndividual); simpl; [discriminate |].
      intros H. injection H as <- _. auto.
  - intros _. right. intros [x Hx]. discriminate Hx.
Qed.

Lemma individualUnits_error (i : nat) (lcName : string) (us : list IDownloadUnit)
    (j : nat) (arch : list ArchiveEntry) (w w' : World) (e : Error) :
  forOf us (individualUnit E i lcName) (j, arch) w = (Throw e, w') ->
  isLoopError e \/ ~ Forall (unitExists (db w)) us.
Proof.
  revert j arch w. induction us as [|u us IH]; intros j arch w; [discriminate |].
  simpl forOf. rewrite bind_run.
  pose proof (individualUnit_run E i lcName j arch u w) as Hu.
  destruct (individualUnit E i lcName (j, arch) u w) as [[[j1 arch1]|e1|] w1] eqn:Hrun.
  - destruct Hu as (Hs1 & _). intros Hrest. apply IH in Hrest.
    assert (Hdb : db w1 = db w) by apply Hs1. rewrite Hdb in Hrest.
    destruct Hrest as [He|Hno]; [now left | right].
    intros H. apply Forall_cons in H as [_ H]. contradiction.
  - intros H. injection H as <- _. apply individualUnit_error in Hrun.
    destruct Hrun as [He|Hno]; [now left | right].
    intros H. apply Forall_cons in H as [H _]. contradiction.
  - discriminate.
Qed.

Lemma individualLecture_error (i : nat) (arch : list ArchiveEntry)
    (lec : IDownloadLecture) (w w' : World) (e : Error) :
  individualLecture E (i, arch) lec w = (Throw e, w') ->
  isLoopError e \/ ~ Forall (unitExists (db w)) (units lec).
Proof.
  unfold individualLecture. run_monad.
  set (w0 := {| db := db w; fs := fs w; clock := clock w; drawn := drawn w;
                log := log w ++ [EvFindLecture (lectureId lec)] |}).
  destruct (Lectures (db w) !! lectureId lec) as [l|].
  - destruct (forOf (units lec) _ (1%nat, arch) w0) as [[[j1 arch1]|e1|] w1] eqn:Hrun;
      [discriminate | | discriminate].
    intros H. injection H as <- _. now apply individualUnits_error in Hrun.
  - simpl. intros H. injection H as <- _. left. now left.
Qed.

Lemma individualLectures_error (ls : list IDownloadLecture) (i : nat)
    (arch : list ArchiveEntry) (w w' : World) (e : Error) :
  forOf ls (individualLecture E) (i, arch) w = (Throw e, w') ->
  isLoopError e \/ ~ Forall (unitExists (db w)) (flat_map units ls).
Proof.
  revert i arch w. induction ls as [|l ls IH]; intros i arch w; [discriminate |].
  simpl forOf. rewrite bind_run.
  pose proof (individualLecture_run E i arch l w) as Hl.
  destruct (individualLecture E (i, arch) l w) as [[[i1 arch1]|e1|] w1] eqn:Hrun.
  - destruct Hl as (Hs1 & _). intros Hrest. apply IH in Hrest.
    assert (Hdb : db w1 = db w) by apply Hs1. rewrite Hdb in Hrest.
    destruct Hrest as [He|Hno]; [now left | right].
    simpl. rewrite Forall_app. tauto.
  - intros H. injection H as <- _. apply individualLecture_error in Hrun.
    destruct Hrun as [He|Hno]; [now left | right].
    simpl. rewrite Forall_app. tauto.
  - discriminate.
Qed.

Lemma individualBody_error (data : IDownload) (course : ICourse) (w w' : World)
    (e : Error) :
  allUnitsExist (db w) data ->
  individualBody E data course w = (Throw e, w') -> isLoopError e.
Proof.
  intros Hall. rewrite individualBody_eq.
  destruct (forOf (lectures data) (individualLecture E) (1%nat, []) (loopStart E w))
    as [[[i1 arch1]|err|] w4] eqn:Hrun; [| | discriminate].
  - unfold finish. destruct (opens (fs w) _); discriminate.
  - intros H. injection H as <- _. apply individualLectures_error in Hrun.
    destruct Hrun as [He|Hno]; [exact He | contradiction].
Qed.

Lemma singleFiles_error (i : nat) (lcName : string) (sel : list JsValue)
    (v : SingleVars) (w w' : World) (e : Error) :
  forOf sel (singleFile E i lcName) v w = (Throw e, w') -> e = TypeError.
Proof.
  revert v w. induction sel as [|x sel IH]; intros v w; [discriminate |].
  simpl forOf. rewrite bind_run.
  destruct (singleFile E i lcName v x w) as [[v1|e1|] w1] eqn:Hrun.
  - apply IH.
  - intros H. injection H as <- _. revert Hrun.
    unfold singleFile. run_monad.
    destruct (Files (db w) x); simpl; [discriminate |].
    intros H. now injection H.
  - discriminate.
Qed.

Lemma singleUnit_error (i : nat) (l : Lecture) (lcName : string)
    (v : SingleVars) (unit : IDownloadUnit) (w w' : World) (e : Error) :
  singleUnit E i l lcName v unit w = (Throw e, w') ->
  isLoopError e \/ ~ unitExists (db w) unit.
Proof.
  rewrite singleUnit_unfold. unfold unitExists, isLoopError. run_monad.
  set (w0 := {| db := db w; fs := fs w; clock := clock w; drawn := drawn w;
                log := log w ++ [EvFindUnit (unitId unit)] |}).
  destruct (Units (db w) !! unitId unit) as [u|].
  - destruct (decide (u_t u = "file")) as [Hfile|Hfile].
    + destruct (forOf (files unit) _ v w0) as [[v1|err|] w1] eqn:Hrun;
        [discriminate | | discriminate].
      intros H. injection H as <- _. apply singleFiles_error in Hrun. auto.
    + destruct (isKataOrTask u && (1 <? i)%nat && (1 <? unitCounter v)%nat);
        discriminate.
  - intros _. right. intros [x Hx]. discriminate Hx.
Qed.

Lemma singleUnits_error (i : nat) (l : Lecture) (lcName : string)
    (us : list IDownloadUnit) (v : SingleVars) (w w' : World) (e : Error) :
  forOf us (singleUnit E i l lcName) v w = (Throw e, w') ->
  isLoopError e \/ ~ Forall (unitExists (db w)) us.
Proof.
  revert v w. induction us as [|u us IH]; intros v w; [discriminate |].
  simpl forOf. rewrite bind_run.
  pose proof (singleUnit_run E i l lcName v u w) as Hu.
  destruct (singleUnit E i l lcName v u w) as [[v1|e1|] w1] eqn:Hrun.
  - destruct Hu as (Hs1 & _). intros Hrest. apply IH in Hrest.
    assert (Hdb : db w1 = db w) by apply Hs1. rewrite Hdb in Hrest.
    destruct Hrest as [He|Hno]; [now left | right].
    intros H. apply Forall_cons in H as [_ H]. contradiction.
  - intros H. injection H as <- _. apply singleUnit_error in Hrun.
    destruct Hrun as [He|Hno]; [now left | right].
    intros H. apply Forall_cons in H as [H _]. contradiction.
  - discriminate.
Qed.

Lemma singleLecture_error (i : nat) (v : SingleVars) (lec : IDownloadLecture)
    (w w' : World) (e : Error) :
  singleLecture E (i, v) lec w = (Throw e, w') ->
  isLoopError e \/ ~ Forall (unitExists (db w)) (units lec).
Proof.
  unfold singleLecture. run_monad.
  set (w0 := {| db := db w; fs := fs w; clock := clock w; drawn := drawn w;
                log := log w ++ [EvFindLecture (lectureId lec)] |}).
  destruct (Lectures (db w) !! lectureId lec) as [l|].
  - match goal with
    | |- context [forOf (units lec) ?f ?v0 w0] =>
        destruct (forOf (units lec) f v0 w0) as [[v1|e1|] w1] eqn:Hrun
    end; [discriminate | | discriminate].
    intros H. injection H as <- _. now apply singleUnits_error in Hrun.
  - simpl. intros H. injection H as <- _. left. now left.
Qed.

Lemma singleLectures_error (ls : list IDownloadLecture) (i : nat) (v : SingleVars)
    (w w' : World) (e : Error) :
  forOf ls (singleLecture E) (i, v) w = (Throw e, w') ->
  isLoopError e \/ ~ Forall (unitExists (db w)) (flat_map units ls).
Proof.
  revert i v w. induction ls as [|l ls IH]; intros i v w; [discriminate |].
  simpl forOf. rewrite bind_run.
  pose proof (singleLecture_run E i v l w) as Hl.
  destruct (singleLecture E (i, v) l w) as [[[i1 v1]|e1|] w1] eqn:Hrun.
  - destruct Hl as (Hs1 & _). intros Hrest. apply IH in Hrest.
    assert (Hdb : db w1 = db w) by apply Hs1. rewrite Hdb in Hrest.
    destruct Hrest as [He|Hno]; [now left | right].
    simpl. rewrite Forall_app. tauto.
  - intros H. injection H as <- _. apply singleLecture_error in Hrun.
    destruct Hrun as [He|Hno]; [now left | right].
    simpl. rewrite Forall_app. tauto.
  - discriminate.
Qed.

Lemma singleBody_error (data : IDownload) (course : ICourse) (w w' : World)
    (e : Error) :
  allUnitsExist (db w) data ->
  singleBody E data course w = (Throw e, w') -> isLoopError e.
Proof.
  intros Hall. rewrite singleBody_eq.
  destruct (forOf (lectures data) (singleLecture E) _ (loopStart E w))
    as [[[i1 v1]|err|] w4] eqn:Hrun; [| | discriminate].
  - simpl snd. destruct (htmlToPdf E _ (optionsSingle course)).
    + unfold finish. destruct (opens (fs w) _); discriminate.
    + intros H. injection H as <- _. now right.
  - intros H. injection H as <- _. apply singleLectures_error in Hrun.
    destruct Hrun as [He|Hno]; [exact He | contradiction].
Qed.

End LoopErrors.

(** ** The export endpoints when something is missing *)

Section ExportErrors.
Context (E : Env).

(** X10: for a request with lectures whose course does not exist, both
    export endpoints throw [NotFoundError], and nothing happened but
    database lookups. *)
Theorem export_missing_course (data : IDownload) (user : IUser) (w : World) :
  lectures data <> [] -> Courses (db w) !! courseName data = None ->
  (exists w1, postDownloadRequestPDFIndividual E data user w = (Throw NotFoundError, w1)
              /\ onlyLookups w w1)
  /\ (exists w1, postDownloadRequestPDFSingle E data user w = (Throw NotFoundError, w1)
                 /\ onlyLookups w w1).
Proof.
  intros Hl Hc. rewrite individual_withGuards, single_withGuards.
  pose proof (withGuards_run data user (individualBody E data) w) as H1.
  pose proof (withGuards_run data user (singleBody E data) w) as H2.
  destruct (lectures data); [congruence |]. rewrite Hc in H1, H2.
  split; assumption.
Qed.

(** X11: for a request with lectures of an existing course by a user who
    may export it, both export endpoints throw [NotFoundError] when some
    requested unit does not exist, and nothing happened but database
    lookups: no file was created. *)
Theorem export_missing_unit (data : IDownload) (user : IUser) (w : World)
    (course : ICourse) :
  lectures data <> [] -> Courses (db w) !! courseName data = Some course ->
  mayExport course user = true -> ~ allUnitsExist (db w) data ->
  (exists w1, postDownloadRequestPDFIndividual E data user w = (Throw NotFoundError, w1)
              /\ onlyLookups w w1)
  /\ (exists w1, postDownloadRequestPDFSingle E data user w = (Throw NotFoundError, w1)
                 /\ onlyLookups w w1).
Proof.
  intros Hl Hc Hm Hu. rewrite individual_withGuards, single_withGuards.
  pose proof (withGuards_run data user (individualBody E data) w) as H1.
  pose proof (withGuards_run data user (singleBody E data) w) as H2.
  destruct (lectures data); [congruence |]. rewrite Hc, Hm in H1, H2.
  split; [apply H1, Hu | apply H2, Hu].
Qed.

Lemma withGuards_pass {A} (data : IDownload) (user : IUser) (k : ICourse -> M A)
    (w : World) (course : ICourse) :
  lectures data <> [] -> Courses (db w) !! courseName data = Some course ->
  mayExport course user = true -> allUnitsExist (db w) data ->
  ~ sizeExceeded (db w) data ->
  exists w1, withGuards data user k w = k course w1 /\ onlyLookups w w1.
Proof.
  intros Hl Hc Hm Hu Hs.
  pose proof (withGuards_run data user k w) as H.
  destruct (lectures data); [congruence |]. rewrite Hc, Hm in H.
  now apply H.
Qed.

(** X12: when a request passes every guard and the endpoint throws
    nevertheless, the error is [TypeError] (a lecture or a file that does
    not exist) or the renderer's, and the archive file
    [download_<hash>.zip] the endpoint had created (it did when the write
    stream opened) stays in the cache folder, nothing finalized into it;
    the rest of the file system and the database are what they were. *)
Theorem failed_export_leaves_file (data : IDownload) (user : IUser)
    (w : World) (course : ICourse) :
  lectures data <> [] -> Courses (db w) !! courseName data = Some course ->
  mayExport course user = true -> allUnitsExist (db w) data ->
  ~ sizeExceeded (db w) data ->
  forall e w',
    postDownloadRequestPDFIndividual E data user w = (Throw e, w')
    \/ postDownloadRequestPDFSingle E data user w = (Throw e, w') ->
    isLoopError e
    /\ db w' = db w
    /\ fs w' = (if opens (fs w) (realpath E (cacheFilePath E (hashOf E w)))
                then <[realpath E (cacheFilePath E (hashOf E w)) :=
                         {| isDirectory := false; ctimeMs := clock w;
                            content := [] |}]> (fs w)
                else fs w).
Proof.
  intros Hl Hc Hm Hu Hs e w' Hrun.
  rewrite individual_withGuards, single_withGuards in Hrun.
  destruct Hrun as [Hrun|Hrun].
  - destruct (withGuards_pass data user (individualBody E data) w course
                Hl Hc Hm Hu Hs) as (w1 & Heq & Hw1).
    rewrite Heq in Hrun. split.
    { apply (individualBody_error E data course w1 w' e); [| exact Hrun].
      destruct Hw1 as (Hd1 & _). now rewrite Hd1. }
    apply individualBody_throw in Hrun as [Hd Hf].
    rewrite (hashOf_onlyLookups E w w1 Hw1) in Hf.
    destruct Hw1 as (Hd1 & Hf1 & Hc1 & _).
    unfold streamed, emptyFile in Hf. rewrite Hf1, Hc1 in Hf.
    split; congruence.
  - destruct (withGuards_pass data user (singleBody E data) w course
                Hl Hc Hm Hu Hs) as (w1 & Heq & Hw1).
    rewrite Heq in Hrun. split.
    { apply (singleBody_error E data course w1 w' e); [| exact Hrun].
      destruct Hw1 as (Hd1 & _). now rewrite Hd1. }
    apply singleBody_throw in Hrun as [Hd Hf].
    rewrite (hashOf_onlyLookups E w w1 Hw1) in Hf.
    destruct Hw1 as (Hd1 & Hf1 & Hc1 & _).
    unfold streamed, emptyFile in Hf. rewrite Hf1, Hc1 in Hf.
    split; congruence.
Qed.

(** X13: when an export endpoint returns a hash, the request had lectures,
    its course exists, the user may export it, every requested unit exists
    and the package is within the limits; the hash is the one drawn first;
    the database is what it was; and the file system differs from the one
    before in the archive file only, whose change time is the time of the
    export. *)
Theorem export_success_frame (data : IDownload) (user : IUser)
    (w w' : World) (hash : string) :
  postDownloadRequestPDFIndividual E data user w = (Ok hash, w')
  \/ postDownloadRequestPDFSingle E data user w = (Ok hash, w') ->
  (exists course,
     lectures data <> []
     /\ Courses (db w) !! courseName data = Some course
     /\ mayExport course user = true
     /\ allUnitsExist (db w) data /\ ~ sizeExceeded (db w) data)
  /\ hash = hashOf E w
  /\ db w' = db w
  /\ (forall p, p <> realpath E (cacheFilePath E hash) -> fs w' !! p = fs w !! p)
  /\ (exists st, fs w' !! realpath E (cacheFilePath E hash) = Some st
                 /\ ctimeMs st = clock w).
Proof.
  intros Hrun. rewrite individual_withGuards, single_withGuards in Hrun.
  assert (H : exists course w1 entries,
             (lectures data <> []
              /\ Courses (db w) !! courseName data = Some course
              /\ mayExport course user = true
              /\ allUnitsExist (db w) data /\ ~ sizeExceeded (db w) data)
             /\ onlyLookups w w1 /\ hash = hashOf E w1 /\ db w' = db w1
             /\ fs w' = <[realpath E (cacheFilePath E hash) :=
                           zipped E w1 (realpath E (cacheFilePath E hash)) entries]>
                        (fs w1)).
  { destruct Hrun as [Hrun|Hrun];
      apply withGuards_ok in Hrun
        as (course & w1 & H1 & H2 & H3 & H4 & H5 & Hw1 & Hbody).
    - apply individualBody_ok in Hbody as (Hh & Hd & entries & _ & Hf & _).
      exists course, w1, entries.
      split; [tauto |]. split; [exact Hw1 |]. split; [exact Hh |].
      split; [exact Hd | exact Hf].
    - apply singleBody_ok in Hbody
        as (Hh & Hd & rs & pdf & es & _ & _ & _ & Hf & _).
      exists course, w1. eexists.
      split; [tauto |]. split; [exact Hw1 |]. split; [exact Hh |].
      split; [exact Hd | exact Hf]. }
  destruct H as (course & w1 & entries & Hg & Hw1 & Hh & Hd & Hf).
  pose proof (hashOf_onlyLookups E w w1 Hw1) as Hh1.
  destruct Hw1 as (Hd1 & Hf1 & Hc1 & _).
  split; [exists course; exact Hg |].
  split; [congruence |]. split; [congruence |]. split.
  - intros p Hp. rewrite Hf, Hf1. now apply lookup_insert_ne.
  - eexists. split; [rewrite Hf; apply lookup_insert_eq |]. exact Hc1.
Qed.

End ExportErrors.

(** ** When the loops of [postDownloadRequestPDFIndividual] fail *)

Section IndividualCompleteness.
Context (E : Env).

Lemma individualFile_fails (i : nat) (lcName : string) (j : nat)
    (arch : list ArchiveEntry) (fileId : JsValue) (w w' : World) (e : Error) :
  individualFile i lcName j arch fileId w = (Throw e, w') ->
  fileEntry (db w) i lcName j fileId = None.
Proof.
  unfold individualFile, fileEntry. run_monad.
  destruct (Files (db w) fileId); simpl; [discriminate | reflexivity].
Qed.

Lemma individualFiles_fails (i : nat) (lcName : string) (j : nat)
    (sel : list JsValue) (arch : list ArchiveEntry) (w w' : World) (e : Error) :
  forOf sel (individualFile i lcName j) arch w = (Throw e, w') ->
  allSome (map (fileEntry (db w) i lcName j) sel) = None.
Proof.
  revert arch w. induction sel as [|x sel IH]; intros arch w; [discriminate |].
  simpl forOf. rewrite bind_run.
  pose proof (individualFile_run i lcName j arch x w) as Hx.
  destruct (individualFile i lcName j arch x w) as [[arch1|e1|] w1] eqn:Hrun.
  - destruct Hx as (Hs1 & e1 & He1 & ->). intros Hrest.
    apply IH in Hrest. assert (Hdb : db w1 = db w) by apply Hs1.
    rewrite Hdb in Hrest. simpl. now rewrite He1, Hrest.
  - intros _. apply individualFile_fails in Hrun. simpl. now rewrite Hrun.
  - discriminate.
Qed.

Lemma individualUnit_fails (i : nat) (lcName : string) (j : nat)
    (arch : list ArchiveEntry) (unit : IDownloadUnit) (w w' : World) (e : Error) :
  individualUnit E i lcName (j, arch) unit w = (Throw e, w') ->
  unitEntries E (db w) i lcName j unit = None.
Proof.
  rewrite individualUnit_unfold. unfold unitEntries. run_monad.
  set (w0 := {| db := db w; fs := fs w; clock := clock w; drawn := drawn w;
                log := log w ++ [EvFindUnit (unitId unit)] |}).
  destruct (Units (db w) !! unitId unit) as [u|]; [| reflexivity].
  destruct (decide (u_t u = "file")) as [Hfile|Hfile].
  - destruct (forOf (files unit) _ arch w0) as [[arch1|err|] w1] eqn:Hrun;
      [discriminate | | discriminate].
    intros _. now apply individualFiles_fails in Hrun.
  - destruct (htmlToPdf E _ optionsIndividual); simpl; [discriminate | reflexivity].
Qed.

Lemma individualUnits_fails (i : nat) (lcName : string) (us : list IDownloadUnit)
    (j : nat) (arch : list ArchiveEntry) (w w' : World) (e : Error) :
  forOf us (individualUnit E i lcName) (j, arch) w = (Throw e, w') ->
  allSome (imap (fun k unit => unitEntries E (db w) i lcName (j + k) unit) us) = None.
Proof.
  revert j arch w. induction us as [|u us IH]; intros j arch w; [discriminate |].
  simpl forOf. rewrite bind_run.
  rewrite (imap_offset_cons (fun n unit => unitEntries E (db w) i lcName n unit)).
  cbv beta. rewrite allSome_cons.
  pose proof (individualUnit_run E i lcName j arch u w) as Hu.
  destruct (individualUnit E i lcName (j, arch) u w) as [[[j1 arch1]|e1|] w1] eqn:Hrun.
  - destruct Hu as (Hs1 & -> & es & Hes & ->). intros Hrest.
    apply IH in Hrest. assert (Hdb : db w1 = db w) by apply Hs1.
    rewrite Hdb in Hrest. now rewrite Hes, Hrest.
  - intros _. apply individualUnit_fails in Hrun. now rewrite Hrun.
  - discriminate.
Qed.

Lemma individualLecture_fails (i : nat) (arch : list ArchiveEntry)
    (lec : IDownloadLecture) (w w' : World) (e : Error) :
  individualLecture E (i, arch) lec w = (Throw e, w') ->
  lectureEntries E (db w) i lec = None.
Proof.
  unfold individualLecture, lectureEntries. run_monad.
  set (w0 := {| db := db w; fs := fs w; clock := clock w; drawn := drawn w;
                log := log w ++ [EvFindLecture (lectureId lec)] |}).
  destruct (Lectures (db w) !! lectureId lec) as [l|]; [| reflexivity].
  destruct (forOf (units lec) _ (1%nat, arch) w0) as [[[j1 arch1]|e1|] w1] eqn:Hrun;
    [discriminate | | discriminate].
  intros _. apply individualUnits_fails in Hrun. simpl in Hrun.
  now rewrite Hrun.
Qed.

Lemma individualLectures_fails (ls : list IDownloadLecture) (i : nat)
    (arch : list ArchiveEntry) (w w' : World) (e : Error) :
  forOf ls (individualLecture E) (i, arch) w = (Throw e, w') ->
  allSome (imap (fun k lec => lectureEntries E (db w) (i + k) lec) ls) = None.
Proof.
  revert i arch w. induction ls as [|l ls IH]; intros i arch w; [discriminate |].
  simpl forOf. rewrite bind_run.
  rewrite (imap_offset_cons (fun n lec => lectureEntries E (db w) n lec)).
  cbv beta. rewrite allSome_cons.
  pose proof (individualLecture_run E i arch l w) as Hl.
  destruct (individualLecture E (i, arch) l w) as [[[i1 arch1]|e1|] w1] eqn:Hrun.
  - destruct Hl as (Hs1 & -> & es & Hes & ->). intros Hrest.
    apply IH in Hrest. assert (Hdb : db w1 = db w) by apply Hs1.
    rewrite Hdb in Hrest. now rewrite Hes, Hrest.
  - intros _. apply individualLecture_fails in Hrun. now rewrite Hrun.
  - discriminate.
Qed.

Lemma individualBody_fails (data : IDownload) (course : ICourse) (w w' : World)
    (e : Error) :
  individualBody E data course w = (Throw e, w') ->
  archiveEntries E (db w) data = None.
Proof.
  rewrite individualBody_eq. unfold archiveEntries.
  destruct (forOf (lectures data) (individualLecture E) (1%nat, []) (loopStart E w))
    as [[[i1 arch1]|err|] w4] eqn:Hrun; [| | discriminate].
  - unfold finish. destruct (opens (fs w) _); discriminate.
  - intros _. apply individualLectures_fails in Hrun. simpl in Hrun.
    now rewrite Hrun.
Qed.

End IndividualCompleteness.

(** ** The attachments of [postDownloadRequestPDFSingle] *)

Section SingleArchive.
Context (E : Env).

Lemma singleFile_files (i : nat) (lcName : string) (v : SingleVars)
    (fileId : JsValue) (w : World) :
  match singleFile E i lcName v fileId w with
  | (Ok v', w') =>
      exists e, singleFileEntry E (db w) i lcName (unitCounter v) fileId = Some e
                /\ v' = setArchive (archive v ++ [e]) v
  | (Throw _, w') =>
      singleFileEntry E (db w) i lcName (unitCounter v) fileId = None
  | (Pending, _) => False
  end.
Proof.
  unfold singleFile, singleFileEntry. run_monad.
  destruct (Files (db w) fileId) as [f|]; simpl; [| reflexivity].
  eexists. split; reflexivity.
Qed.

Lemma singleFiles_files (i : nat) (lcName : string) (sel : list JsValue)
    (v : SingleVars) (w : World) :
  match forOf sel (singleFile E i lcName) v w with
  | (Ok v', w') =>
      exists es,
        allSome (map (singleFileEntry E (db w) i lcName (unitCounter v)) sel) = Some es
        /\ v' = setArchive (archive v ++ es) v
  | (Throw _, w') =>
      allSome (map (singleFileEntry E (db w) i lcName (unitCounter v)) sel) = None
  | (Pending, _) => False
  end.
Proof.
  revert v w. induction sel as [|x sel IH]; intros v w.
  - simpl. exists []. split; [reflexivity |]. rewrite app_nil_r. now destruct v.
  - simpl forOf. rewrite bind_run.
    pose proof (singleFile_files i lcName v x w) as Hx.
    pose proof (singleFile_run E i lcName v x w) as Hs.
    destruct (singleFile E i lcName v x w) as [[v1|err|] w1];
      [| simpl; now rewrite Hx | contradiction].
    destruct Hx as (e1 & He1 & ->). destruct Hs as (Hs1 & _).
    specialize (IH (setArchive (archive v ++ [e1]) v) w1).
    assert (Hdb : db w1 = db w) by apply Hs1. rewrite Hdb in IH.
    simpl in IH. simpl map. rewrite allSome_cons, He1.
    destruct (forOf sel _ _ w1) as [[v2|err|] w2].
    + destruct IH as (es & Hes & ->). rewrite Hes.
      exists (e1 :: es). split; [reflexivity |].
      unfold setArchive. simpl. now rewrite <- app_assoc.
    + now rewrite IH.
    + contradiction.
Qed.

Lemma singleSolutions_keeps (l : Lecture) (u : Unit) (v : SingleVars) :
  archive (singleSolutions E l u v) = archive v
  /\ unitCounter (singleSolutions E l u v) = unitCounter v.
Proof.
  unfold singleSolutions.
  destruct (isKataOrTask u).
  - destruct (negb (firstSol v) && (solCounter v =? 1)%nat);
      [| destruct (solCounter v =? 1)%nat]; split; reflexivity.
  - destruct (negb (bool_decide (u_t u = "file"))); split; reflexivity.
Qed.

Lemma singleUnit_files (i : nat) (l : Lecture) (lcName : string)
    (v : SingleVars) (unit : IDownloadUnit) (w : World) :
  match singleUnit E i l lcName v unit w with
  | (Ok v', w') =>
      exists es,
        singleUnitFiles E (db w) i lcName (unitCounter v) unit = Some es
        /\ archive v' = archive v ++ es
        /\ unitCounter v' = S (unitCounter v)
  | (Throw _, w') => singleUnitFiles E (db w) i lcName (unitCounter v) unit = None
  | (Pending, _) => False
  end.
Proof.
  rewrite singleUnit_unfold. unfold singleUnitFiles. run_monad.
  set (w0 := {| db := db w; fs := fs w; clock := clock w; drawn := drawn w;
                log := log w ++ [EvFindUnit (unitId unit)] |}).
  destruct (Units (db w) !! unitId unit) as [u|]; [| reflexivity].
  destruct (decide (u_t u = "file")) as [Hfile|Hfile].
  - pose proof (singleFiles_files i lcName (files unit) v w0) as Hf.
    destruct (forOf (files unit) _ v w0) as [[v1|err|] w1]; [| exact Hf | contradiction].
    destruct Hf as (es & Hes & ->). simpl.
    exists es. split; [exact Hes |].
    destruct (singleSolutions_keeps l u (setArchive (archive v ++ es) v)) as [-> ->].
    split; reflexivity.
  - destruct (isKataOrTask u && (1 <? i)%nat && (1 <? unitCounter v)%nat); simpl;
      (exists []; split; [reflexivity |]; rewrite app_nil_r;
       match goal with
       | |- context [singleSolutions E ?l0 ?u0 ?v0] =>
           destruct (singleSolutions_keeps l0 u0 v0) as [-> ->]
       end; split; reflexivity).
Qed.

Lemma singleUnits_files (i : nat) (l : Lecture) (lcName : string)
    (us : list IDownloadUnit) (v : SingleVars) (w : World) :
  match forOf us (singleUnit E i l lcName) v w with
  | (Ok v', w') =>
      exists ess,
        allSome (imap (fun k unit =>
                         singleUnitFiles E (db w) i lcName (unitCounter v + k) unit) us)
        = Some ess
        /\ archive v' = archive v ++ concat ess
  | (Throw _, w') =>
      allSome (imap (fun k unit =>
                       singleUnitFiles E (db w) i lcName (unitCounter v + k) unit) us)
      = None
  | (Pending, _) => False
  end.
Proof.
  revert v w. induction us as [|x us IH]; intros v w.
  - simpl. exists []. split; [reflexivity |]. simpl. now rewrite app_nil_r.
  - simpl forOf. rewrite bind_run.
    rewrite (imap_offset_cons
               (fun n unit => singleUnitFiles E (db w) i lcName n unit)).
    cbv beta. rewrite allSome_cons.
    pose proof (singleUnit_files i l lcName v x w) as Hx.
    pose proof (singleUnit_run E i l lcName v x w) as Hs.
    destruct (singleUnit E i l lcName v x w) as [[v1|err|] w1];
      [| now rewrite Hx | contradiction].
    destruct Hx as (es1 & Hes1 & Har & Huc). destruct Hs as (Hs1 & _).
    specialize (IH v1 w1).
    assert (Hdb : db w1 = db w) by apply Hs1. rewrite Hdb, Huc in IH.
    rewrite Hes1.
    destruct (forOf us _ v1 w1) as [[v2|err|] w2].
    + destruct IH as (ess & Hess & Har2). rewrite Hess.
      exists (es1 :: ess). split; [reflexivity |].
      rewrite Har2, Har. simpl. now rewrite <- app_assoc.
    + now rewrite IH.
    + contradiction.
Qed.

Lemma singleLecture_files (i : nat) (v : SingleVars) (lec : IDownloadLecture)
    (w : World) :
  match singleLecture E (i, v) lec w with
  | (Ok (i', v'), w') =>
      exists es, singleLectureFiles E (db w) i lec = Some es
                 /\ archive v' = archive v ++ es
  | (Throw _, w') => singleLectureFiles E (db w) i lec = None
  | (Pending, _) => False
  end.
Proof.
  unfold singleLecture, singleLectureFiles. run_monad.
  set (w0 := {| db := db w; fs := fs w; clock := clock w; drawn := drawn w;
                log := log w ++ [EvFindLecture (lectureId lec)] |}).
  destruct (Lectures (db w) !! lectureId lec) as [l|]; [| reflexivity].
  set (v0 := if (1 <? i)%nat
             then addHtml (divNextPage +:+ lectureHeading l) (startLecture v)
             else addHtml ("<div>" +:+ lectureHeading l) (startLecture v)).
  assert (Hv0 : archive v0 = archive v /\ unitCounter v0 = 1%nat)
    by (subst v0; destruct (1 <? i)%nat; split; reflexivity).
  destruct Hv0 as (Har0 & Huc0).
  pose proof (singleUnits_files i l (replaceCharInFilename (l_name l)) (units lec)
                v0 w0) as Hu.
  rewrite Huc0 in Hu. clearbody v0. simpl in Hu.
  destruct (forOf (units lec) _ v0 w0) as [[v1|err|] w1].
  - destruct Hu as (ess & Hess & Har). rewrite Hess. simpl.
    eexists. split; [reflexivity |]. now rewrite Har, Har0.
  - now rewrite Hu.
  - contradiction.
Qed.

Lemma singleLectures_files (ls : list IDownloadLecture) (i : nat) (v : SingleVars)
    (w : World) :
  match forOf ls (singleLecture E) (i, v) w with
  | (Ok (i', v'), w') =>
      exists ess,
        allSome (imap (fun k lec => singleLectureFiles E (db w) (i + k) lec) ls)
        = Some ess
        /\ archive v' = archive v ++ concat ess
  | (Throw _, w') =>
      allSome (imap (fun k lec => singleLectureFiles E (db w) (i + k) lec) ls) = None
  | (Pending, _) => False
  end.
Proof.
  revert i v w. induction ls as [|x ls IH]; intros i v w.
  - simpl. exists []. split; [reflexivity |]. simpl. now rewrite app_nil_r.
  - simpl forOf. rewrite bind_run.
    rewrite (imap_offset_cons (fun n lec => singleLectureFiles E (db w) n lec)).
    cbv beta. rewrite allSome_cons.
    pose proof (singleLecture_files i v x w) as Hx.
    pose proof (singleLecture_run E i v x w) as Hs.
    destruct (singleLecture E (i, v) x w) as [[[i1 v1]|err|] w1];
      [| now rewrite Hx | contradiction].
    destruct Hx as (es1 & Hes1 & Har). destruct Hs as (Hs1 & -> & _).
    specialize (IH (S i) v1 w1).
    assert (Hdb : db w1 = db w) by apply Hs1. rewrite Hdb in IH.
    rewrite Hes1.
    destruct (forOf ls _ (S i, v1) w1) as [[[i2 v2]|err|] w2].
    + destruct IH as (ess & Hess & Har2). rewrite Hess.
      exists (es1 :: ess). split; [reflexivity |].
      rewrite Har2, Har. simpl. now rewrite <- app_assoc.
    + now rewrite IH.
    + contradiction.
Qed.

End SingleArchive.

(** ** What the loops need of a request *)

Section Ready.
Context (E : Env).

Lemma allSome_is_Some {A} (xs : list (option A)) :
  is_Some (allSome xs) <-> Forall is_Some xs.
Proof.
  induction xs as [|o xs IH]; simpl.
  - split; [constructor | eauto].
  - destruct o as [x|].
    + destruct (allSome xs) as [r|].
      * split; [| eauto]. intros _. constructor; [eauto | now apply IH].
      * split.
        -- intros [? H]. discriminate H.
        -- intros H. inversion H as [|? ? _ Hxs]; subst. now apply IH.
    + split.
      * intros [? H]. discriminate H.
      * intros H. inversion H as [|? ? [? Hn] _]; subst. discriminate Hn.
Qed.

Lemma allSome_map_is_Some {A B} (f : A -> option B) (xs : list A) :
  is_Some (allSome (map f xs)) <-> Forall (fun x => is_Some (f x)) xs.
Proof. rewrite allSome_is_Some. apply Forall_fmap. Qed.

Lemma allSome_imap_is_Some {A B} (f : nat -> A -> option B) (P : A -> Prop)
    (xs : list A) :
  (forall k x, is_Some (f k x) <-> P x) ->
  is_Some (allSome (imap f xs)) <-> Forall P xs.
Proof.
  intros Hf. rewrite allSome_is_Some. revert f Hf.
  induction xs as [|x xs IH]; intros f Hf; simpl.
  - split; constructor.
  - rewrite !Forall_cons, Hf. rewrite (IH (f ∘ S)); [reflexivity |].
    intros k y. apply Hf.
Qed.

Lemma fmap_concat_is_Some {A} (o : option (list (list A))) :
  is_Some (@concat A <$> o) <-> is_Some o.
Proof. apply fmap_is_Some. Qed.

Lemma fileEntry_is_Some (d : Database) (i : nat) (lcName : string) (j : nat)
    (id : JsValue) :
  is_Some (fileEntry d i lcName j id) <-> is_Some (Files d id).
Proof.
  unfold fileEntry. destruct (Files d id); split; intros [? H];
    (discriminate H || eauto).
Qed.

Lemma unitEntries_is_Some (d : Database) (i : nat) (lcName : string) (j : nat)
    (unit : IDownloadUnit) :
  is_Some (unitEntries E d i lcName j unit) <-> unitReady E d unit.
Proof.
  unfold unitEntries, unitReady, filesResolve.
  destruct (Units d !! unitId unit) as [u|].
  - destruct (decide (u_t u = "file")).
    + rewrite allSome_map_is_Some. apply Forall_iff. intros id.
      apply fileEntry_is_Some.
    + destruct (htmlToPdf E _ optionsIndividual); split; intros [? H];
        (discriminate H || eauto).
  - split; [intros [? H]; discriminate H | contradiction].
Qed.

Lemma lectureEntries_is_Some (d : Database) (i : nat) (lec : IDownloadLecture) :
  is_Some (lectureEntries E d i lec)
  <-> is_Some (Lectures d !! lectureId lec) /\ Forall (unitReady E d) (units lec).
Proof.
  unfold lectureEntries. destruct (Lectures d !! lectureId lec) as [l|].
  - rewrite fmap_concat_is_Some, allSome_imap_is_Some
      by (intros; apply unitEntries_is_Some).
    split; [eauto | tauto].
  - split; [intros [? H]; discriminate H | intros [[? H] _]; discriminate H].
Qed.

Lemma archiveEntries_is_Some (d : Database) (data : IDownload) :
  is_Some (archiveEntries E d data) <-> individualReady E d data.
Proof.
  unfold archiveEntries, individualReady.
  rewrite fmap_concat_is_Some. apply allSome_imap_is_Some.
  intros k lec. apply lectureEntries_is_Some.
Qed.

Lemma singleFileEntry_is_Some (d : Database) (i : nat) (lcName : string) (j : nat)
    (id : JsValue) :
  is_Some (singleFileEntry E d i lcName j id) <-> is_Some (Files d id).
Proof.
  unfold singleFileEntry. destruct (Files d id); split; intros [? H];
    (discriminate H || eauto).
Qed.

Lemma singleUnitFiles_is_Some (d : Database) (i : nat) (lcName : string) (j : nat)
    (unit : IDownloadUnit) :
  is_Some (singleUnitFiles E d i lcName j unit) <-> unitAttachable d unit.
Proof.
  unfold singleUnitFiles, unitAttachable, filesResolve.
  destruct (Units d !! unitId unit) as [u|].
  - destruct (decide (u_t u = "file")).
    + rewrite allSome_map_is_Some. apply Forall_iff. intros id.
      apply singleFileEntry_is_Some.
    + split; eauto.
  - split; [intros [? H]; discriminate H | contradiction].
Qed.

Lemma singleLectureFiles_is_Some (d : Database) (i : nat) (lec : IDownloadLecture) :
  is_Some (singleLectureFiles E d i lec)
  <-> is_Some (Lectures d !! lectureId lec) /\ Forall (unitAttachable d) (units lec).
Proof.
  unfold singleLectureFiles. destruct (Lectures d !! lectureId lec) as [l|].
  - rewrite fmap_concat_is_Some, allSome_imap_is_Some
      by (intros; apply singleUnitFiles_is_Some).
    split; [eauto | tauto].
  - split; [intros [? H]; discriminate H | intros [[? H] _]; discriminate H].
Qed.

Lemma singleAttachments_is_Some (d : Database) (data : IDownload) :
  is_Some (singleAttachments E d data) <-> attachmentsReady d data.
Proof.
  unfold singleAttachments, attachmentsReady.
  rewrite fmap_concat_is_Some. apply allSome_imap_is_Some.
  intros k lec. apply singleLectureFiles_is_Some.
Qed.

(** The work of the single export, every way, by its attachments *)
Lemma singleBody_run (data : IDownload) (course : ICourse) (w : World) :
  let p := realpath E (cacheFilePath E (hashOf E w)) in
  match singleBody E data course w with
  | (Ok hash, w') =>
      opens (fs w) p = true
      /\ exists resolved pdf attachments,
           resolveRequest (db w) data = Some resolved
           /\ htmlToPdf E (singleHtml E resolved) (optionsSingle course) = Some pdf
           /\ singleAttachments E (db w) data = Some attachments
           /\ fs w' = <[p := zipped E w p
                               (attachments
                                ++ [EntryBuffer pdf
                                      (replaceCharInFilename (c_name course)
                                       +:+ ".pdf")])]> (fs w)
  | (Throw e, w') =>
      singleAttachments E (db w) data = None
      \/ exists resolved,
           resolveRequest (db w) data = Some resolved
           /\ htmlToPdf E (singleHtml E resolved) (optionsSingle course) = None
  | (Pending, _) =>
      opens (fs w) p = false
      /\ exists resolved pdf attachments,
           resolveRequest (db w) data = Some resolved
           /\ htmlToPdf E (singleHtml E resolved) (optionsSingle course) = Some pdf
           /\ singleAttachments E (db w) data = Some attachments
  end.
Proof.
  intros p. rewrite singleBody_eq. unfold resolveRequest, singleAttachments.
  match goal with
  | |- context [forOf (lectures data) (singleLecture E) (1%nat, ?v0) ?w3] =>
      pose proof (singleLectures_run E (lectures data) 1 v0 w3) as Hl;
      pose proof (singleLectures_files E (lectures data) 1 v0 w3) as Hf;
      destruct (forOf (lectures data) (singleLecture E) (1%nat, v0) w3)
        as [[[i1 v1]|err|] w4]
  end; [| | contradiction].
  - destruct Hl as ((Hd & Hfs & _) & rls & es & Hrls & Hes & Hh & Hsol & _ & Har).
    destruct Hf as (ess & Hess & Har').
    simpl in Hrls, Hd, Hh, Hsol, Har, Hess, Har'. simpl snd.
    assert (Hhtml : (html v1 +:+ solutions v1) +:+ "</div></body>" +:+ "</html>"
                    = singleHtml E rls).
    { rewrite Hh, Hsol. unfold singleHtml, allContent, solutionsSection.
      rewrite !PathFacts.app_assoc_str. reflexivity. }
    rewrite Hhtml, Hrls, Hess. simpl fmap.
    destruct (htmlToPdf E (singleHtml E rls) (optionsSingle course)) as [pdf|] eqn:Hpdf.
    + match goal with
      | |- context [finish E w ?w5 ?arch] =>
          pose proof (finish_cases E w w5 arch Hd Hfs) as Hfin
      end.
      cbv zeta in Hfin. fold p in Hfin. rewrite Har' in *.
      destruct (opens (fs w) p) eqn:Hopen;
        destruct Hfin as (w' & -> & Hd' & Hf').
      * split; [reflexivity |]. exists rls, pdf, (concat ess). rewrite Hpdf. auto.
      * split; [reflexivity |]. exists rls, pdf, (concat ess). rewrite Hpdf. auto.
    + right. exists rls. split; [reflexivity | exact Hpdf].
  - left. simpl in Hf. now rewrite Hf.
Qed.

End Ready.

(** ** How an export ends *)

Section ExportOutcome.
Context (E : Env).

(** Every way [postDownloadRequestPDFIndividual] ends once the guards are
    passed *)
Lemma individual_outcome (data : IDownload) (user : IUser) (w : World)
    (course : ICourse) :
  lectures data <> [] -> Courses (db w) !! courseName data = Some course ->
  mayExport course user = true -> allUnitsExist (db w) data ->
  ~ sizeExceeded (db w) data ->
  match postDownloadRequestPDFIndividual E data user w with
  | (Ok hash, _) =>
      hash = hashOf E w /\ individualReady E (db w) data
      /\ opens (fs w) (realpath E (cacheFilePath E (hashOf E w))) = true
  | (Throw e, _) => isLoopError e /\ ~ individualReady E (db w) data
  | (Pending, _) =>
      individualReady E (db w) data
      /\ opens (fs w) (realpath E (cacheFilePath E (hashOf E w))) = false
  end.
Proof.
  intros Hl Hc Hm Hu Hs. rewrite individual_withGuards.
  destruct (withGuards_pass data user (individualBody E data) w course
              Hl Hc Hm Hu Hs) as (w1 & -> & Hw1).
  pose proof (hashOf_onlyLookups E w w1 Hw1) as Hh.
  destruct Hw1 as (Hdb & Hfs & _).
  pose proof (individualBody_cases E data course w1) as H.
  cbv zeta in H. rewrite Hh, Hdb, Hfs in H.
  destruct (individualBody E data course w1) as [[hash|e|] w'] eqn:Hrun.
  - destruct H as (-> & _ & entries & Hent & _ & Hopen).
    split; [reflexivity |]. split; [| exact Hopen].
    apply archiveEntries_is_Some. rewrite Hent. eauto.
  - split.
    + apply (individualBody_error E data course w1 w' e); [| exact Hrun].
      now rewrite Hdb.
    + apply individualBody_fails in Hrun. rewrite Hdb in Hrun.
      intros Hready. apply archiveEntries_is_Some in Hready as [x Hx]. congruence.
  - destruct H as (Hopen & _ & _ & Hent).
    split; [now apply archiveEntries_is_Some | exact Hopen].
Qed.

(** X14: once the guards are passed, [postDownloadRequestPDFIndividual]
    ends in one of three ways.  When every requested lecture exists, every
    selected file of a file unit is a [File] document and every other unit
    renders to a PDF, it returns the hash if the write stream on the archive
    file opened, and never settles if it did not (the [close] it waits for
    never comes); otherwise it throws, a [TypeError] or the error of the
    renderer.  So it returns the hash exactly when the request is of that
    kind and the stream opened. *)
Theorem individual_export_succeeds_iff (data : IDownload) (user : IUser)
    (w : World) (course : ICourse) :
  lectures data <> [] -> Courses (db w) !! courseName data = Some course ->
  mayExport course user = true -> allUnitsExist (db w) data ->
  ~ sizeExceeded (db w) data ->
  (individualReady E (db w) data ->
   opens (fs w) (realpath E (cacheFilePath E (hashOf E w))) = true ->
   exists w', postDownloadRequestPDFIndividual E data user w = (Ok (hashOf E w), w'))
  /\ (individualReady E (db w) data ->
      opens (fs w) (realpath E (cacheFilePath E (hashOf E w))) = false ->
      exists w', postDownloadRequestPDFIndividual E data user w = (Pending, w'))
  /\ (~ individualReady E (db w) data ->
      exists e w', postDownloadRequestPDFIndividual E data user w = (Throw e, w')
                   /\ isLoopError e)
  /\ (forall hash w',
        postDownloadRequestPDFIndividual E data user w = (Ok hash, w') ->
        hash = hashOf E w /\ individualReady E (db w) data
        /\ opens (fs w) (realpath E (cacheFilePath E (hashOf E w))) = true).
Proof.
  intros Hl Hc Hm Hu Hs.
  pose proof (individual_outcome data user w course Hl Hc Hm Hu Hs) as H.
  destruct (postDownloadRequestPDFIndividual E data user w) as [[hash|e|] w1].
  - destruct H as (-> & Hready & Hopen).
    split; [intros _ _; eauto |]. split; [intros _ Hno; congruence |].
    split; [intros Hno; contradiction |].
    intros hash w' Heq. injection Heq as <- <-. auto.
  - destruct H as (He & Hno).
    split; [intros Hready; contradiction |].
    split; [intros Hready; contradiction |].
    split; [intros _; eauto | intros hash w' Heq; discriminate Heq].
  - destruct H as (Hready & Hopen).
    split; [intros _ Hyes; congruence |]. split; [intros _ _; eauto |].
    split; [intros Hno; contradiction | intros hash w' Heq; discriminate Heq].
Qed.

(** What [postDownloadRequestPDFSingle] needs of a request to get through
    its loops and render its PDF *)
Lemma single_outcome (data : IDownload) (user : IUser) (w : World)
    (course : ICourse) :
  lectures data <> [] -> Courses (db w) !! courseName data = Some course ->
  mayExport course user = true -> allUnitsExist (db w) data ->
  ~ sizeExceeded (db w) data ->
  let ready :=
    attachmentsReady (db w) data
    /\ exists resolved,
         resolveRequest (db w) data = Some resolved
         /\ is_Some (htmlToPdf E (singleHtml E resolved) (optionsSingle course)) in
  match postDownloadRequestPDFSingle E data user w with
  | (Ok hash, _) =>
      hash = hashOf E w /\ ready
      /\ opens (fs w) (realpath E (cacheFilePath E (hashOf E w))) = true
  | (Throw e, _) => isLoopError e /\ ~ ready
  | (Pending, _) =>
      ready /\ opens (fs w) (realpath E (cacheFilePath E (hashOf E w))) = false
  end.
Proof.
  intros Hl Hc Hm Hu Hs ready. subst ready. rewrite single_withGuards.
  destruct (withGuards_pass data user (singleBody E data) w course
              Hl Hc Hm Hu Hs) as (w1 & -> & Hw1).
  pose proof (hashOf_onlyLookups E w w1 Hw1) as Hh.
  destruct Hw1 as (Hdb & Hfs & _).
  pose proof (singleBody_run E data course w1) as H.
  pose proof (singleBody_ok E data course w1) as Hok.
  cbv zeta in H. rewrite Hh, Hdb, Hfs in H.
  destruct (singleBody E data course w1) as [[hash|e|] w'] eqn:Hrun.
  - destruct (Hok w' hash eq_refl) as (-> & _).
    destruct H as (Hopen & resolved & pdf & att & Hres & Hpdf & Hatt & _).
    split; [exact Hh |]. split; [| exact Hopen].
    split; [apply (singleAttachments_is_Some E); rewrite Hatt; eauto |].
    exists resolved. split; [exact Hres |]. rewrite Hpdf. eauto.
  - split.
    + apply (singleBody_error E data course w1 w' e); [| exact Hrun].
      now rewrite Hdb.
    + intros (Hatt & resolved & Hres & [pdf Hpdf]).
      apply (singleAttachments_is_Some E) in Hatt as [att Hatt].
      destruct H as [Hnone | (resolved' & Hres' & Hnone)]; congruence.
  - destruct H as (Hopen & resolved & pdf & att & Hres & Hpdf & Hatt).
    split; [| exact Hopen].
    split; [apply (singleAttachments_is_Some E); rewrite Hatt; eauto |].
    exists resolved. split; [exact Hres |]. rewrite Hpdf. eauto.
Qed.

(** X15: once the guards are passed, [postDownloadRequestPDFSingle] ends in
    one of three ways.  When every requested lecture exists, every selected
    file of a file unit is a [File] document and the one PDF renders, it
    returns the hash if the write stream on the archive file opened, and
    never settles if it did not; otherwise it throws, a [TypeError] or the
    error of the renderer.  So it returns the hash exactly when the request
    is of that kind and the stream opened. *)
Theorem single_export_succeeds_iff (data : IDownload) (user : IUser)
    (w : World) (course : ICourse) :
  lectures data <> [] -> Courses (db w) !! courseName data = Some course ->
  mayExport course user = true -> allUnitsExist (db w) data ->
  ~ sizeExceeded (db w) data ->
  let ready :=
    attachmentsReady (db w) data
    /\ exists resolved,
         resolveRequest (db w) data = Some resolved
         /\ is_Some (htmlToPdf E (singleHtml E resolved) (optionsSingle course)) in
  (ready ->
   opens (fs w) (realpath E (cacheFilePath E (hashOf E w))) = true ->
   exists w', postDownloadRequestPDFSingle E data user w = (Ok (hashOf E w), w'))
  /\ (ready ->
      opens (fs w) (realpath E (cacheFilePath E (hashOf E w))) = false ->
      exists w', postDownloadRequestPDFSingle E data user w = (Pending, w'))
  /\ (~ ready ->
      exists e w', postDownloadRequestPDFSingle E data user w = (Throw e, w')
                   /\ isLoopError e)
  /\ (forall hash w',
        postDownloadRequestPDFSingle E data user w = (Ok hash, w') ->
        hash = hashOf E w /\ ready
        /\ opens (fs w) (realpath E (cacheFilePath E (hashOf E w))) = true).
Proof.
  intros Hl Hc Hm Hu Hs ready.
  pose proof (single_outcome data user w course Hl Hc Hm Hu Hs) as H.
  cbv zeta in H. fold ready in H.
  destruct (postDownloadRequestPDFSingle E data user w) as [[hash|e|] w1].
  - destruct H as (-> & Hready & Hopen).
    split; [intros _ _; eauto |]. split; [intros _ Hno; congruence |].
    split; [intros Hno; contradiction |].
    intros hash w' Heq. injection Heq as <- <-. auto.
  - destruct H as (He & Hno).
    split; [intros Hready; contradiction |].
    split; [intros Hready; contradiction |].
    split; [intros _; eauto | intros hash w' Heq; discriminate Heq].
  - destruct H as (Hready & Hopen).
    split; [intros _ Hyes; congruence |]. split; [intros _ _; eauto |].
    split; [intros Hno; contradiction | intros hash w' Heq; discriminate Heq].
Qed.

(** The attachments of a requested unit, by its place in the request *)
Lemma singleAttachments_layout (d : Database) (data : IDownload)
    (attachments : list ArchiveEntry) (a b : nat) (lec : IDownloadLecture)
    (unit : IDownloadUnit) :
  singleAttachments E d data = Some attachments ->
  lectures data !! a = Some lec -> units lec !! b = Some unit ->
  exists l u,
    Lectures d !! lectureId lec = Some l
    /\ Units d !! unitId unit = Some u
    /\ (u_t u = "file" ->
        forall c id, files unit !! c = Some id ->
        exists f,
          Files d id = Some f
          /\ EntryFile (Path.join (config.uploadFolder E) (f_link f))
               (pretty (S a) +:+ "_" +:+ replaceCharInFilename (l_name l) +:+ "/"
                +:+ pretty (S b) +:+ "_" +:+ f_name f) ∈ attachments).
Proof.
  unfold singleAttachments. intros Hent Hlec Hunit.
  apply fmap_Some in Hent as (ess & Hess & ->).
  assert (Ha : imap (fun i lec => singleLectureFiles E d (S i) lec) (lectures data) !! a
               = Some (singleLectureFiles E d (S a) lec))
    by (rewrite list_lookup_imap, Hlec; reflexivity).
  destruct (allSome_lookup _ _ _ _ Hess Ha) as (es & Hes & Hessa).
  unfold singleLectureFiles in Hes.
  destruct (Lectures d !! lectureId lec) as [l|]; [| discriminate].
  apply fmap_Some in Hes as (uss & Huss & ->).
  assert (Hb : imap (fun j unit => singleUnitFiles E d (S a)
                                     (replaceCharInFilename (l_name l)) (S j) unit)
                    (units lec) !! b
               = Some (singleUnitFiles E d (S a) (replaceCharInFilename (l_name l))
                         (S b) unit))
    by (rewrite list_lookup_imap, Hunit; reflexivity).
  destruct (allSome_lookup _ _ _ _ Huss Hb) as (ues & Hues & Hussb).
  unfold singleUnitFiles in Hues.
  destruct (Units d !! unitId unit) as [u|]; [| discriminate].
  exists l, u. split; [reflexivity |]. split; [reflexivity |].
  intros Hfile c id Hc. rewrite decide_True in Hues by assumption.
  assert (Hm : map (singleFileEntry E d (S a) (replaceCharInFilename (l_name l)) (S b))
                   (files unit) !! c
               = Some (singleFileEntry E d (S a) (replaceCharInFilename (l_name l))
                         (S b) id)).
  { change (map ?f ?l) with (f <$> l). now rewrite list_lookup_fmap, Hc. }
  destruct (allSome_lookup _ _ _ _ Hues Hm) as (e & He & Hesc).
  unfold singleFileEntry in He. destruct (Files d id) as [f|]; [| discriminate].
  injection He as <-. exists f. split; [reflexivity |].
  eapply elem_of_concat_lookup; [exact Hessa |].
  eapply elem_of_concat_lookup; [exact Hussb |].
  eapply list_elem_of_lookup_2. exact Hesc.
Qed.

(** X16: when [postDownloadRequestPDFSingle] succeeds, the entries it added
    to the archive are the selected attachments of the file units, lecture
    by lecture and unit by unit in request order (those of
    [singleAttachments]), and after them the one PDF, named by the
    sanitized name of the course; the archive file holds what the archiver
    made of them.  The [c]-th selected file of a file unit, the [b]-th unit
    of the [a]-th lecture counted from [0], was added as it lies in the
    upload folder under the name
    [<a+1>_<sanitized lecture name>/<b+1>_<file name>]. *)
Theorem single_archive_layout (data : IDownload) (user : IUser)
    (w w' : World) (hash : string) :
  postDownloadRequestPDFSingle E data user w = (Ok hash, w') ->
  exists course resolved pdf attachments st,
    Courses (db w) !! courseName data = Some course
    /\ resolveRequest (db w) data = Some resolved
    /\ htmlToPdf E (singleHtml E resolved) (optionsSingle course) = Some pdf
    /\ singleAttachments E (db w) data = Some attachments
    /\ fs w' !! realpath E (cacheFilePath E hash) = Some st
    /\ content st
       = archiver E (streamed w (realpath E (cacheFilePath E hash)))
           (attachments
            ++ [EntryBuffer pdf (replaceCharInFilename (c_name course) +:+ ".pdf")])
    /\ forall a lec b unit,
         lectures data !! a = Some lec -> units lec !! b = Some unit ->
         exists l u,
           Lectures (db w) !! lectureId lec = Some l
           /\ Units (db w) !! unitId unit = Some u
           /\ (u_t u = "file" ->
               forall c id, files unit !! c = Some id ->
               exists f,
                 Files (db w) id = Some f
                 /\ EntryFile (Path.join (config.uploadFolder E) (f_link f))
                      (pretty (S a) +:+ "_" +:+ replaceCharInFilename (l_name l)
                       +:+ "/" +:+ pretty (S b) +:+ "_" +:+ f_name f)
                    ∈ attachments).
Proof.
  rewrite single_withGuards. intros Hrun.
  apply withGuards_ok in Hrun
    as (course & w1 & _ & Hc & _ & _ & _ & Hw1 & Hbody).
  pose proof (singleBody_run E data course w1) as H.
  pose proof (singleBody_ok E data course w1 w' hash Hbody) as (Hh & _).
  rewrite Hbody in H. cbv zeta in H. rewrite <- Hh in H.
  destruct H as (_ & resolved & pdf & att & Hres & Hpdf & Hatt & Hfs).
  destruct Hw1 as (Hdb & Hf1 & Hc1 & _). rewrite Hdb in Hres, Hatt.
  exists course, resolved, pdf, att. eexists.
  split; [exact Hc |]. split; [exact Hres |]. split; [exact Hpdf |].
  split; [exact Hatt |]. split; [rewrite Hfs; apply lookup_insert_eq |].
  split.
  - unfold zipped, streamed. simpl. now rewrite Hf1, Hc1.
  - intros a lec b unit. now apply singleAttachments_layout.
Qed.

End ExportOutcome.

(** ** More on serving an archive *)

Section Serving.
Context (E : Env).

(** X17: [getArchivedFile] changes neither the database nor the file
    system; it always settles; it throws nothing but [ForbiddenError],
    [NotFoundError] and, when the path of the archive names a folder, the
    [EISDIR] of the download; and the response it returns carries, after
    the headers it had, [Connection: keep-alive] and
    [Access-Control-Expose-Headers: Content-Disposition]. *)
Theorem getArchivedFile_reads_only (id : string) (response : Response) (w : World) :
  db (snd (getArchivedFile E id response w)) = db w
  /\ fs (snd (getArchivedFile E id response w)) = fs w
  /\ fst (getArchivedFile E id response w) <> Pending
  /\ (forall e, fst (getArchivedFile E id response w) = Throw e ->
        e = ForbiddenError \/ e = NotFoundError
        \/ (e = EISDIR /\ isDir (fs w) (realpath E (cacheFilePath E id)) = true))
  /\ (forall r, fst (getArchivedFile E id response w) = Ok r ->
        r_headers r
        = r_headers response
          ++ [("Connection", "keep-alive");
              ("Access-Control-Expose-Headers", "Content-Disposition")]).
Proof.
  rewrite getArchivedFile_unfold. unfold isDir.
  destruct (bool_decide (Path.dirname (cacheFilePath E id) = tmpDir E)); simpl.
  - run_monad.
    destruct (fs w !! realpath E (cacheFilePath E id)) as [st|] eqn:Hst; simpl.
    + repeat (rewrite Hst; simpl). destruct (isDirectory st) eqn:Hd; simpl.
      * split; [reflexivity |]. split; [reflexivity |]. split; [discriminate |].
        split; [| discriminate]. intros e He. injection He as <-. auto.
      * split; [reflexivity |]. split; [reflexivity |]. split; [discriminate |].
        split; [discriminate |]. intros r Hr. injection Hr as <-. simpl.
        now rewrite <- app_assoc.
    + split; [reflexivity |]. split; [reflexivity |]. split; [discriminate |].
      split; [| discriminate]. intros e He. injection He as <-. auto.
  - split; [reflexivity |]. split; [reflexivity |]. split; [discriminate |].
    split; [| discriminate]. intros e He. injection He as <-. auto.
Qed.

Hypothesis appRoot_absolute : Path.isAbsolute (appRoot E) = true.

(** X18: an id without a path separator is never refused: when the cache
    folder has nothing named [download_<id>.zip] the call throws
    [NotFoundError], when it has a file of that name the call serves it,
    and when it has a folder of that name the download fails with
    [EISDIR]. *)
Theorem getArchivedFile_plain_id (id : string) (response : Response) (w : World) :
  noSlash id = true ->
  let filePath := child (tmpDir E) ("download_" +:+ id +:+ ".zip") in
  (fs w !! filePath = None ->
     fst (getArchivedFile E id response w) = Throw NotFoundError)
  /\ (forall st, fs w !! filePath = Some st -> isDirectory st = false ->
        exists r, fst (getArchivedFile E id response w) = Ok r
                  /\ r_file r = filePath /\ r_body r = content st)
  /\ (forall st, fs w !! filePath = Some st -> isDirectory st = true ->
        fst (getArchivedFile E id response w) = Throw EISDIR).
Proof.
  intros Hid filePath.
  destruct (cacheFilePath_noSlash E appRoot_absolute id Hid) as (Hpath & Hplain).
  assert (Hin : directlyInside (tmpDir E) (cacheFilePath E id))
    by (eexists; split; [exact Hplain | exact Hpath]).
  destruct (getArchivedFile_path_safe_aux E appRoot_absolute id response w)
    as (_ & Hnf & Hserve & Hfolder & _).
  unfold filePath. rewrite <- Hpath. split; [| split].
  - apply (Hnf Hin).
  - apply (Hserve Hin).
  - apply (Hfolder Hin).
Qed.

End Serving.

(** ** More on the sweep *)

Section SweepPattern.
#[local] Arguments String.append !_ _ / : simpl nomatch.

Lemma matchesPattern_context (pre s post : string) :
  matchesPattern s -> matchesPattern (pre +:+ s +:+ post).
Proof.
  intros (p & w & d & q & -> & Hw & Hall & Hd).
  exists (pre +:+ p), w, d, (q +:+ post).
  split; [| auto].
  rewrite !PathFacts.app_assoc_str. simpl. reflexivity.
Qed.

(** X19: the pattern of the sweep is not anchored: a name that holds a
    matching name, with any text before and after, matches too. *)
Theorem sweep_pattern_loose (pre s post : string) :
  regexTest s = true -> regexTest (pre +:+ s +:+ post) = true.
Proof.
  rewrite !regexTest_spec. apply matchesPattern_context.
Qed.

Lemma hex_word (c : ascii) : isHexChar c = true -> isWordChar c = true.
Proof.
  unfold isHexChar, isWordChar, isAlnum, between, charCode.
  intros H. apply orb_true_iff in H as [H|H].
  - now rewrite H.
  - apply andb_true_iff in H as [H1 H2].
    apply Nat.leb_le in H1. apply Nat.leb_le in H2.
    assert (H3 : (97 <=? nat_of_ascii c)%nat = true) by (apply Nat.leb_le; lia).
    assert (H4 : (nat_of_ascii c <=? 122)%nat = true) by (apply Nat.leb_le; lia).
    rewrite H3, H4. simpl. now rewrite !orb_true_r.
Qed.

Lemma archive_name_matches (hash : string) :
  hash <> "" -> allChars isHexChar hash = true ->
  regexTest ("download_" +:+ hash +:+ ".zip") = true.
Proof.
  intros Hne Hhex. apply regexTest_spec.
  exists "", hash, "."%char, "". split; [reflexivity |]. split; [exact Hne |].
  split; [| reflexivity].
  clear Hne. induction hash as [|c r IH]; [reflexivity |]. simpl in *.
  apply andb_true_iff in Hhex as [Hc Hr]. now rewrite (hex_word c Hc), IH.
Qed.

Lemma basename_child (dir n : string) :
  noSlash n = true -> basename (child dir n) = n.
Proof.
  intros Hn. unfold basename, child.
  destruct (decide (dir = "/")).
  - change ("/" +:+ n) with ("" +:+ String "/" n).
    rewrite PathFacts.split_app_sep, (PathFacts.split_noSlash n Hn). reflexivity.
  - change ("/" +:+ n) with (String "/" n).
    rewrite PathFacts.split_app_sep, (PathFacts.split_noSlash n Hn).
    apply last_last.
Qed.

Lemma entryOf_child (dir n : string) :
  isPlain n = true -> entryOf dir (child dir n) = Some n.
Proof.
  intros Hn. unfold entryOf.
  rewrite basename_child by now apply PathFacts.isPlain_noSlash.
  unfold isPlain in Hn. apply andb_true_iff in Hn as [Hn _]. rewrite Hn.
  now rewrite bool_decide_eq_true_2.
Qed.

Lemma length_app_str (a b : string) :
  String.length (a +:+ b) = (String.length a + String.length b)%nat.
Proof. induction a as [|c a IH]; simpl; [reflexivity | now rewrite IH]. Qed.

Lemma child_neq (dir n : string) : n <> "" -> child dir n <> dir.
Proof.
  intros Hn. unfold child. destruct (decide (dir = "/")) as [->|_].
  - destruct n; [contradiction | discriminate].
  - intros Heq. apply (f_equal String.length) in Heq.
    rewrite !length_app_str in Heq. simpl in Heq. lia.
Qed.

End SweepPattern.

Section SweepAgain.
Context (E : Env).
Hypothesis appRoot_absolute : Path.isAbsolute (appRoot E) = true.

Lemma sweepFile_keeps (expire : Z) (n : string) (w : World) :
  db (snd (sweepFile E expire tt n w)) = db w
  /\ clock (snd (sweepFile E expire tt n w)) = clock w.
Proof.
  unfold sweepFile. destruct (regexTest n); simpl; [| split; reflexivity].
  run_monad.
  destruct (fs w !! realpath E (Path.join (config.tmpFileCacheFolder E) n))
    as [st|] eqn:Hst; simpl; [| split; reflexivity].
  destruct (ctimeMs st >=? expire)%Z; simpl; [split; reflexivity |].
  rewrite Hst. simpl. destruct (isDirectory st); split; reflexivity.
Qed.

Lemma sweepLoop_keeps (expire : Z) (ns : list string) (w : World) :
  db (snd (forOf ns (sweepFile E expire) tt w)) = db w
  /\ clock (snd (forOf ns (sweepFile E expire) tt w)) = clock w.
Proof.
  revert w. induction ns as [|n ns IH]; intros w; [split; reflexivity |].
  simpl forOf. rewrite bind_run.
  pose proof (sweepFile_keeps expire n w) as [Hd Hc].
  destruct (sweepFile E expire tt n w) as [[[]|e|] w1]; simpl in *.
  - destruct (IH w1) as [Hd1 Hc1]. split; congruence.
  - split; assumption.
  - split; assumption.
Qed.

Lemma cleanupCache_keeps (w : World) :
  db (snd (cleanupCache E w)) = db w /\ clock (snd (cleanupCache E w)) = clock w.
Proof.
  rewrite cleanupCache_unfold. unfold readdirSync. run_monad.
  destruct (fs w !! realpath E (config.tmpFileCacheFolder E)) as [s|]; simpl;
    [| split; reflexivity].
  destruct (isDirectory s); simpl; [| split; reflexivity].
  match goal with
  | |- context [forOf ?ns (sweepFile E ?x) tt ?w0] =>
      pose proof (sweepLoop_keeps x ns w0) as H;
      destruct (forOf ns (sweepFile E x) tt w0) as [[[]|e|] w1]
  end; exact H.
Qed.

(** X20: on a cache folder without an expired folder of a matching name, a
    second sweep at the same time deletes nothing more: after
    [cleanupCache] a further [cleanupCache] ends without an error and
    leaves the file system as the first left it; the database and the
    clock are untouched by both. *)
Theorem cleanupCache_idempotent (w : World) :
  isDir (fs w) (tmpDir E) = true ->
  (forall p st, fs w !! p = Some st -> expired E (clock w) p st = true ->
                isDirectory st = false) ->
  exists w1 w2,
    cleanupCache E w = (Ok tt, w1)
    /\ cleanupCache E w1 = (Ok tt, w2)
    /\ fs w2 = fs w1 /\ db w2 = db w /\ clock w2 = clock w.
Proof.
  intros Hdir Hfiles.
  destruct (cleanupCache_ok E appRoot_absolute w Hdir Hfiles) as (w1 & Hrun1 & Hfs1).
  pose proof (cleanupCache_keeps w) as [Hd1 Hc1]. rewrite Hrun1 in Hd1, Hc1.
  simpl in Hd1, Hc1.
  assert (Hsub : forall p st, fs w1 !! p = Some st ->
            fs w !! p = Some st /\ expired E (clock w) p st = false).
  { intros p st Hst. rewrite Hfs1 in Hst.
    destruct (fs w !! p) as [st0|]; [| discriminate].
    destruct (expired E (clock w) p st0) eqn:Hex; [discriminate |].
    injection Hst as <-. auto. }
  assert (Hdir1 : isDir (fs w1) (tmpDir E) = true).
  { unfold isDir in *. rewrite Hfs1.
    destruct (fs w !! tmpDir E) as [st|] eqn:Hst; [| discriminate].
    destruct (expired E (clock w) (tmpDir E) st) eqn:Hex; [| exact Hdir].
    rewrite (Hfiles _ _ Hst Hex) in Hdir. discriminate. }
  assert (Hfiles1 : forall p st, fs w1 !! p = Some st ->
            expired E (clock w1) p st = true -> isDirectory st = false).
  { intros p st Hst Hex. rewrite Hc1 in Hex.
    destruct (Hsub p st Hst) as [_ Hno]. congruence. }
  destruct (cleanupCache_ok E appRoot_absolute w1 Hdir1 Hfiles1) as (w2 & Hrun2 & Hfs2).
  pose proof (cleanupCache_keeps w1) as [Hd2 Hc2]. rewrite Hrun2 in Hd2, Hc2.
  simpl in Hd2, Hc2.
  exists w1, w2. split; [exact Hrun1 |]. split; [exact Hrun2 |].
  split; [| split; congruence].
  apply map_eq. intros p. rewrite Hfs2.
  destruct (fs w1 !! p) as [st|] eqn:Hst; [| reflexivity].
  destruct (Hsub p st Hst) as [_ Hno]. now rewrite Hc1, Hno.
Qed.

(** X21: the archive of a successful export survives every [deleteCache]
    made up to one hour ([3600 * 1000] ms) after the export, however that
    sweep ends, and is then still served by [getArchivedFile] with its
    content; a [deleteCache] made later than that, on a cache folder
    without an expired folder of a matching name, ends without an error
    and deletes the archive, and [getArchivedFile] then throws
    [NotFoundError]. *)
Theorem exported_archive_lifetime (data : IDownload) (user : IUser)
    (w w' : World) (hash : string) (response : Response) (t : Z) :
  postDownloadRequestPDFIndividual E data user w = (Ok hash, w')
  \/ postDownloadRequestPDFSingle E data user w = (Ok hash, w') ->
  exists st,
    fs w' !! cacheFilePath E hash = Some st
    /\ isDirectory st = false
    /\ ((t <= clock w + 3600 * 1000)%Z ->
          exists r,
            fst (getArchivedFile E hash response
                   (snd (deleteCache E (atTime t w')))) = Ok r
            /\ r_body r = content st)
    /\ ((clock w + 3600 * 1000 < t)%Z ->
        (forall p s, fs w' !! p = Some s -> expired E t p s = true ->
                     isDirectory s = false) ->
        exists w'',
          deleteCache E (atTime t w') = (Ok tt, w'')
          /\ fst (getArchivedFile E hash response w'') = Throw NotFoundError).
Proof.
  intros Hrun.
  destruct (exported_file E appRoot_absolute data user w w' hash Hrun)
    as (Hh & _ & Hopen & entries & Hfs & _).
  destruct (hashOf_facts E w) as (Hlen & Hhex). rewrite <- Hh in Hlen, Hhex.
  assert (Hne : hash <> "") by (intros ->; discriminate Hlen).
  destruct (cacheFilePath_noSlash E appRoot_absolute hash (hex_noSlash _ Hhex))
    as (Hpath & Hplain).
  assert (Hin : directlyInside (tmpDir E) (cacheFilePath E hash))
    by (eexists; split; [exact Hplain | exact Hpath]).
  set (st := zipped E w (cacheFilePath E hash) entries) in *.
  assert (Hst : fs w' !! cacheFilePath E hash = Some st)
    by (rewrite Hfs; apply lookup_insert_eq).
  assert (Hexp : expired E t (cacheFilePath E hash) st
                 = (clock w + 3600 * 1000 <? t)%Z).
  { unfold expired. fold (tmpDir E). rewrite Hpath at 1.
    rewrite (entryOf_child _ _ Hplain), (archive_name_matches hash Hne Hhex).
    simpl.
    destruct (Z.ltb_spec (clock w) (t - 3600000));
      destruct (Z.ltb_spec (clock w + 3600000) t); (reflexivity || lia). }
  exists st. split; [exact Hst |]. split; [reflexivity |]. split.
  - intros Ht. apply Z.ltb_ge in Ht. rewrite Ht in Hexp.
    assert (Hkept : fs (snd (deleteCache E (atTime t w'))) !! cacheFilePath E hash
                    = Some st).
    { destruct (cleanupCache_frame E appRoot_absolute (atTime t w')
                  (cacheFilePath E hash)) as [Hsame|(_ & st' & Hst' & Hex' & _)].
      - unfold deleteCache. rewrite Hsame. exact Hst.
      - simpl in Hst', Hex'. rewrite Hst in Hst'. injection Hst' as <-.
        congruence. }
    destruct (served_after_write E appRoot_absolute hash _ st response Hhex Hkept
                eq_refl) as (r & Hr & _ & Hbody).
    exists r. auto.
  - intros Ht Hfiles. apply Z.ltb_lt in Ht. rewrite Ht in Hexp.
    assert (Hdir : isDir (fs (atTime t w')) (tmpDir E) = true).
    { apply andb_prop in Hopen as [Hdir _].
      rewrite (proj2 (pathCheck_iff E appRoot_absolute hash) Hin) in Hdir.
      simpl. rewrite Hfs. unfold isDir in *.
      rewrite lookup_insert_ne; [exact Hdir |].
      rewrite Hpath. apply child_neq. discriminate. }
    destruct (cleanupCache_ok E appRoot_absolute (atTime t w') Hdir Hfiles)
      as (w'' & Hsweep & Hfs'').
    exists w''. split; [exact Hsweep |].
    destruct (getArchivedFile_path_safe_aux E appRoot_absolute hash response w'')
      as (_ & Hnf & _).
    assert (Hgone : fs w'' !! cacheFilePath E hash = None).
    { rewrite Hfs''. change (fs (atTime t w')) with (fs w').
      change (clock (atTime t w')) with t. now rewrite Hst, Hexp. }
    exact (Hnf Hin Hgone).
Qed.

End SweepAgain.

(** ** Storing and reading progress *)

Section ProgressFacts.
Context (E : Env).

Lemma checkDeadline_run (unit : Unit) (w : World) :
  checkDeadline E unit w
  = (if deadlinePassed E unit (clock w) then Throw BadRequestError else Ok tt, w).
Proof.
  unfold checkDeadline, deadlinePassed, isBeforeNow.
  destruct (u_deadline unit) as [d|]; [| reflexivity].
  destruct (decide (d = "")) as [->|Hd]; [reflexivity |].
  rewrite bool_decide_eq_false_2 by exact Hd. run_monad.
  destruct (momentValue E d) as [t|]; [| reflexivity].
  destruct (t <? clock w)%Z; reflexivity.
Qed.

Lemma findIndex_Some {A} (f : A -> bool) (xs : list A) (i : nat) :
  findIndex f xs = Some i ->
  exists x, xs !! i = Some x /\ f x = true
            /\ forall j y, (j < i)%nat -> xs !! j = Some y -> f y = false.
Proof.
  revert i. induction xs as [|x xs IH]; intros i; simpl; [discriminate |].
  destruct (f x) eqn:Hx.
  - intros H. injection H as <-. exists x. split; [reflexivity |].
    split; [exact Hx |]. intros j y Hj. lia.
  - destruct (findIndex f xs) as [k|]; simpl; [| discriminate].
    intros H. injection H as <-. destruct (IH k eq_refl) as (y & Hy & Hfy & Hlt).
    exists y. split; [exact Hy |]. split; [exact Hfy |].
    intros [|j] z Hj Hz; simpl in Hz.
    + injection Hz as <-. exact Hx.
    + apply (Hlt j z); [lia | exact Hz].
Qed.

Lemma findIndex_None {A} (f : A -> bool) (xs : list A) :
  findIndex f xs = None <-> forall x, x ∈ xs -> f x = false.
Proof.
  induction xs as [|x xs IH]; simpl.
  - split; [intros _ y Hy; inversion Hy | reflexivity].
  - destruct (f x) eqn:Hx.
    + split; [discriminate |]. intros H. specialize (H x ltac:(constructor)).
      congruence.
    + destruct (findIndex f xs) as [k|]; simpl.
      * split; [discriminate |]. intros H.
        assert (Hn : @None nat = None) by reflexivity.
        destruct IH as [_ IH]. discriminate IH.
        intros y Hy. apply H. now constructor.
      * split; [| reflexivity]. intros _ y Hy.
        apply elem_of_cons in Hy as [->|Hy]; [exact Hx |].
        destruct IH as [IH _]. now apply IH.
Qed.

Lemma findIndex_first {A} (f : A -> bool) (xs : list A) (i : nat) (x : A) :
  xs !! i = Some x -> f x = true ->
  (forall j y, (j < i)%nat -> xs !! j = Some y -> f y = false) ->
  findIndex f xs = Some i.
Proof.
  revert i. induction xs as [|y xs IH]; intros i Hi Hx Hlt; [discriminate |].
  simpl. destruct i as [|i]; simpl in Hi.
  - injection Hi as ->. now rewrite Hx.
  - rewrite (Hlt 0%nat y) by (lia || reflexivity).
    rewrite (IH i Hi Hx); [reflexivity |].
    intros j z Hj Hz. apply (Hlt (S j) z); [lia | exact Hz].
Qed.

Lemma updateProgress_run (data : ProgressData) (currentUser : IUser) (w : World) :
  match Units (db w) !! d_unit data with
  | None => fst (updateProgress E data currentUser w) = Throw TypeError
            /\ db (snd (updateProgress E data currentUser w)) = db w
  | Some unit =>
      match Courses (db w) !! u_course unit with
      | None => fst (updateProgress E data currentUser w) = Throw TypeError
                /\ db (snd (updateProgress E data currentUser w)) = db w
      | Some course =>
          if negb (userCanViewCourse E course currentUser) then
            fst (updateProgress E data currentUser w) = Throw ForbiddenError
            /\ db (snd (updateProgress E data currentUser w)) = db w
          else if deadlinePassed E unit (clock w) then
            fst (updateProgress E data currentUser w) = Throw BadRequestError
            /\ db (snd (updateProgress E data currentUser w)) = db w
          else
            let doc := progressDoc data currentUser unit in
            let w' := snd (updateProgress E data currentUser w) in
            fst (updateProgress E data currentUser w) = Ok doc
            /\ Progresses (db w') = stored doc (Progresses (db w))
            /\ Courses (db w') = Courses (db w)
            /\ Units (db w') = Units (db w)
            /\ Lectures (db w') = Lectures (db w)
            /\ fs w' = fs w /\ clock w' = clock w
      end
  end.
Proof.
  unfold updateProgress. run_monad.
  destruct (Units (db w) !! d_unit data) as [unit|]; simpl; [| split; reflexivity].
  destruct (Courses (db w) !! u_course unit) as [course|]; simpl;
    [| split; reflexivity].
  destruct (userCanViewCourse E course currentUser); simpl; [| split; reflexivity].
  rewrite !checkDeadline_run. simpl.
  destruct (deadlinePassed E unit (clock w)); simpl; [split; reflexivity |].
  unfold stored, progressDoc. simpl.
  destruct (findIndex _ (Progresses (db w))) as [i|]; simpl; repeat split.
Qed.

End ProgressFacts.

Section ProgressTheorems.
Context (E : Env).

Lemma matches_doc (doc : Progress) :
  matchesProgress (p_user doc) (p_unit doc) doc = true.
Proof. unfold matchesProgress. now rewrite !bool_decide_eq_true_2. Qed.

Lemma stored_found (doc : Progress) (ps : list Progress) :
  exists i, findIndex (matchesProgress (p_user doc) (p_unit doc)) (stored doc ps) = Some i
            /\ stored doc ps !! i = Some doc.
Proof.
  unfold stored.
  destruct (findIndex _ ps) as [i|] eqn:Hf.
  - apply findIndex_Some in Hf as (x & Hx & _ & Hlt).
    assert (Hi : (i < length ps)%nat) by (eapply lookup_lt_Some; eauto).
    exists i. split; [| now apply list_lookup_insert_eq].
    apply (findIndex_first _ _ i doc);
      [now apply list_lookup_insert_eq | apply matches_doc |].
    intros j y Hj Hy. rewrite list_lookup_insert_ne in Hy by lia.
    now apply (Hlt j y).
  - exists (length ps).
    assert (Hl : (ps ++ [doc]) !! length ps = Some doc).
    { rewrite lookup_app_r by lia. now rewrite Nat.sub_diag. }
    split; [| exact Hl].
    apply (findIndex_first _ _ (length ps) doc); [exact Hl | apply matches_doc |].
    intros j y Hj Hy. rewrite lookup_app_l in Hy by lia.
    rewrite findIndex_None in Hf. apply Hf. eapply list_elem_of_lookup_2; eauto.
Qed.

Lemma stored_progressOf (doc : Progress) (ps : list Progress) :
  progressOf (p_user doc) (p_unit doc) (stored doc ps) = Some doc.
Proof.
  unfold progressOf. destruct (stored_found doc ps) as (i & -> & Hi). exact Hi.
Qed.

Lemma stored_twice (doc : Progress) (ps : list Progress) :
  stored doc (stored doc ps) = stored doc ps.
Proof.
  destruct (stored_found doc ps) as (i & Hf & Hi).
  unfold stored at 1. rewrite Hf. now apply list_insert_id.
Qed.

Lemma stored_others (doc : Progress) (ps : list Progress) :
  filter (fun p => matchesProgress (p_user doc) (p_unit doc) p = false) (stored doc ps)
  = filter (fun p => matchesProgress (p_user doc) (p_unit doc) p = false) ps.
Proof.
  unfold stored. destruct (findIndex _ ps) as [i|] eqn:Hf.
  - apply findIndex_Some in Hf as (x & Hx & Hfx & _).
    rewrite <- (take_drop_middle ps i x Hx) at 2.
    rewrite insert_take_drop by (eapply lookup_lt_Some; eauto).
    rewrite !filter_app, !filter_cons.
    rewrite decide_False by (rewrite matches_doc; discriminate).
    rewrite decide_False by (rewrite Hfx; discriminate). reflexivity.
  - rewrite filter_app, filter_cons.
    rewrite decide_False by (rewrite matches_doc; discriminate).
    now rewrite filter_nil, app_nil_r.
Qed.

Lemma stored_length (doc : Progress) (ps : list Progress) :
  (length ps <= length (stored doc ps) <= S (length ps))%nat.
Proof.
  unfold stored. destruct (findIndex _ ps).
  - rewrite length_insert. lia.
  - rewrite length_app. simpl. lia.
Qed.

Lemma matches_same (p q : Progress) :
  p_user p = p_user q -> p_unit p = p_unit q ->
  matchesProgress (p_user p) (p_unit p) q = true.
Proof.
  intros Hu Hn. unfold matchesProgress. now rewrite !bool_decide_eq_true_2.
Qed.

Lemma stored_unique (doc : Progress) (ps : list Progress) :
  uniqueProgress ps -> uniqueProgress (stored doc ps).
Proof.
  intros Hu. unfold stored.
  destruct (findIndex _ ps) as [k|] eqn:Hf.
  - apply findIndex_Some in Hf as (x & Hx & Hfx & _).
    assert (Hk : (k < length ps)%nat) by (eapply lookup_lt_Some; eauto).
    unfold matchesProgress in Hfx. apply andb_true_iff in Hfx as [H1 H2].
    apply bool_decide_eq_true in H1, H2.
    intros i j p q Hp Hq Hpu Hpn.
    destruct (decide (i = k)) as [->|Hik]; destruct (decide (j = k)) as [->|Hjk];
      [reflexivity | | |].
    + rewrite list_lookup_insert_eq in Hp by exact Hk. injection Hp as <-.
      rewrite list_lookup_insert_ne in Hq by congruence.
      apply (Hu k j x q Hx Hq); congruence.
    + rewrite list_lookup_insert_eq in Hq by exact Hk. injection Hq as <-.
      rewrite list_lookup_insert_ne in Hp by congruence.
      apply (Hu i k p x Hp Hx); congruence.
    + rewrite list_lookup_insert_ne in Hp by congruence.
      rewrite list_lookup_insert_ne in Hq by congruence.
      apply (Hu i j p q Hp Hq); assumption.
  - rewrite findIndex_None in Hf.
    assert (Hno : forall i p, ps !! i = Some p ->
              p_user p = p_user doc -> p_unit p = p_unit doc -> False).
    { intros i p Hp H1 H2.
      assert (Hm : matchesProgress (p_user doc) (p_unit doc) p = false)
        by (apply Hf; eapply list_elem_of_lookup_2; eauto).
      rewrite (matches_same doc p) in Hm by congruence. discriminate. }
    intros i j p q Hp Hq Hpu Hpn.
    apply lookup_app_Some in Hp as [Hp|[Hi Hp]];
      apply lookup_app_Some in Hq as [Hq|[Hj Hq]].
    + apply (Hu i j p q Hp Hq); assumption.
    + apply list_lookup_singleton_Some in Hq as [Hq <-].
      exfalso. apply (Hno i p Hp); assumption.
    + apply list_lookup_singleton_Some in Hp as [Hp <-].
      exfalso. apply (Hno j q Hq); congruence.
    + apply list_lookup_singleton_Some in Hp as [Hp _].
      apply list_lookup_singleton_Some in Hq as [Hq _]. lia.
Qed.

Lemma updateProgress_ok (data : ProgressData) (currentUser : IUser)
    (w w' : World) (doc : Progress) :
  updateProgress E data currentUser w = (Ok doc, w') ->
  exists unit course,
    Units (db w) !! d_unit data = Some unit
    /\ Courses (db w) !! u_course unit = Some course
    /\ userCanViewCourse E course currentUser = true
    /\ deadlinePassed E unit (clock w) = false
    /\ doc = progressDoc data currentUser unit
    /\ Progresses (db w') = stored doc (Progresses (db w))
    /\ Courses (db w') = Courses (db w)
    /\ Units (db w') = Units (db w).
Proof.
  intros Hrun. pose proof (updateProgress_run E data currentUser w) as H.
  rewrite Hrun in H. simpl in H.
  destruct (Units (db w) !! d_unit data) as [unit|] eqn:Hu0;
    [| destruct H; discriminate].
  destruct (Courses (db w) !! u_course unit) as [course|] eqn:Hc0;
    [| destruct H; discriminate].
  destruct (userCanViewCourse E course currentUser) eqn:Hv; simpl in H;
    [| destruct H; discriminate].
  destruct (deadlinePassed E unit (clock w)) eqn:Hdl;
    [destruct H; discriminate |].
  destruct H as (Hd & Hp & Hc & Hu & _). injection Hd as ->.
  exists unit, course. repeat split; assumption.
Qed.

Lemma getUnitProgress_run (id : string) (currentUser : IUser) (w : World) :
  db (snd (getUnitProgress E id currentUser w)) = db w
  /\ fs (snd (getUnitProgress E id currentUser w)) = fs w
  /\ fst (getUnitProgress E id currentUser w)
     = match Units (db w) !! id with
       | None => Throw TypeError
       | Some unit =>
           match Courses (db w) !! u_course unit with
           | None => Throw TypeError
           | Some course =>
               if userCanViewCourse E course currentUser
               then Ok (progressOf (usr_id currentUser) id (Progresses (db w)))
               else Throw ForbiddenError
           end
       end.
Proof.
  unfold getUnitProgress, progressOf. run_monad.
  destruct (Units (db w) !! id) as [unit|]; simpl; [| repeat split].
  destruct (Courses (db w) !! u_course unit) as [course|]; simpl; [| repeat split].
  destruct (userCanViewCourse E course currentUser); simpl; [| repeat split].
  destruct (findIndex _ (Progresses (db w))); simpl; repeat split.
Qed.

(** X22: for an existing unit of an existing course, a user who may view
    the course and a deadline that has not passed (none set, an empty one,
    an unreadable one or one not before now), [updateProgress] returns the
    document made of the user's id, the unit's course, the unit and the
    data; afterwards that document is the one [Progress.findOne] finds for
    the user and the unit, and the number of records has grown by at most
    one. *)
Theorem updateProgress_stores (data : ProgressData) (currentUser : IUser)
    (w : World) (unit : Unit) (course : ICourse) :
  Units (db w) !! d_unit data = Some unit ->
  Courses (db w) !! u_course unit = Some course ->
  userCanViewCourse E course currentUser = true ->
  deadlinePassed E unit (clock w) = false ->
  exists w',
    updateProgress E data currentUser w
    = (Ok (progressDoc data currentUser unit), w')
    /\ progressOf (usr_id currentUser) (d_unit data) (Progresses (db w'))
       = Some (progressDoc data currentUser unit)
    /\ (length (Progresses (db w)) <= length (Progresses (db w'))
        <= S (length (Progresses (db w))))%nat.
Proof.
  intros Hu Hc Hv Hd.
  pose proof (updateProgress_run E data currentUser w) as H.
  rewrite Hu, Hc, Hv, Hd in H. simpl in H.
  destruct H as (Hr & Hp & _).
  exists (snd (updateProgress E data currentUser w)).
  split; [rewrite <- Hr; apply surjective_pairing |].
  rewrite Hp. split.
  - apply (stored_progressOf (progressDoc data currentUser unit)).
  - apply stored_length.
Qed.

(** X23: after an [updateProgress] that returned a document,
    [getUnitProgress] for the same unit and user returns that document. *)
Theorem updateProgress_then_get (data : ProgressData) (currentUser : IUser)
    (w w' : World) (doc : Progress) :
  updateProgress E data currentUser w = (Ok doc, w') ->
  fst (getUnitProgress E (d_unit data) currentUser w') = Ok (Some doc).
Proof.
  intros Hrun.
  apply updateProgress_ok in Hrun
    as (unit & course & Hu & Hc & Hv & _ & Hdoc & Hp & Hcs & Hus).
  destruct (getUnitProgress_run (d_unit data) currentUser w') as (_ & _ & ->).
  rewrite Hus, Hu, Hcs, Hc, Hv, Hp. f_equal.
  subst doc. apply (stored_progressOf (progressDoc data currentUser unit)).
Qed.

(** X24: [updateProgress] is idempotent: a second call with the same data
    by the same user, on the database the first call left, returns the same
    document and leaves the progress records as the first call left
    them. *)
Theorem updateProgress_idempotent (data : ProgressData) (currentUser : IUser)
    (w w1 : World) (doc : Progress) :
  updateProgress E data currentUser w = (Ok doc, w1) ->
  forall w1' doc' w2,
    db w1' = db w1 ->
    updateProgress E data currentUser w1' = (Ok doc', w2) ->
    doc' = doc /\ Progresses (db w2) = Progresses (db w1).
Proof.
  intros Hrun w1' doc' w2 Hdb Hrun'.
  apply updateProgress_ok in Hrun
    as (unit & course & Hu & Hc & Hv & _ & Hdoc & Hp & Hcs & Hus).
  apply updateProgress_ok in Hrun'
    as (unit' & course' & Hu' & _ & _ & _ & Hdoc' & Hp' & _ & _).
  rewrite Hdb, Hus, Hu in Hu'. injection Hu' as <-.
  assert (Heq : doc' = doc) by congruence. split; [exact Heq |].
  rewrite Hp', Hdb, Hp, Heq. apply stored_twice.
Qed.

(** X25: [updateProgress] keeps the records unique: when no two progress
    records belong to the same user and unit before the call, none do
    after it, whatever its outcome. *)
Theorem updateProgress_keeps_unique (data : ProgressData) (currentUser : IUser)
    (w : World) :
  uniqueProgress (Progresses (db w)) ->
  uniqueProgress (Progresses (db (snd (updateProgress E data currentUser w)))).
Proof.
  intros Huniq. pose proof (updateProgress_run E data currentUser w) as H.
  destruct (Units (db w) !! d_unit data) as [unit|];
    [| destruct H as [_ ->]; exact Huniq].
  destruct (Courses (db w) !! u_course unit) as [course|];
    [| destruct H as [_ ->]; exact Huniq].
  destruct (negb (userCanViewCourse E course currentUser));
    [destruct H as [_ ->]; exact Huniq |].
  destruct (deadlinePassed E unit (clock w));
    [destruct H as [_ ->]; exact Huniq |].
  destruct H as (_ & -> & _). now apply stored_unique.
Qed.

(** X26: [updateProgress] leaves the records of every other user or unit
    as they were, in their order, whatever its outcome. *)
Theorem updateProgress_others_untouched (data : ProgressData)
    (currentUser : IUser) (w : World) :
  filter (fun p => matchesProgress (usr_id currentUser) (d_unit data) p = false)
         (Progresses (db (snd (updateProgress E data currentUser w))))
  = filter (fun p => matchesProgress (usr_id currentUser) (d_unit data) p = false)
           (Progresses (db w)).
Proof.
  pose proof (updateProgress_run E data currentUser w) as H.
  destruct (Units (db w) !! d_unit data) as [unit|];
    [| destruct H as [_ ->]; reflexivity].
  destruct (Courses (db w) !! u_course unit) as [course|];
    [| destruct H as [_ ->]; reflexivity].
  destruct (negb (userCanViewCourse E course currentUser));
    [destruct H as [_ ->]; reflexivity |].
  destruct (deadlinePassed E unit (clock w));
    [destruct H as [_ ->]; reflexivity |].
  destruct H as (_ & -> & _).
  apply (stored_others (progressDoc data currentUser unit)).
Qed.

(** X27: when the unit does not exist, or its course does not,
    [updateProgress] and [getUnitProgress] throw [TypeError] (a property of
    [null] is read) whatever the privileges of the user, and
    [updateProgress] leaves the database as it was. *)
Theorem progress_missing_documents (data : ProgressData) (id : string)
    (currentUser : IUser) (w : World) :
  (Units (db w) !! d_unit data = None
   \/ (exists unit, Units (db w) !! d_unit data = Some unit
                    /\ Courses (db w) !! u_course unit = None) ->
   fst (updateProgress E data currentUser w) = Throw TypeError
   /\ db (snd (updateProgress E data currentUser w)) = db w)
  /\ (Units (db w) !! id = None
      \/ (exists unit, Units (db w) !! id = Some unit
                       /\ Courses (db w) !! u_course unit = None) ->
      fst (getUnitProgress E id currentUser w) = Throw TypeError).
Proof.
  split.
  - pose proof (updateProgress_run E data currentUser w) as H.
    intros [Hu | (unit & Hu & Hc)]; rewrite Hu in H; [exact H |].
    rewrite Hc in H. exact H.
  - destruct (getUnitProgress_run id currentUser w) as (_ & _ & ->).
    intros [Hu | (unit & Hu & Hc)]; rewrite Hu; [reflexivity |].
    now rewrite Hc.
Qed.

(** X28: for an existing unit of an existing course, [getUnitProgress]
    throws [ForbiddenError] exactly when the user may not view the course;
    for a user who may, it returns what [Progress.findOne] finds for the
    user and the unit, [None] (the empty object) when there is nothing; and
    it changes neither the database nor the file system. *)
Theorem getUnitProgress_reads (id : string) (currentUser : IUser) (w : World)
    (unit : Unit) (course : ICourse) :
  Units (db w) !! id = Some unit ->
  Courses (db w) !! u_course unit = Some course ->
  (fst (getUnitProgress E id currentUser w) = Throw ForbiddenError
   <-> userCanViewCourse E course currentUser = false)
  /\ (userCanViewCourse E course currentUser = true ->
        fst (getUnitProgress E id currentUser w)
        = Ok (progressOf (usr_id currentUser) id (Progresses (db w))))
  /\ db (snd (getUnitProgress E id currentUser w)) = db w
  /\ fs (snd (getUnitProgress E id currentUser w)) = fs w.
Proof.
  intros Hu Hc.
  destruct (getUnitProgress_run id currentUser w) as (Hd & Hf & Hr).
  rewrite Hu, Hc in Hr. rewrite Hr.
  destruct (userCanViewCourse E course currentUser).
  - split; [split; discriminate |]. split; [reflexivity |]. split; assumption.
  - split; [split; reflexivity |]. split; [discriminate |]. split; assumption.
Qed.

End ProgressTheorems.

(** ** The statements at work on the small installation *)

Section Examples.
Import Demo.

Example join_keeps_plain_names :
  Path.join "/srv/geli/api/tmp" "download_ab.zip" = "/srv/geli/api/tmp/download_ab.zip".
Proof. vm_compute. reflexivity. Qed.

Example join_climbs :
  Path.join "/srv/geli/api/tmp" "download_/../../x.zip" = "/srv/geli/api/x.zip".
Proof. vm_compute. reflexivity. Qed.

Example resolve_drops_the_trailing_slash :
  Path.resolve "/home" (config.tmpFileCacheFolder env) = "/srv/geli/api/tmp".
Proof. vm_compute. reflexivity. Qed.

Example dirname_of_a_root_entry : Path.dirname "/a" = "/".
Proof. vm_compute. reflexivity. Qed.

Example dirname_keeps_inner_slashes : Path.dirname "a//b//" = "a/".
Proof. vm_compute. reflexivity. Qed.

Example replaceCharInFilename_ex :
  replaceCharInFilename "Proofs & more -- now!" = "Proofs-more-now".
Proof. vm_compute. reflexivity. Qed.

Example regexTest_ex :
  (regexTest "download_abc.zip", regexTest "download_.zip",
   regexTest "xdownload_abzip.bak", regexTest "notes.txt")
  = (true, false, true, false).
Proof. vm_compute. reflexivity. Qed.

(** The dot of the pattern takes any one code unit that ends no line: the
    name [download_a] followed by the code unit 233 (e acute) and [zip]
    matches. *)
Example regexTest_code_unit :
  regexTest ("download_a" +:+ String "233" "zip") = true.
Proof. vm_compute. reflexivity. Qed.

Example traversal_is_forbidden :
  getArchivedFile env "../notes" response world = (Throw ForbiddenError, world).
Proof. vm_compute. reflexivity. Qed.

Example inner_climb_stays_inside :
  fst (getArchivedFile env "x/../0a1b" response world) = Throw NotFoundError.
Proof. vm_compute. reflexivity. Qed.

(** A folder named like an archive is not served. *)
Example folder_is_not_served :
  fst (getArchivedFile env "0a1a" response blockedWorld) = Throw EISDIR.
Proof. vm_compute. reflexivity. Qed.

(** Without the cache folder the sweep throws, and an export that gets
    through its loops never settles. *)
Example sweep_without_folder :
  fst (cleanupCache env bareWorld) = Throw ENOENT.
Proof. vm_compute. reflexivity. Qed.

Example export_without_folder :
  fst (postDownloadRequestPDFIndividual env request student bareWorld) = Pending.
Proof. vm_compute. reflexivity. Qed.

Lemma getArchivedFile_path_safe_witness :
  exists r,
    fst (getArchivedFile env "0a1b" response world) = Ok r
    /\ r_file r = "/srv/geli/api/tmp/download_0a1b.zip".
Proof.
  destruct (getArchivedFile_path_safe env eq_refl "0a1b" response world)
    as (_ & _ & Hserve & _).
  assert (Hin : directlyInside
                  (Path.resolve (cwd env) (config.tmpFileCacheFolder env))
                  (Path.join (Path.resolve (cwd env) (config.tmpFileCacheFolder env))
                             ("download_" +:+ "0a1b" +:+ ".zip")))
    by (exists "download_0a1b.zip"; split; vm_compute; reflexivity).
  destruct (Hserve Hin (file (1559347200000 - 7200000)))
    as (r & Hr & Hfile & _); [vm_compute; reflexivity | reflexivity |].
  exists r. split; [exact Hr |]. rewrite Hfile. vm_compute. reflexivity.
Defined.

Lemma bigRequest_exceeds : sizeExceeded (db world) bigRequest.
Proof.
  right. exists video. split.
  - change (selectedFiles (db world) bigRequest) with [video]. constructor.
  - vm_compute. reflexivity.
Defined.

Lemma oversize_rejected_witness :
  exists w',
    postDownloadRequestPDFIndividual env bigRequest student world
    = (Throw BadRequestError, w')
    /\ fs w' = fs world.
Proof.
  destruct (oversize_rejected env bigRequest student world bigRequest_exceeds)
    as ((e & w' & Hrun & Hw & He) & _).
  exists w'. split; [| apply Hw].
  rewrite Hrun. f_equal. f_equal. apply (He course).
  - vm_compute. reflexivity.
  - vm_compute. reflexivity.
  - repeat constructor; eexists; vm_compute; reflexivity.
Defined.

(** C2 without the guards that come first: a request that is too large and
    comes from a user who may not export the course gets [ForbiddenError],
    not [BadRequestError]. *)
Lemma oversize_rejected_counterexample :
  ~ (sizeExceeded (db world) bigRequest ->
     fst (postDownloadRequestPDFIndividual env bigRequest stranger world)
     = Throw BadRequestError).
Proof.
  intros H. specialize (H bigRequest_exceeds). vm_compute in H. discriminate H.
Defined.

(** No folder of [files] is an expired entry of the cache folder at [now]. *)
Lemma no_expired_folder (now : Z) (files : gmap string Stats)
    (l : list (string * Stats)) :
  map_to_list files = l ->
  forallb (fun ps => negb (expired env now ps.1 ps.2 && isDirectory ps.2)) l = true ->
  forall p st, files !! p = Some st -> expired env now p st = true ->
               isDirectory st = false.
Proof.
  intros <- Hall p st Hst Hexp.
  apply elem_of_map_to_list, list_elem_of_In in Hst.
  rewrite forallb_forall in Hall. specialize (Hall _ Hst). simpl in Hall.
  rewrite Hexp in Hall. now destruct (isDirectory st).
Defined.

Lemma world_sweepable :
  forall p st, fs world !! p = Some st -> expired env (clock world) p st = true ->
               isDirectory st = false.
Proof.
  eapply no_expired_folder; [vm_compute; reflexivity | vm_compute; reflexivity].
Defined.

Lemma cleanupCache_sweeps_witness :
  exists w',
    cleanupCache env world = (Ok tt, w')
    /\ fs w' !! "/srv/geli/api/tmp/download_0a1b.zip" = None
    /\ is_Some (fs w' !! "/srv/geli/api/tmp/download_ffee.zip")
    /\ is_Some (fs w' !! "/srv/geli/api/tmp/notes.txt").
Proof.
  destruct (cleanupCache_sweeps env eq_refl world) as (Hok & _).
  destruct (Hok ltac:(vm_compute; reflexivity) world_sweepable)
    as (w' & Hrun & Hfs).
  exists w'. split; [exact Hrun |]. rewrite !Hfs.
  split; [vm_compute; reflexivity |].
  split; eexists; vm_compute; reflexivity.
Defined.

(** C4 on a cache folder that holds a folder named like an archive and as
    old as an expired one: the sweep stops at the folder
    [download_0a1a.zip] with [EISDIR], and the expired archive
    [download_0a1b.zip], a regular file listed after it, is still there. *)
Lemma cleanupCache_sweeps_counterexample :
  ~ (forall p st,
       fs blockedWorld !! p = Some st -> isDirectory st = false ->
       expired env (clock blockedWorld) p st = true ->
       fs (snd (cleanupCache env blockedWorld)) !! p = None).
Proof.
  intros H.
  specialize (H "/srv/geli/api/tmp/download_0a1b.zip"
                (file (1559347200000 - 7200000))
                ltac:(vm_compute; reflexivity) eq_refl
                ltac:(vm_compute; reflexivity)).
  vm_compute in H. discriminate H.
Defined.

Lemma exported_archive_served_witness :
  String.length hash = 32%nat
  /\ exists r,
       fst (getArchivedFile env hash response
              (snd (postDownloadRequestPDFIndividual env request student world)))
       = Ok r
       /\ r_file r = cacheFilePath env hash
       /\ length (r_body r) = 4%nat.
Proof.
  assert (Hrun : postDownloadRequestPDFIndividual env request student world
                 = (Ok hash,
                    snd (postDownloadRequestPDFIndividual env request student world)))
    by (vm_compute; reflexivity).
  destruct (exported_archive_served env eq_refl request student world
              (snd (postDownloadRequestPDFIndividual env request student world))
              hash response (or_introl Hrun))
    as (Hlen & _ & _ & (entries & Hst & Hwhich & Hserve) & _).
  split; [exact Hlen |].
  destruct (Hserve _ eq_refl) as (r & Hr & Hfile & Hbody).
  exists r. split; [exact Hr |]. split; [exact Hfile |].
  destruct Hwhich as [(_ & Hent) | (Hsingle & _)].
  - vm_compute in Hent. injection Hent as <-. rewrite Hbody.
    vm_compute. reflexivity.
  - vm_compute in Hsingle. discriminate Hsingle.
Defined.


Lemma single_solutions_section_witness :
  (exists resolved pdf,
     resolveRequest (db world) request = Some resolved
     /\ htmlToPdf env (singleHtml env resolved) (optionsSingle course) = Some pdf
     /\ pdf = "%PDF " +:+ headSingle env +:+ allContent env resolved
              +:+ "<div id=" +:+ dq +:+ "nextPage" +:+ dq
              +:+ "><h2><u>Solutions</u></h2>"
              +:+ "<div><h2>Lecture: Proofs & more</h2><p>solved Fizz Buzz</p></div>"
              +:+ "<div id=" +:+ dq +:+ "nextPage" +:+ dq
              +:+ " ><p>solved Quiz</p></div>"
              +:+ "</div></body></html>")
  /\ lectureSolutions env false ({| l_name := "Proofs & more" |}, [kataUnit; taskUnit])
     = "<div><h2>Lecture: Proofs & more</h2><p>solved Fizz Buzz</p></div><div id="
       +:+ dq +:+ "nextPage" +:+ dq +:+ " ><p>solved Quiz</p></div>".
Proof.
  assert (Hrun : postDownloadRequestPDFSingle env request student world
                 = (Ok hash,
                    snd (postDownloadRequestPDFSingle env request student world)))
    by (vm_compute; reflexivity).
  destruct (single_solutions_section env request student world
              (snd (postDownloadRequestPDFSingle env request student world)) hash
              Hrun)
    as ((c & resolved & pdf & es & st & Hc & Hres & Hpdf & _) & Hgroup).
  split.
  - vm_compute in Hc. injection Hc as <-.
    exists resolved, pdf. split; [exact Hres |]. split; [exact Hpdf |].
    vm_compute in Hres. injection Hres as <-.
    vm_compute in Hpdf. injection Hpdf as <-. vm_compute. reflexivity.
  - rewrite Hgroup by (repeat constructor). vm_compute. reflexivity.
Defined.

Lemma stranger_notAuthorized : notAuthorized course stranger.
Proof. apply mayExport_false. vm_compute. reflexivity. Defined.

Lemma export_forbidden_iff_witness :
  fst (postDownloadRequestPDFIndividual env request stranger world)
  = Throw ForbiddenError
  /\ fst (postDownloadRequestPDFSingle env request stranger world)
     = Throw ForbiddenError.
Proof.
  assert (Hne : lectures request <> []) by discriminate.
  assert (Hc : Courses (db world) !! courseName request = Some course)
    by (vm_compute; reflexivity).
  destruct (export_forbidden_iff env request stranger world course Hne Hc)
    as ((H1 & _) & (H2 & _)).
  split; [apply H1 | apply H2]; exact stranger_notAuthorized.
Defined.

(** C8 without the guard on the lectures: for a request without lectures
    the course exists, the user is none of those who may export it, and
    the endpoint throws [BadRequestError]. *)
Lemma export_forbidden_iff_counterexample :
  Courses (db world) !! courseName emptyRequest = Some course
  /\ ~ (fst (postDownloadRequestPDFIndividual env emptyRequest stranger world)
        = Throw ForbiddenError
        <-> notAuthorized course stranger).
Proof.
  split; [vm_compute; reflexivity |].
  intros [_ H]. specialize (H stranger_notAuthorized).
  vm_compute in H. discriminate H.
Defined.

Lemma empty_lectures_rejected_witness :
  postDownloadRequestPDFIndividual env emptyRequest stranger world
  = (Throw BadRequestError, world)
  /\ postDownloadRequestPDFSingle env emptyRequest stranger world
     = (Throw BadRequestError, world).
Proof. apply (empty_lectures_rejected env emptyRequest stranger world eq_refl). Defined.

Lemma updateProgress_past_deadline_witness :
  fst (updateProgress env progressData student world) = Throw BadRequestError
  /\ fst (updateProgress env progressData stranger world) = Throw ForbiddenError.
Proof.
  split.
  - apply (updateProgress_past_deadline env progressData student world kataUnit
             course "2019-01-01T00:00:00Z" 1546300800000);
      try (vm_compute; reflexivity); discriminate.
  - apply (updateProgress_past_deadline env progressData stranger world kataUnit
             course "2019-01-01T00:00:00Z" 1546300800000);
      try (vm_compute; reflexivity); discriminate.
Defined.

(** C10 for a unit whose course is gone: the deadline of the unit is set and
    past, and [updateProgress] ends in the [TypeError] of reading the
    course, not in [BadRequestError]. *)
Lemma updateProgress_past_deadline_counterexample :
  ~ (Units (db strayWorld) !! d_unit strayProgress = Some strayUnit ->
     u_deadline strayUnit = Some "2019-01-01T00:00:00Z" ->
     momentValue env "2019-01-01T00:00:00Z" = Some 1546300800000%Z ->
     (1546300800000 < clock strayWorld)%Z ->
     fst (updateProgress env strayProgress student strayWorld)
     = Throw BadRequestError).
Proof.
  intros H.
  specialize (H ltac:(vm_compute; reflexivity) eq_refl
                ltac:(vm_compute; reflexivity) ltac:(vm_compute; reflexivity)).
  vm_compute in H. discriminate H.
Defined.

Example calcPackage_bigRequest :
  fst (calcPackage bigRequest world)
  = Ok {| totalSize := 62914560 # 1024; tooLargeFiles := ["c3d4.mp4"] |}.
Proof. vm_compute. reflexivity. Qed.

End Examples.
Section FurtherExamples.
Import Demo.

(** A name of accented letters only (here the code units 233 and 252) is
    cleaned to nothing. *)
Example replaceCharInFilename_drops_accents :
  replaceCharInFilename (String "233" (String "252" "")) = "".
Proof. vm_compute. reflexivity. Qed.

Lemma request_exists : allUnitsExist (db world) request.
Proof. repeat constructor; eexists; vm_compute; reflexivity. Defined.

Lemma request_onlyIds : onlyIds request.
Proof. repeat constructor; eexists; reflexivity. Defined.

Lemma request_fits : ~ sizeExceeded (db world) request.
Proof. apply not_exceeded_onlyIds, request_onlyIds. Defined.

Lemma request_ready : individualReady env (db world) request.
Proof. apply archiveEntries_is_Some. eexists. vm_compute. reflexivity. Defined.

Lemma request_attachable :
  attachmentsReady (db world) request
  /\ exists resolved,
       resolveRequest (db world) request = Some resolved
       /\ is_Some (htmlToPdf env (singleHtml env resolved) (optionsSingle course)).
Proof.
  split.
  - apply (singleAttachments_is_Some env). eexists. vm_compute. reflexivity.
  - eexists. split; [vm_compute; reflexivity |]. eexists. reflexivity.
Defined.

Lemma entry_names_distinct_witness :
  (1 = 1 /\ 2 = 2)%nat
  /\ replaceCharInFilename "Lecture One" = replaceCharInFilename "Lecture  One!"
  /\ "slides.pdf" = "slides.pdf".
Proof.
  destruct (entry_names_distinct 1 1 2 2 "Lecture One" "Lecture  One!"
              "slides.pdf" "slides.pdf") as (Hi & Hj & Hl & Hb).
  - vm_compute. reflexivity.
  - split; [split; assumption |]. split; assumption.
Defined.

Lemma calcPackage_ignores_ids_witness :
  (exists size w',
     calcPackage request world = (Ok size, w')
     /\ (totalSize size == 0)%Q /\ tooLargeFiles size = [])
  /\ fst (postDownloadRequestPDFIndividual env request student world)
     <> Throw BadRequestError.
Proof.
  destruct (calcPackage_ignores_ids env request student world request_onlyIds)
    as (Hcalc & Hnever).
  split; [exact (Hcalc request_exists) |].
  apply Hnever. discriminate.
Defined.

Lemma export_missing_course_witness :
  exists w1,
    postDownloadRequestPDFIndividual env lostRequest student world
    = (Throw NotFoundError, w1)
    /\ onlyLookups world w1.
Proof.
  apply (export_missing_course env lostRequest student world).
  - discriminate.
  - vm_compute. reflexivity.
Defined.

Lemma export_missing_unit_witness :
  exists w1,
    postDownloadRequestPDFSingle env staleRequest student world
    = (Throw NotFoundError, w1)
    /\ onlyLookups world w1.
Proof.
  apply (export_missing_unit env staleRequest student world course).
  - discriminate.
  - vm_compute. reflexivity.
  - vm_compute. reflexivity.
  - intros H. unfold allUnitsExist, requestedUnits in H. simpl in H.
    apply Forall_cons in H as [[x Hx] _]. vm_compute in Hx. discriminate Hx.
Defined.

Lemma export_success_frame_witness :
  db (snd (postDownloadRequestPDFIndividual env request student world)) = db world
  /\ fs (snd (postDownloadRequestPDFIndividual env request student world))
       !! "/srv/geli/api/tmp/notes.txt"
     = fs world !! "/srv/geli/api/tmp/notes.txt".
Proof.
  assert (Hrun : postDownloadRequestPDFIndividual env request student world
                 = (Ok hash,
                    snd (postDownloadRequestPDFIndividual env request student world)))
    by (vm_compute; reflexivity).
  destruct (export_success_frame env request student world
              (snd (postDownloadRequestPDFIndividual env request student world))
              hash (or_introl Hrun))
    as (_ & _ & Hdb & Hframe & _).
  split; [exact Hdb |]. apply Hframe. vm_compute. discriminate.
Defined.

Lemma failed_export_leaves_file_witness :
  fst (postDownloadRequestPDFIndividual env orphanRequest student world)
  = Throw TypeError
  /\ fs (snd (postDownloadRequestPDFIndividual env orphanRequest student world))
     = <[realpath env (cacheFilePath env (hashOf env world)) :=
          {| isDirectory := false; ctimeMs := clock world; content := [] |}]>
         (fs world).
Proof.
  assert (Hrun : postDownloadRequestPDFIndividual env orphanRequest student world
                 = (Throw TypeError,
                    snd (postDownloadRequestPDFIndividual env orphanRequest
                           student world)))
    by (vm_compute; reflexivity).
  split; [rewrite Hrun; reflexivity |].
  destruct (failed_export_leaves_file env orphanRequest student world course)
    with (e := TypeError)
         (w' := snd (postDownloadRequestPDFIndividual env orphanRequest
                       student world))
    as (_ & _ & Hfs).
  - discriminate.
  - vm_compute. reflexivity.
  - vm_compute. reflexivity.
  - repeat constructor; eexists; vm_compute; reflexivity.
  - apply not_exceeded_onlyIds. repeat constructor.
  - left. exact Hrun.
  - rewrite Hfs.
    assert (Hopen : opens (fs world)
                      (realpath env (cacheFilePath env (hashOf env world))) = true)
      by (vm_compute; reflexivity).
    now rewrite Hopen.
Defined.

Lemma individual_export_succeeds_iff_witness :
  (exists w', postDownloadRequestPDFIndividual env request student world
              = (Ok (hashOf env world), w'))
  /\ (exists w', postDownloadRequestPDFIndividual env request student bareWorld
                 = (Pending, w'))
  /\ (exists e w', postDownloadRequestPDFIndividual env orphanRequest student world
                   = (Throw e, w') /\ isLoopError e).
Proof.
  split; [| split].
  - apply (individual_export_succeeds_iff env request student world course).
    + discriminate.
    + vm_compute. reflexivity.
    + vm_compute. reflexivity.
    + exact request_exists.
    + exact request_fits.
    + exact request_ready.
    + vm_compute. reflexivity.
  - apply (individual_export_succeeds_iff env request student bareWorld course).
    + discriminate.
    + vm_compute. reflexivity.
    + vm_compute. reflexivity.
    + exact request_exists.
    + exact request_fits.
    + exact request_ready.
    + vm_compute. reflexivity.
  - apply (individual_export_succeeds_iff env orphanRequest student world course).
    + discriminate.
    + vm_compute. reflexivity.
    + vm_compute. reflexivity.
    + repeat constructor; eexists; vm_compute; reflexivity.
    + apply not_exceeded_onlyIds. repeat constructor.
    + intros H. apply archiveEntries_is_Some in H as [x Hx].
      vm_compute in Hx. discriminate Hx.
Defined.

Lemma single_export_succeeds_iff_witness :
  (exists w', postDownloadRequestPDFSingle env request student world
              = (Ok (hashOf env world), w'))
  /\ (exists w', postDownloadRequestPDFSingle env request student bareWorld
                 = (Pending, w')).
Proof.
  split.
  - apply (single_export_succeeds_iff env request student world course).
    + discriminate.
    + vm_compute. reflexivity.
    + vm_compute. reflexivity.
    + exact request_exists.
    + exact request_fits.
    + exact request_attachable.
    + vm_compute. reflexivity.
  - apply (single_export_succeeds_iff env request student bareWorld course).
    + discriminate.
    + vm_compute. reflexivity.
    + vm_compute. reflexivity.
    + exact request_exists.
    + exact request_fits.
    + exact request_attachable.
    + vm_compute. reflexivity.
Defined.

Lemma single_archive_layout_witness :
  exists attachments st,
    singleAttachments env (db world) request = Some attachments
    /\ fs (snd (postDownloadRequestPDFSingle env request student world))
         !! realpath env (cacheFilePath env hash) = Some st
    /\ length (content st) = 2%nat
    /\ EntryFile "/srv/geli/api/uploads/a1b2.pdf" "1_Lecture-One/2_slides.pdf"
       ∈ attachments.
Proof.
  destruct (single_archive_layout env request student world
              (snd (postDownloadRequestPDFSingle env request student world)) hash)
    as (c & resolved & pdf & att & st & _ & _ & _ & Hatt & Hst & Hcontent & Hlayout).
  - vm_compute. reflexivity.
  - exists att, st. split; [exact Hatt |]. split; [exact Hst |].
    destruct (Hlayout 0%nat _ 1%nat _ eq_refl eq_refl)
      as (l & u & Hl & Hu & Hfile).
    vm_compute in Hl. injection Hl as <-. vm_compute in Hu. injection Hu as <-.
    destruct (Hfile eq_refl 0%nat (JsString "f1") eq_refl) as (f & Hf & Hin).
    vm_compute in Hf. injection Hf as <-.
    split; [| exact Hin].
    vm_compute in Hatt. injection Hatt as <-.
    vm_compute in Hst. injection Hst as <-. reflexivity.
Defined.

Lemma getArchivedFile_plain_id_witness :
  fst (getArchivedFile env "none" response world) = Throw NotFoundError.
Proof.
  apply (getArchivedFile_plain_id env eq_refl "none" response world eq_refl).
  vm_compute. reflexivity.
Defined.

Lemma sweep_pattern_loose_witness :
  regexTest ("old-" +:+ "download_a1.zip" +:+ ".bak") = true.
Proof. apply sweep_pattern_loose. reflexivity. Defined.

Lemma cleanupCache_idempotent_witness :
  exists w1 w2,
    cleanupCache env world = (Ok tt, w1)
    /\ cleanupCache env w1 = (Ok tt, w2)
    /\ fs w2 = fs w1.
Proof.
  destruct (cleanupCache_idempotent env eq_refl world
              ltac:(vm_compute; reflexivity) world_sweepable)
    as (w1 & w2 & H1 & H2 & Hfs & _).
  exists w1, w2. split; [exact H1 |]. split; [exact H2 | exact Hfs].
Defined.

Lemma exported_archive_lifetime_witness :
  (exists r,
     fst (getArchivedFile env hash response
            (snd (deleteCache env
                    (atTime (clock world + 60000)
                       (snd (postDownloadRequestPDFIndividual env request student
                               world))))))
     = Ok r)
  /\ exists w'',
       deleteCache env
         (atTime (clock world + 7200000)
            (snd (postDownloadRequestPDFIndividual env request student world)))
       = (Ok tt, w'')
       /\ fst (getArchivedFile env hash response w'') = Throw NotFoundError.
Proof.
  assert (Hrun : postDownloadRequestPDFIndividual env request student world
                 = (Ok hash,
                    snd (postDownloadRequestPDFIndividual env request student world)))
    by (vm_compute; reflexivity).
  split.
  - destruct (exported_archive_lifetime env eq_refl request student world
                (snd (postDownloadRequestPDFIndividual env request student world))
                hash response (clock world + 60000) (or_introl Hrun))
      as (st & _ & _ & Hkept & _).
    destruct Hkept as (r & Hr & _); [vm_compute; discriminate |].
    exists r. exact Hr.
  - destruct (exported_archive_lifetime env eq_refl request student world
                (snd (postDownloadRequestPDFIndividual env request student world))
                hash response (clock world + 7200000) (or_introl Hrun))
      as (st & _ & _ & _ & Hgone).
    apply Hgone; [vm_compute; reflexivity |].
    eapply no_expired_folder; [vm_compute; reflexivity | vm_compute; reflexivity].
Defined.

Lemma updateProgress_stores_witness :
  exists w',
    updateProgress env quizProgress student world
    = (Ok (progressDoc quizProgress student taskUnit), w')
    /\ progressOf "u-stud" "unit-task" (Progresses (db w'))
       = Some (progressDoc quizProgress student taskUnit).
Proof.
  destruct (updateProgress_stores env quizProgress student world taskUnit course)
    as (w' & Hrun & Hfound & _); try (vm_compute; reflexivity).
  exists w'. split; [exact Hrun | exact Hfound].
Defined.

Lemma updateProgress_then_get_witness :
  fst (getUnitProgress env "unit-task" student
         (snd (updateProgress env quizProgress student world)))
  = Ok (Some (progressDoc quizProgress student taskUnit)).
Proof.
  apply (updateProgress_then_get env quizProgress student world).
  vm_compute. reflexivity.
Defined.

Lemma updateProgress_idempotent_witness :
  Progresses (db (snd (updateProgress env quizProgress student
                         (snd (updateProgress env quizProgress student world)))))
  = Progresses (db (snd (updateProgress env quizProgress student world))).
Proof.
  apply (updateProgress_idempotent env quizProgress student world
           (snd (updateProgress env quizProgress student world))
           (progressDoc quizProgress student taskUnit)
           ltac:(vm_compute; reflexivity)
           (snd (updateProgress env quizProgress student world))
           (progressDoc quizProgress student taskUnit)
           (snd (updateProgress env quizProgress student
                   (snd (updateProgress env quizProgress student world))))
           eq_refl).
  vm_compute. reflexivity.
Defined.

(** One record is unique. *)
Lemma one_record_unique (p : Progress) : uniqueProgress [p].
Proof.
  intros i j x y Hi Hj _ _.
  apply lookup_lt_Some in Hi. apply lookup_lt_Some in Hj. simpl in *. lia.
Defined.

Lemma updateProgress_keeps_unique_witness :
  Progresses (db (snd (updateProgress env quizProgress student world)))
  = [progressDoc quizProgress student taskUnit]
  /\ Progresses
       (db (snd (updateProgress env textProgress student
                   (snd (updateProgress env quizProgress student world)))))
     = [progressDoc quizProgress student taskUnit;
        progressDoc textProgress student textUnit]
  /\ uniqueProgress
       (Progresses
          (db (snd (updateProgress env textProgress student
                      (snd (updateProgress env quizProgress student world)))))).
Proof.
  split; [vm_compute; reflexivity |]. split; [vm_compute; reflexivity |].
  apply updateProgress_keeps_unique.
  change (Progresses (db (snd (updateProgress env quizProgress student world))))
    with [progressDoc quizProgress student taskUnit].
  apply one_record_unique.
Defined.

Lemma getUnitProgress_reads_witness :
  fst (getUnitProgress env "unit-task" stranger world) = Throw ForbiddenError
  /\ fst (getUnitProgress env "unit-task" student world) = Ok None.
Proof.
  split.
  - apply (getUnitProgress_reads env "unit-task" stranger world taskUnit course);
      vm_compute; reflexivity.
  - destruct (getUnitProgress_reads env "unit-task" student world taskUnit course
                ltac:(vm_compute; reflexivity) ltac:(vm_compute; reflexivity))
      as (_ & Hread & _).
    rewrite Hread by (vm_compute; reflexivity). vm_compute. reflexivity.
Defined.

End FurtherExamples.
